(** * SMS-System: message lifecycle synchronisation

    A shallow embedding of the parts of the repository that keep the
    client's optimistic view of sent messages consistent with the store:

    - [frontend/components/MessagingInterface.tsx]: [loadMessages] (the
      reconciliation merge), the push-channel callback installed by
      [setupWebSocket], and [handleSend] with its [pollForMessage] chain;
    - [frontend/lib/api.ts]: [smsApiClient.sendSms] and
      [storeApiClient.getUserMessages];
    - [sms-store/internal/store]: [MemoryStore.Save] and [MemoryStore.List];
    - [sms-store/internal/httpapi/handlers.go]: [GetUserMessages],
      [GetConversations] and [DeleteUserMessages];
    - [sms-sender]: [EchoService.echo].

    JavaScript objects used as dictionaries are [gmap]s, JavaScript [Set]s
    are [gset]s, and the insertion-ordered [Map] of the merge is an
    association list.  The lookups in [retryTimersRef.current] and in the
    [seen] object of [loadConversations] also find the members that every
    object inherits.  Promises and timers are made explicit: a fetch is an
    [Outcome], the timer queue is part of the state.  A Go slice handed
    over by the store is [nil] or a list. *)

From Stdlib Require Import ZArith String List Ascii Bool Lia Permutation.
From stdpp Require Import base decidable option list gmap strings.
Import ListNotations.

Local Open Scope string_scope.
Local Open Scope list_scope.
Local Open Scope Z_scope.

(** ** JavaScript values used by the client *)

Module Js.

(** [Boolean(s)] for a string: only the empty string is falsy. *)
Definition truthy (s : string) : bool := negb (String.eqb s "").

(** [a || b] where [a] is an optional string property and [b] a string:
    [undefined] and [""] fall through to [b]. *)
Definition orElse (a : option string) (b : string) : string :=
  match a with
  | Some s => if truthy s then s else b
  | None => b
  end.

(** The settled state of a promise. *)
Inductive Outcome (A : Type) : Type :=
| Resolved (a : A)
| Rejected (message : string).
Arguments Resolved {A} a.
Arguments Rejected {A} message.

(** A [Map<string, V>]: keys keep the position of their first insertion,
    [set] on an existing key replaces the value where it stands. *)
Section InsertionOrderedMap.
Context {V : Type}.

Fixpoint mapSet (k : string) (v : V) (m : list (string * V)) : list (string * V) :=
  match m with
  | [] => [(k, v)]
  | (k', v') :: rest =>
      if String.eqb k' k then (k', v) :: rest else (k', v') :: mapSet k v rest
  end.

Definition mapHas (k : string) (m : list (string * V)) : bool :=
  existsb (fun kv => String.eqb (fst kv) k) m.

Fixpoint mapGet (k : string) (m : list (string * V)) : option V :=
  match m with
  | [] => None
  | (k', v) :: rest => if String.eqb k' k then Some v else mapGet k rest
  end.

Definition mapValues (m : list (string * V)) : list V := List.map snd m.
End InsertionOrderedMap.

(** [Array.prototype.sort] with a comparator: stable; a comparator result
    that is not positive leaves the earlier element first. *)
Section Sort.
Context {A : Type} (cmp : A -> A -> Z).

Fixpoint insertBy (x : A) (l : list A) : list A :=
  match l with
  | [] => [x]
  | y :: rest => if cmp x y <=? 0 then x :: y :: rest else y :: insertBy x rest
  end.

Definition sortBy (l : list A) : list A := fold_right insertBy [] l.
End Sort.

End Js.

(** ** The client: api.ts and MessagingInterface.tsx *)

Module Frontend.
Import Js.

(** [interface Message] of api.ts. *)
Record Message : Type := mkMessage {
  m_id : string;
  m_correlationId : option string;
  m_phoneNumber : string;
  m_text : string;
  m_status : string;
  m_createdAt : string
}.

#[global] Instance Message_eq_dec : EqDecision Message.
Proof. solve_decision. Defined.

(** [m.correlationId || m.id], the correlation key of a message. *)
Definition keyOf (m : Message) : string := orElse (m_correlationId m) (m_id m).

Definition withStatus (m : Message) (s : string) : Message :=
  mkMessage (m_id m) (m_correlationId m) (m_phoneNumber m) (m_text m) s (m_createdAt m).

Definition isTerminal (status : string) : bool :=
  String.eqb status "SUCCESS" || String.eqb status "FAILED".

(** *** loadMessages *)

Section Reconciler.
(** [new Date(s).getTime()]; [None] stands for [NaN] (unparseable date). *)
Variable getTime : string -> option Z.

Definition persistedIds (data : list Message) : gset string :=
  list_to_set (List.map m_id data).

Definition persistedCorrelationIds (data : list Message) : gset string :=
  list_to_set (List.filter truthy (List.map keyOf data)).

(** [Date.now() - new Date(m.createdAt).getTime() > 2500]; a comparison
    with [NaN] is false. *)
Definition tooOld (now : Z) (m : Message) : bool :=
  match getTime (m_createdAt m) with
  | Some t => 2500 <? now - t
  | None => false
  end.

(** The predicate of [currentMessages.filter(...)]. *)
Definition keepOptimistic (now : Z) (data : list Message) (m : Message) : bool :=
  let correlationId := keyOf m in
  if truthy correlationId && bool_decide (correlationId ∈ persistedCorrelationIds data)
  then false
  else if bool_decide (m_id m ∈ persistedIds data) then false
  else if tooOld now m then false
  else true.

Definition optimisticMessages (now : Z) (data currentMessages : list Message)
  : list Message :=
  List.filter (keepOptimistic now data) currentMessages.

(** The two [forEach] loops filling [mergedMap]. *)
Definition addPersisted (acc : list (string * Message)) (msg : Message) :=
  mapSet (keyOf msg) msg acc.

Definition addOptimistic (acc : list (string * Message)) (msg : Message) :=
  if mapHas (keyOf msg) acc then acc else mapSet (keyOf msg) msg acc.

Definition mergedMap (data optimistic : list Message) : list (string * Message) :=
  fold_left addOptimistic optimistic (fold_left addPersisted data []).

(** The comparator [new Date(a.createdAt).getTime() - new Date(b.createdAt).getTime()];
    a [NaN] result counts as [0]. *)
Definition byCreatedAt (a b : Message) : Z :=
  match getTime (m_createdAt a), getTime (m_createdAt b) with
  | Some x, Some y => x - y
  | _, _ => 0
  end.

Definition merged (now : Z) (data currentMessages : list Message) : list Message :=
  sortBy byCreatedAt
    (mapValues (mergedMap data (optimisticMessages now data currentMessages))).

(** The new value of [messages[phoneNumber]] computed by the updater
    passed to [setMessages] once the fetch has resolved with [data]. *)
Definition reconciled (preserveOptimistic : bool) (now : Z)
           (data currentMessages : list Message) : list Message :=
  if preserveOptimistic && (0 <? Z.of_nat (length currentMessages))
  then merged now data currentMessages
  else sortBy byCreatedAt data.

End Reconciler.

(** *** The push-channel callback of setupWebSocket *)

(** The payload [{ requestId, status }] delivered by [subscribeToSmsStatus]. *)
Record StatusEvent : Type := mkStatusEvent {
  ev_requestId : string;
  ev_status : string
}.

(** [correlationId === data.requestId || msg.id === data.requestId]. *)
Definition matchesEvent (data : StatusEvent) (msg : Message) : bool :=
  String.eqb (keyOf msg) (ev_requestId data) || String.eqb (m_id msg) (ev_requestId data).

(** [currentMessages.map(...)]: a matching message becomes
    [{ ...msg, status: data.status }]. *)
Definition updated (data : StatusEvent) (currentMessages : list Message) : list Message :=
  List.map (fun msg => if matchesEvent data msg then withStatus msg (ev_status data) else msg)
           currentMessages.

Definition found (data : StatusEvent) (currentMessages : list Message) : bool :=
  existsb (matchesEvent data) currentMessages.

(** The updater run on every event: the new [messages] state, and whether
    a [loadMessages(phoneNumber, true)] was scheduled one second later. *)
Definition onStatusEvent (phoneNumber : string) (data : StatusEvent)
           (prev : gmap string (list Message)) : gmap string (list Message) * bool :=
  let currentMessages := default [] (prev !! phoneNumber) in
  (<[phoneNumber := updated data currentMessages]> prev,
   negb (found data currentMessages) && (0 <? Z.of_nat (length currentMessages))).

(** *** api.ts *)

Record SendSmsRequest : Type := mkSendSmsRequest {
  req_phoneNumber : string;
  req_message : string
}.

Record SendSmsResponse : Type := mkSendSmsResponse {
  requestId : string;
  status : string;
  timestamp : Z
}.

(** The JSON body of an error reply, as far as the client reads it. *)
Record ErrorData : Type := mkErrorData {
  data_message : option string;
  data_error : option string
}.

(** How an axios call settles: a reply accepted by [validateStatus], an
    error carrying [error.response], or an error without a response. *)
Inductive AxiosResult (A : Type) : Type :=
| AxiosResponse (data : A)
| AxiosHttpError (message : string) (status : Z) (data : ErrorData)
| AxiosNoResponse (message : string).
Arguments AxiosResponse {A} data.
Arguments AxiosHttpError {A} message status data.
Arguments AxiosNoResponse {A} message.

Section ApiClient.
Variables SMS_API_BASE STORE_API_BASE : string.

(** [smsApiClient.sendSms]. *)
Definition sendSms (posted : AxiosResult SendSmsResponse) : Outcome SendSmsResponse :=
  match posted with
  | AxiosResponse data => Resolved data
  | AxiosNoResponse _ =>
      Rejected ("Network Error: Unable to connect to SMS service at " +:+ SMS_API_BASE
                +:+ ". Please ensure the Java service is running on port 8081.")
  | AxiosHttpError message _ data =>
      Rejected (orElse (data_message data)
                  (orElse (data_error data)
                     (orElse (Some message) "Failed to send SMS")))
  end.

(** [storeApiClient.getUserMessages]; [data] is [null] or an array, and
    [nowIso] is [new Date().toISOString()]. *)
Definition getUserMessages (nowIso : string)
           (got : AxiosResult (option (list Message))) : Outcome (list Message) :=
  match got with
  | AxiosResponse data =>
      Resolved (List.map
                  (fun msg => mkMessage (m_id msg) (m_correlationId msg) (m_phoneNumber msg)
                                (m_text msg) (m_status msg)
                                (orElse (Some (m_createdAt msg)) nowIso))
                  (default [] data))
  | AxiosNoResponse _ =>
      Rejected ("Network Error: Unable to connect to SMS Store service at " +:+ STORE_API_BASE
                +:+ ". Please ensure the Go service is running on port 8082.")
  | AxiosHttpError _ status _ =>
      if (status =? 404) || (status =? 400) then Resolved [] else Resolved []
  end.
End ApiClient.

(** *** handleSend and pollForMessage *)

Definition pollDelays : list Z := [300; 600; 800; 1200].

(** What one run of [handleSend] captures: the selected phone number, the
    request id, and its [messageFound] flag. *)
Record SendClosure : Type := mkSendClosure {
  s_phoneNumber : string;
  s_correlationId : string;
  s_messageFound : bool
}.

(** A pending [setTimeout(() => pollForMessage(attempt), delay)] of the
    send with index [t_send]. *)
Record Timer : Type := mkTimer {
  t_handle : nat;
  t_send : nat;
  t_attempt : nat;
  t_delay : Z
}.

Inductive Action : Type :=
| ASetTimeout (handle send attempt : nat) (delay : Z)
| AClearTimeout (handle : nat)
| AFetch (send attempt : nat)
| AReplace (send : nat) (persistedMessage : Message)
| ARefresh (phoneNumber : string).

#[global] Instance Action_eq_dec : EqDecision Action.
Proof. solve_decision. Defined.

(** The component state the poller touches, the host's timer queue, the
    [pollForMessage] calls suspended in [await getUserMessages], and the
    log of what was done. *)
Record Client : Type := mkClient {
  messages : gmap string (list Message);
  retryTimersRef : gmap string (list nat);
  timers : list Timer;
  fetching : list (nat * nat);
  closures : list SendClosure;
  nextHandle : nat;
  trace : list Action
}.

Definition initial : Client := mkClient ∅ ∅ [] [] [] 0 [].

(** [clearTimeout(handle)]: a pending timer is dropped, anything else is
    ignored. *)
Definition clearTimeout (handle : nat) (queue : list Timer) : list Timer :=
  List.filter (fun t => negb (Nat.eqb (t_handle t) handle)) queue.

(** [retryTimersRef.current] is a plain object ([useRef({})]): a name
    without an entry of its own is looked up in [Object.prototype].  These
    are the property names of [Object.prototype]. *)
Definition objectPrototypeNames : list string :=
  [ "constructor"; "__defineGetter__"; "__defineSetter__"; "hasOwnProperty";
    "__lookupGetter__"; "__lookupSetter__"; "isPrototypeOf"; "propertyIsEnumerable";
    "toString"; "valueOf"; "__proto__"; "toLocaleString" ].

Definition inheritedName (num : string) : bool :=
  existsb (String.eqb num) objectPrototypeNames.

(** [retryTimersRef.current[phoneNumber]] is an inherited member: there is
    no entry of its own and the name is one of [Object.prototype].  What
    is found then (a function, or the prototype itself for [__proto__]) is
    truthy and has neither [forEach] nor [push]: calling them throws a
    [TypeError]. *)
Definition inheritedMember (phoneNumber : string) (st : Client) : bool :=
  match retryTimersRef st !! phoneNumber with
  | Some _ => false
  | None => inheritedName phoneNumber
  end.

(** [if (ref[phone]) { ref[phone].forEach(clearTimeout); ref[phone] = [] }],
    for a member that is an array or [undefined]. *)
Definition clearRetryTimers (phoneNumber : string) (st : Client) : Client :=
  match retryTimersRef st !! phoneNumber with
  | Some handles =>
      mkClient (messages st)
               (<[phoneNumber := []]> (retryTimersRef st))
               (fold_left (fun queue h => clearTimeout h queue) handles (timers st))
               (fetching st) (closures st) (nextHandle st)
               (trace st ++ List.map AClearTimeout handles)
  | None => st
  end.

(** [const timer = setTimeout(() => pollForMessage(attempt), delay)] alone:
    what is left of the three lines below when the member is an inherited
    one, for which [push] throws. *)
Definition startTimer (send attempt : nat) (st : Client) : Client :=
  let handle := nextHandle st in
  let delay := nth attempt pollDelays 0 in
  mkClient (messages st) (retryTimersRef st)
           (timers st ++ [mkTimer handle send attempt delay])
           (fetching st) (closures st) (S handle)
           (trace st ++ [ASetTimeout handle send attempt delay]).

(** [const timer = setTimeout(() => pollForMessage(attempt), delay);
     if (!ref[phone]) ref[phone] = []; ref[phone].push(timer)],
    for a member that is an array or [undefined]. *)
Definition scheduleAttempt (phoneNumber : string) (send attempt : nat) (st : Client)
  : Client :=
  let handle := nextHandle st in
  let delay := nth attempt pollDelays 0 in
  mkClient (messages st)
           (<[phoneNumber := default [] (retryTimersRef st !! phoneNumber) ++ [handle]]>
              (retryTimersRef st))
           (timers st ++ [mkTimer handle send attempt delay])
           (fetching st) (closures st) (S handle)
           (trace st ++ [ASetTimeout handle send attempt delay]).

Definition optimisticMessage (selectedPhoneNumber messageText : string)
           (response : SendSmsResponse) (nowIso : string) : Message :=
  mkMessage (requestId response) (Some (requestId response)) selectedPhoneNumber
            messageText (status response) nowIso.

(** [handleSend] from the point where [sendSms] has resolved with
    [response]: append the optimistic message, clear the retry timers of
    the conversation, start the poll chain.  When the lookup of the retry
    timers finds an inherited member, [forEach] throws before
    [pollForMessage] is created: the [catch] block of [handleSend] runs,
    and neither a timer nor a poll closure comes into being. *)
Definition handleSend (selectedPhoneNumber messageText : string)
           (response : SendSmsResponse) (nowIso : string) (st : Client) : Client :=
  let opt := optimisticMessage selectedPhoneNumber messageText response nowIso in
  let shown := <[selectedPhoneNumber :=
                   default [] (messages st !! selectedPhoneNumber) ++ [opt]]> (messages st) in
  if inheritedMember selectedPhoneNumber st
  then mkClient shown (retryTimersRef st) (timers st) (fetching st) (closures st)
                (nextHandle st) (trace st)
  else
    let st1 :=
      mkClient shown (retryTimersRef st) (timers st) (fetching st)
               (closures st ++ [mkSendClosure selectedPhoneNumber (requestId response) false])
               (nextHandle st) (trace st) in
    scheduleAttempt selectedPhoneNumber (length (closures st)) 0
                    (clearRetryTimers selectedPhoneNumber st1).

(** A timer fires: [pollForMessage(attempt)] runs up to its [await]. *)
Definition fire (handle : nat) (st : Client) : option Client :=
  match List.find (fun t => Nat.eqb (t_handle t) handle) (timers st) with
  | None => None
  | Some t =>
      match closures st !! t_send t with
      | None => None
      | Some c =>
          let queue := clearTimeout handle (timers st) in
          if s_messageFound c
          then Some (mkClient (messages st) (retryTimersRef st) queue (fetching st)
                              (closures st) (nextHandle st) (trace st))
          else Some (mkClient (messages st) (retryTimersRef st) queue
                              (fetching st ++ [(t_send t, t_attempt t)])
                              (closures st) (nextHandle st)
                              (trace st ++ [AFetch (t_send t) (t_attempt t)]))
      end
  end.

Definition sameCall (a b : nat * nat) : bool :=
  Nat.eqb (fst a) (fst b) && Nat.eqb (snd a) (snd b).

(** [data.find(m => (m.correlationId || m.id) === correlationId)]. *)
Definition findPersisted (correlationId : string) (data : list Message) : option Message :=
  List.find (fun m => String.eqb (keyOf m) correlationId) data.

(** The in-place replacement done when the message was found. *)
Definition replaceOptimistic (correlationId : string) (persistedMessage : Message)
           (currentMessages : list Message) : list Message :=
  List.map (fun msg => if String.eqb (keyOf msg) correlationId then persistedMessage else msg)
           currentMessages.

(** The rest of [pollForMessage(attempt)] once [getUserMessages] settled.
    Where the member of [retryTimersRef.current] is an inherited one, the
    call of [forEach] or [push] throws inside the [try]: after a match the
    [catch] block finds [messageFound] set and does nothing; after a fetch
    without the message it sets a second timer and its own [push] throws;
    after a failed fetch the [push] of the [catch] block throws, with the
    timer set. *)
Definition settle (send attempt : nat) (fetched : Outcome (list Message)) (st : Client)
  : option Client :=
  if negb (existsb (sameCall (send, attempt)) (fetching st)) then None else
  match closures st !! send with
  | None => None
  | Some c =>
      let phone := s_phoneNumber c in
      let st0 := mkClient (messages st) (retryTimersRef st) (timers st)
                          (List.filter (fun call => negb (sameCall (send, attempt) call))
                                       (fetching st))
                          (closures st) (nextHandle st) (trace st) in
      let again :=
        (Z.of_nat attempt <? Z.of_nat (length pollDelays) - 1) && negb (s_messageFound c) in
      match fetched with
      | Resolved data =>
          match findPersisted (s_correlationId c) data with
          | Some persistedMessage =>
              let st1 :=
                mkClient (<[phone := replaceOptimistic (s_correlationId c) persistedMessage
                                       (default [] (messages st0 !! phone))]> (messages st0))
                         (retryTimersRef st0) (timers st0) (fetching st0)
                         (<[send := mkSendClosure phone (s_correlationId c) true]>
                            (closures st0))
                         (nextHandle st0)
                         (trace st0 ++ [AReplace send persistedMessage]) in
              if inheritedMember phone st then Some st1
              else Some (clearRetryTimers phone st1)
          | None =>
              if again
              then
                if inheritedMember phone st
                then Some (startTimer send (S attempt) (startTimer send (S attempt) st0))
                else Some (scheduleAttempt phone send (S attempt) st0)
              else
                if negb (s_messageFound c)
                then Some (mkClient (messages st0) (retryTimersRef st0) (timers st0)
                                    (fetching st0) (closures st0) (nextHandle st0)
                                    (trace st0 ++ [ARefresh phone]))
                else Some st0
          end
      | Rejected _ =>
          if again
          then
            if inheritedMember phone st
            then Some (startTimer send (S attempt) st0)
            else Some (scheduleAttempt phone send (S attempt) st0)
          else Some st0
      end
  end.

(** What can happen to the client, in the order the event loop runs it. *)
Inductive Event : Type :=
| EvSend (selectedPhoneNumber messageText : string) (response : SendSmsResponse)
         (nowIso : string)
| EvFire (handle : nat)
| EvSettle (send attempt : nat) (fetched : Outcome (list Message)).

Definition step (e : Event) (st : Client) : option Client :=
  match e with
  | EvSend phone text response nowIso =>
      if truthy phone && truthy text
      then Some (handleSend phone text response nowIso st)
      else None
  | EvFire handle => fire handle st
  | EvSettle send attempt fetched => settle send attempt fetched st
  end.

Fixpoint run (events : list Event) (st : Client) : option Client :=
  match events with
  | [] => Some st
  | e :: rest =>
      match step e st with
      | Some st' => run rest st'
      | None => None
      end
  end.

Definition reachable (st : Client) : Prop :=
  exists events, run events initial = Some st.

(** One send left alone: each pending timer fires in turn and its fetch
    settles with the next outcome, until nothing is pending or the
    outcomes are used up. *)
Fixpoint poll (outcomes : list (Outcome (list Message))) (st : Client) : Client :=
  match outcomes with
  | [] => st
  | fetched :: rest =>
      match timers st with
      | [] => st
      | t :: _ =>
          match fire (t_handle t) st with
          | None => st
          | Some st1 =>
              match settle (t_send t) (t_attempt t) fetched st1 with
              | None => st1
              | Some st2 => poll rest st2
              end
          end
      end
  end.

(** The sends that still have a poll attempt pending or in flight for a
    phone number. *)
Definition sendPhone (st : Client) (send : nat) : option string :=
  s_phoneNumber <$> (closures st !! send).

Definition pollsOf (phoneNumber : string) (st : Client) : list nat :=
  List.filter (fun send => bool_decide (sendPhone st send = Some phoneNumber))
              (List.map t_send (timers st) ++ List.map fst (fetching st)).

Definition timersOf (phoneNumber : string) (st : Client) : list Timer :=
  List.filter (fun t => bool_decide (sendPhone st (t_send t) = Some phoneNumber))
              (timers st).

End Frontend.

(** ** Running the definitions on concrete dates *)

Module IsoDate.

(** A reading of [new Date(s).getTime()] for the one format that
    [Date.prototype.toISOString] writes, [YYYY-MM-DDTHH:mm:ss.sssZ]; any
    other string is treated as unparseable.  It is only used to evaluate
    the client on concrete messages; the theorems hold for every
    [getTime]. *)

Definition digit (c : ascii) : option Z :=
  let n := Z.of_nat (nat_of_ascii c) in
  if (48 <=? n) && (n <=? 57) then Some (n - 48) else None.

Fixpoint number (acc : Z) (cs : list ascii) : option Z :=
  match cs with
  | [] => Some acc
  | c :: rest =>
      match digit c with
      | Some d => number (10 * acc + d) rest
      | None => None
      end
  end.

Definition isLeap (y : Z) : bool :=
  ((y mod 4 =? 0) && negb (y mod 100 =? 0)) || (y mod 400 =? 0).

Definition daysInMonth (y m : Z) : Z :=
  if m =? 2 then (if isLeap y then 29 else 28)
  else if (m =? 4) || (m =? 6) || (m =? 9) || (m =? 11) then 30
  else 31.

(** Days between 1970-01-01 and the given civil date. *)
Definition daysFromCivil (y m d : Z) : Z :=
  let y' := if m <=? 2 then y - 1 else y in
  let era := y' / 400 in
  let yoe := y' - era * 400 in
  let mp := if 2 <? m then m - 3 else m + 9 in
  let doy := (153 * mp + 2) / 5 + d - 1 in
  let doe := yoe * 365 + yoe / 4 - yoe / 100 + doy in
  era * 146097 + doe - 719468.

Definition getTime (s : string) : option Z :=
  match list_ascii_of_string s with
  | [y1; y2; y3; y4; "-"%char; mo1; mo2; "-"%char; d1; d2; "T"%char;
     h1; h2; ":"%char; mi1; mi2; ":"%char; s1; s2; "."%char; f1; f2; f3; "Z"%char] =>
      match number 0 [y1; y2; y3; y4], number 0 [mo1; mo2], number 0 [d1; d2],
            number 0 [h1; h2], number 0 [mi1; mi2], number 0 [s1; s2],
            number 0 [f1; f2; f3] with
      | Some y, Some mo, Some d, Some h, Some mi, Some sec, Some ms =>
          if (1 <=? mo) && (mo <=? 12) && (1 <=? d) && (d <=? daysInMonth y mo)
             && (h <=? 23) && (mi <=? 59) && (sec <=? 59)
          then Some ((((daysFromCivil y mo d * 24 + h) * 60 + mi) * 60 + sec) * 1000 + ms)
          else None
      | _, _, _, _, _, _, _ => None
      end
  | _ => None
  end.

End IsoDate.

(** ** The store service: Go packages strings, models, store, httpapi *)

Module strings.

(** Go strings are byte sequences; so are Rocq's. *)
Definition bytes (s : string) : list ascii := list_ascii_of_string s.
Definition ofBytes (l : list ascii) : string := string_of_list_ascii l.

Fixpoint startsWith (s p : list ascii) : bool :=
  match p, s with
  | [], _ => true
  | _ :: _, [] => false
  | c :: p', d :: s' => Ascii.eqb c d && startsWith s' p'
  end.

Definition HasPrefix (s prefix : string) : bool := startsWith (bytes s) (bytes prefix).

Definition HasSuffix (s suffix : string) : bool :=
  startsWith (rev (bytes s)) (rev (bytes suffix)).

Definition TrimPrefix (s prefix : string) : string :=
  if HasPrefix s prefix
  then ofBytes (skipn (String.length prefix) (bytes s))
  else s.

Definition TrimSuffix (s suffix : string) : string :=
  if HasSuffix s suffix
  then ofBytes (firstn (String.length s - String.length suffix) (bytes s))
  else s.

Fixpoint containsBytes (s sub : list ascii) : bool :=
  startsWith s sub ||
  match s with
  | [] => false
  | _ :: s' => containsBytes s' sub
  end.

Definition Contains (s substr : string) : bool := containsBytes (bytes s) (bytes substr).

(** The UTF-8 encodings of the code points for which [unicode.IsSpace]
    holds: tab, line feed, vertical tab, form feed, carriage return,
    space, U+0085, U+00A0, U+1680, U+2000 to U+200A, U+2028, U+2029,
    U+202F, U+205F and U+3000. *)
Definition spaces : list (list ascii) :=
  List.map (List.map ascii_of_nat)
    [ [9]; [10]; [11]; [12]; [13]; [32];
      [194; 133]; [194; 160]; [225; 154; 128];
      [226; 128; 128]; [226; 128; 129]; [226; 128; 130]; [226; 128; 131];
      [226; 128; 132]; [226; 128; 133]; [226; 128; 134]; [226; 128; 135];
      [226; 128; 136]; [226; 128; 137]; [226; 128; 138];
      [226; 128; 168]; [226; 128; 169]; [226; 128; 175];
      [226; 129; 159]; [227; 128; 128] ]%nat.

(** Drop one white-space code point from the front, if there is one. *)
Definition dropSpace (encodings : list (list ascii)) (s : list ascii)
  : option (list ascii) :=
  match List.find (startsWith s) encodings with
  | Some e => Some (skipn (length e) s)
  | None => None
  end.

Fixpoint dropSpaces (fuel : nat) (encodings : list (list ascii)) (s : list ascii)
  : list ascii :=
  match fuel with
  | O => s
  | S fuel' =>
      match dropSpace encodings s with
      | Some s' => dropSpaces fuel' encodings s'
      | None => s
      end
  end.

(** [strings.TrimSpace]: leading, then trailing white space is removed. *)
Definition TrimSpace (s : string) : string :=
  let front := dropSpaces (String.length s) spaces (bytes s) in
  ofBytes (rev (dropSpaces (length front) (List.map (@rev ascii) spaces) (rev front))).

End strings.

Module models.

(** [models.Message]; [CreatedAt] is the [time.Time] as Unix nanoseconds. *)
Record Message : Type := mkMessage {
  ID : string;
  UserID : string;
  PhoneNumber : string;
  Text : string;
  Status : string;
  CreatedAt : Z
}.

#[global] Instance Message_eq_dec : EqDecision Message.
Proof. solve_decision. Defined.

End models.

Module store.

(** A Go [error] value: [None] is [nil]. *)
Definition error : Type := option string.

(** [MemoryStore]; the mutex serialises the calls, which are run here one
    after the other. *)
Record MemoryStore : Type := mkMemoryStore {
  messages : list models.Message
}.

Definition NewMemoryStore : MemoryStore := mkMemoryStore [].

(** [Save]: the store afterwards and the returned pair. *)
Definition Save (msg : models.Message) (s : MemoryStore)
  : MemoryStore * (models.Message * error) :=
  (mkMemoryStore (messages s ++ [msg]), (msg, None)).

(** The slice returned is built by [make] and is never [nil]. *)
Definition List (s : MemoryStore) : list models.Message * error :=
  (messages s, None).

(** [n] calls of [Save] with the same message. *)
Fixpoint SaveTimes (n : nat) (msg : models.Message) (s : MemoryStore) : MemoryStore :=
  match n with
  | O => s
  | S n' => SaveTimes n' msg (fst (Save msg s))
  end.

(** A Go slice as a value handed from the store to a handler: [None] is
    the [nil] slice, [Some l] a slice that is not [nil] and holds [l].
    Both [None] and [Some []] have length 0. *)
Definition slice (A : Type) : Type := option (list A).


(** The methods of the [store.Store] interface that the per-recipient and
    conversation handlers call, as what they return at the time of the
    call.  The implementation is not among the sources: a method may
    return any slice, [nil] included. *)
Record Store : Type := mkStore {
  FindByPhoneNumber : string -> slice models.Message * error;
  GetDistinctPhoneNumbers : slice string * error;
  DeleteByPhoneNumber : string -> Z * error
}.

End store.

Module httpapi.
Import strings store.

(** What [writeJSON] is given to encode. *)
Inductive Payload : Type :=
| errorResponse (Code Message : string)
| messageList (messages : slice models.Message)
| phoneNumberList (phoneNumbers : slice string)
| deleted (message : string) (deletedCount : Z) (phoneNumber : string).



Record Response : Type := mkResponse {
  statusCode : Z;
  payload : Payload
}.

Definition StatusOK : Z := 200.
Definition StatusBadRequest : Z := 400.
Definition StatusInternalServerError : Z := 500.

(** A handler either writes its response or calls the store and goes on
    with what the store returned. *)
Inductive Handler : Type :=
| write (r : Response)
| callFindByPhoneNumber (phoneNumber : string)
                        (k : slice models.Message * error -> Handler)
| callGetDistinctPhoneNumbers (k : slice string * error -> Handler)
| callDeleteByPhoneNumber (phoneNumber : string) (k : Z * error -> Handler).

Inductive StoreCall : Type :=
| FindByPhoneNumberCall (phoneNumber : string)
| GetDistinctPhoneNumbersCall
| DeleteByPhoneNumberCall (phoneNumber : string).

Definition writeJSON (status : Z) (p : Payload) : Handler := write (mkResponse status p).

Definition writeError (status : Z) (code message : string) : Handler :=
  writeJSON status (errorResponse code message).

(** The phone number taken from [/v1/user/{phoneNumber}/messages]. *)
Definition phoneNumberOf (path : string) : string :=
  TrimSpace (TrimSuffix (TrimPrefix path "/v1/user/") "/messages").

Definition GetUserMessages (path : string) : Handler :=
  let prefix := "/v1/user/" in
  let suffix := "/messages" in
  if negb (HasPrefix path prefix) || negb (HasSuffix path suffix)
  then writeError StatusBadRequest "BAD_REQUEST" "invalid URL path"
  else
    let phoneNumber := phoneNumberOf path in
    if String.eqb phoneNumber "" || Contains phoneNumber "/"
    then writeError StatusBadRequest "BAD_REQUEST" "invalid phoneNumber"
    else
      callFindByPhoneNumber phoneNumber (fun '(messages, err) =>
        match err with
        | Some _ =>
            writeError StatusInternalServerError "INTERNAL" "could not retrieve messages"
        | None => writeJSON StatusOK (messageList messages)
        end).

Definition GetConversations : Handler :=
  callGetDistinctPhoneNumbers (fun '(phoneNumbers, err) =>
    match err with
    | Some _ =>
        writeError StatusInternalServerError "INTERNAL" "could not retrieve conversations"
    | None => writeJSON StatusOK (phoneNumberList phoneNumbers)
    end).

Definition DeleteUserMessages (path : string) : Handler :=
  let prefix := "/v1/user/" in
  let suffix := "/messages" in
  if negb (HasPrefix path prefix) || negb (HasSuffix path suffix)
  then writeError StatusBadRequest "BAD_REQUEST" "invalid URL path"
  else
    let phoneNumber := phoneNumberOf path in
    if String.eqb phoneNumber "" || Contains phoneNumber "/"
    then writeError StatusBadRequest "BAD_REQUEST" "invalid phoneNumber"
    else
      callDeleteByPhoneNumber phoneNumber (fun '(deletedCount, err) =>
        match err with
        | Some _ =>
            writeError StatusInternalServerError "INTERNAL" "could not delete messages"
        | None =>
            writeJSON StatusOK (deleted "Messages deleted successfully" deletedCount phoneNumber)
        end).

(** Running a handler against a store: the response written and the
    store calls made, in order. *)
Fixpoint serve (s : Store) (h : Handler) : Response * list StoreCall :=
  match h with
  | write r => (r, [])
  | callFindByPhoneNumber p k =>
      let (r, calls) := serve s (k (FindByPhoneNumber s p)) in
      (r, FindByPhoneNumberCall p :: calls)
  | callGetDistinctPhoneNumbers k =>
      let (r, calls) := serve s (k (GetDistinctPhoneNumbers s)) in
      (r, GetDistinctPhoneNumbersCall :: calls)
  | callDeleteByPhoneNumber p k =>
      let (r, calls) := serve s (k (DeleteByPhoneNumber s p)) in
      (r, DeleteByPhoneNumberCall p :: calls)
  end.

End httpapi.

(** ** The sender *)

Module sms_sender.

(** [dto.EchoRequest]. *)
Record EchoRequest : Type := mkEchoRequest {
  phoneNumber : string;
  message : string
}.

(** [EchoService.echo], served at [POST /v1/echo].  The class
    [EchoResponse] is not among the sources: its constructor is an
    argument, and so is the reading of [System.currentTimeMillis()]. *)
Section EchoService.
Variable EchoResponse : Type.
Variable newEchoResponse : string -> string -> Z -> EchoResponse.

Definition echo (currentTimeMillis : Z) (req : EchoRequest) : EchoResponse :=
  newEchoResponse (phoneNumber req) (message req) currentTimeMillis.
End EchoService.

End sms_sender.

Module sender.
Import Frontend.

(** Modelled from the spec: the send entry point.  The controller and
    service behind [POST /v1/sms/send] are not among the sources (only
    the client's [sendSms] and the reply type [SendSmsResponse] are); the
    spec says it "accepts [{recipient, text}], returns
    [{correlationId, status, timestamp}] synchronously".  Which
    identifier and initial status it assigns and what its clock reads are
    inputs here. *)
Definition send (correlationId initialStatus : string) (clock : Z)
           (request : SendSmsRequest) : AxiosResult SendSmsResponse :=
  AxiosResponse (mkSendSmsResponse correlationId initialStatus clock).

End sender.

Import Js Frontend.

(** ** Vocabulary of the properties *)

(** *** The merged view *)

Definition keysOf (l : list Message) : list string := List.map keyOf l.

(** The first and the last entry of a list that carry a given key. *)
Definition firstWithKey (k : string) (l : list Message) : option Message :=
  List.find (fun m => String.eqb (keyOf m) k) l.

Definition lastWithKey (k : string) (l : list Message) : option Message :=
  firstWithKey k (rev l).

(** "Exactly one entry per distinct correlation key appearing in either
    input list". *)
Definition oneEntryPerKey (out persisted optimistic : list Message) : Prop :=
  forall k, In k (keysOf persisted) \/ In k (keysOf optimistic) ->
            count_occ string_dec (keysOf out) k = 1%nat.

(** "For every key present in the persisted list the output entry is the
    persisted entry". *)
Definition persistedWins (out persisted : list Message) : Prop :=
  forall m, In m out -> In (keyOf m) (keysOf persisted) -> In m persisted.

(** An optimistic entry has a persisted counterpart when the filter finds
    its correlation key or its id among the persisted ones. *)
Definition matched (data : list Message) (m : Message) : Prop :=
  In (keyOf m) (keysOf data) \/ In (m_id m) (List.map m_id data).

(** A conversation with one persisted message and two optimistic ones, the
    first of them three seconds old. *)
Definition staleOptimistic : Message :=
  mkMessage "r1" (Some "r1") "+15551234567" "hi" "PENDING" "2024-01-01T00:00:00.000Z".

Definition freshOptimistic : Message :=
  mkMessage "r2" (Some "r2") "+15551234567" "yo" "PENDING" "2024-01-01T00:00:02.000Z".

Definition persistedFirst : Message :=
  mkMessage "msg-1" (Some "r0") "+15551234567" "hey" "SUCCESS" "2023-12-31T23:59:00.000Z".

(** Three seconds after [staleOptimistic] was created. *)
Definition threeSecondsLater : Z := 1704067203000.

(** A second local entry under the key of [freshOptimistic], half a
    second younger. *)
Definition repeatedOptimistic : Message :=
  mkMessage "r2" (Some "r2") "+15551234567" "yo again" "PENDING" "2024-01-01T00:00:02.500Z".

(** "... while a younger unmatched optimistic entry is kept." *)
Definition youngUnmatchedKept (getTime : string -> option Z) (now : Z)
           (data current : list Message) : Prop :=
  forall m t,
    In m current ->
    getTime (m_createdAt m) = Some t ->
    ~ matched data m ->
    now - t <= 2500 ->
    In m (reconciled getTime true now data current).

(** *** Status events and the store *)

(** "Applying a push-channel status event whose requestId matches a local
    message with terminal status never changes that message's status." *)
Definition terminalIsSticky (phoneNumber : string) (data : StatusEvent)
           (prev : gmap string (list Message)) : Prop :=
  forall (i : nat) (m : Message),
    default [] (prev !! phoneNumber) !! i = Some m ->
    isTerminal (m_status m) = true ->
    matchesEvent data m = true ->
    exists m', default [] ((onStatusEvent phoneNumber data prev).1 !! phoneNumber) !! i = Some m'
               /\ m_status m' = m_status m.

Definition delivered : Message :=
  mkMessage "msg-1" (Some "r1") "+15551234567" "hi" "SUCCESS" "2024-01-01T00:00:00.000Z".

(** "Applying the same status event to the message store N times (for any
    N >= 1) yields the same final stored record as applying it once." *)
Definition saveIsIdempotent (msg : models.Message) (s : store.MemoryStore) : Prop :=
  forall n, (1 <= n)%nat -> store.SaveTimes n msg s = store.SaveTimes 1 msg s.

Definition receivedEvent : models.Message :=
  models.mkMessage "msg-20240101000000.000000000" "u1" "+15551234567" "hi" "RECEIVED"
                   1704067200000000000.

(** *** The handlers *)

(** A store whose lookups fail, one that holds nothing and returns empty
    slices, and one that holds nothing and returns [nil] slices. *)
Definition unavailableStore : store.Store :=
  store.mkStore (fun _ => (None, Some "server selection timeout"))
                (None, Some "server selection timeout")
                (fun _ => (0, Some "server selection timeout")).

Definition emptyStore : store.Store :=
  store.mkStore (fun _ => (Some [], None)) (Some [], None) (fun _ => (0, None)).


Definition internalError (message : string) : httpapi.Response :=
  httpapi.mkResponse 500 (httpapi.errorResponse "INTERNAL" message).

Definition badRequest (message : string) : httpapi.Response :=
  httpapi.mkResponse 400 (httpapi.errorResponse "BAD_REQUEST" message).

(** The path has the shape [/v1/user/.../messages] that the router hands
    to the per-recipient handlers. *)
Definition routed (path : string) : bool :=
  strings.HasPrefix path "/v1/user/" && strings.HasSuffix path "/messages".

(** The validation of the extracted phone number. *)
Definition invalidPhoneNumber (phoneNumber : string) : bool :=
  String.eqb phoneNumber "" || strings.Contains phoneNumber "/".


(** *** The poll chain *)

(** Every pending timer belongs to a send whose conversation lists the
    timer's handle in [retryTimersRef]; handles are handed out in
    increasing order, and a listed handle is not shared with a timer of
    another conversation. *)
Definition wellTracked (st : Client) : Prop :=
  (forall t, In t (timers st) ->
             (t_handle t < nextHandle st)%nat
             /\ exists p hs, sendPhone st (t_send t) = Some p
                             /\ retryTimersRef st !! p = Some hs
                             /\ In (t_handle t) hs)
  /\ (forall p hs h, retryTimersRef st !! p = Some hs -> In h hs ->
                     (h < nextHandle st)%nat)
  /\ (forall p hs t, retryTimersRef st !! p = Some hs -> In (t_handle t) hs ->
                     In t (timers st) -> sendPhone st (t_send t) = Some p).

(** The phone number of every poll closure has passed the lookup of
    [handleSend]: its member of [retryTimersRef.current] is not an
    inherited one. *)
Definition ownEntries (st : Client) : Prop :=
  forall send c, closures st !! send = Some c ->
                 inheritedMember (s_phoneNumber c) st = false.

(** No name of [Object.prototype] has an entry of its own in
    [retryTimersRef.current]. *)
Definition plainKeys (st : Client) : Prop :=
  forall p, is_Some (retryTimersRef st !! p) -> inheritedName p = false.

(** "Starting a new send to a recipient ... so at most one active poll
    sequence exists per recipient at any time." *)
Definition onePollPerRecipient (st : Client) : Prop :=
  forall phoneNumber send1 send2,
    In send1 (pollsOf phoneNumber st) -> In send2 (pollsOf phoneNumber st) -> send1 = send2.

(** The timer's handle is among the given ones. *)
Definition listed (hs : list nat) (t : Timer) : bool :=
  existsb (Nat.eqb (t_handle t)) hs.

Definition firstSend : SendSmsResponse := mkSendSmsResponse "r1" "PENDING" 1704067200000.
Definition secondSend : SendSmsResponse := mkSendSmsResponse "r2" "PENDING" 1704067200350.

(** A second send to the same number starts while the first send's first
    poll attempt is waiting for its fetch; the fetch then returns without
    the message. *)
Definition overlappingSends : list Event :=
  [ EvSend "9876543210" "hi" firstSend "2024-01-01T00:00:00.000Z";
    EvFire 0;
    EvSend "9876543210" "yo" secondSend "2024-01-01T00:00:00.350Z";
    EvSettle 0 0 (Resolved []) ].

(** The send [send] waits for its attempt number [attempt]: its timer is
    the only pending one, nothing is in flight, its message has not been
    found, and its phone number has passed the lookup of [handleSend]. *)
Definition awaiting (st : Client) (send attempt : nat) (c : SendClosure) (h : nat) : Prop :=
  timers st = [mkTimer h send attempt (nth attempt pollDelays 0)]
  /\ fetching st = []
  /\ closures st !! send = Some c
  /\ s_messageFound c = false
  /\ inheritedMember (s_phoneNumber c) st = false.

(** The fetch brought no entry with the send's correlation key. *)
Definition noMatch (correlationId : string) (fetched : Outcome (list Message)) : Prop :=
  match fetched with
  | Resolved data => findPersisted correlationId data = None
  | Rejected _ => True
  end.

(** The actions that count as a poll attempt and as a refresh. *)
Definition isFetch (a : Action) : bool :=
  match a with
  | AFetch _ _ => true
  | _ => false
  end.

Definition isRefresh (a : Action) : bool :=
  match a with
  | ARefresh _ => true
  | _ => false
  end.

(** How many fetches were issued and how many refreshes were called. *)
Definition fetches (tr : list Action) : nat := length (List.filter isFetch tr).
Definition refreshes (tr : list Action) : nat := length (List.filter isRefresh tr).

Definition isResolved {A : Type} (o : Outcome A) : bool :=
  match o with
  | Resolved _ => true
  | Rejected _ => false
  end.

(** The first three fetches return without the message and the fourth
    fails. *)
Definition lastFetchFails : list (Outcome (list Message)) :=
  [Resolved []; Resolved []; Resolved []; Rejected "Network Error"].

From Stdlib Require Import Sorted.

(** ** More of the client *)

Module MessagingInterface.

(** *** The conversation list *)

Section Conversations.
(** [seen] is a plain object: a lookup also finds what every object
    inherits from [Object.prototype], and all of that is truthy.
    [inherited] tells the inherited property names. *)
Variable inherited : string -> bool.

(** [seen[num]] as a condition. *)
Definition seenHas (seen : gset string) (num : string) : bool :=
  inherited num || bool_decide (num ∈ seen).

(** One round of the [forEach]: the pair is ([seen], [merged]). *)
Definition visit (acc : gset string * list string) (num : string)
  : gset string * list string :=
  if seenHas (fst acc) num then acc
  else ({[num]} ∪ fst acc, snd acc ++ [num]).

(** The updater passed to [setConversations] by [loadConversations]. *)
Definition mergeConversations (prev phoneNumbers : list string) : list string :=
  snd (fold_left visit (prev ++ phoneNumbers) (∅, [])).
End Conversations.

(** [conversations.includes(phoneNumber)]. *)
Definition includes (conversations : list string) (phoneNumber : string) : bool :=
  existsb (String.eqb phoneNumber) conversations.

(** [handleNewConversation]: the conversations, the messages and the
    selected phone number afterwards. *)
Definition handleNewConversation (phoneNumber : string) (conversations : list string)
           (msgs : gmap string (list Message))
  : list string * gmap string (list Message) * string :=
  if negb (includes conversations phoneNumber)
  then (conversations ++ [phoneNumber], <[phoneNumber := []]> msgs, phoneNumber)
  else (conversations, msgs, phoneNumber).

(** *** Unmounting *)

(** The cleanup returned by the first effect:
    [Object.values(retryTimersRef.current).forEach(timers =>
       timers.forEach(timer => clearTimeout(timer)))];
    the timer queue it leaves. *)
Definition cleanup (st : Client) : list Timer :=
  fold_left (fun queue entry => fold_left (fun q h => clearTimeout h q) (snd entry) queue)
            (map_to_list (retryTimersRef st)) (timers st).

End MessagingInterface.

Module Api.

(** [interface Profile] of api.ts. *)
Record Profile : Type := mkProfile {
  p_phoneNumber : string;
  p_name : string;
  p_avatar : string;
  p_createdAt : string;
  p_updatedAt : string
}.

(** [interface BlockStatus]. *)
Record BlockStatus : Type := mkBlockStatus {
  b_userId : option string;
  b_phoneNumber : option string;
  b_isBlocked : bool;
  b_status : option string;
  b_message : option string
}.

(** [error.response?.data?.message || error.message || fallback]. *)
Definition errorMessageOf {A : Type} (failed : AxiosResult A) (fallback : string) : string :=
  match failed with
  | AxiosResponse _ => fallback
  | AxiosHttpError message _ data => orElse (data_message data) (orElse (Some message) fallback)
  | AxiosNoResponse message => orElse (Some message) fallback
  end.

Section StoreApiClient.
Variable STORE_API_BASE : string.

(** [storeApiClient.getConversations]. *)
Definition getConversations (got : AxiosResult (option (list string)))
  : Outcome (list string) :=
  match got with
  | AxiosResponse data => Resolved (default [] data)
  | AxiosNoResponse _ =>
      Rejected ("Network Error: Unable to connect to SMS Store service at " +:+ STORE_API_BASE
                +:+ ". Please ensure the Go service is running on port 8082.")
  | AxiosHttpError _ _ _ => Resolved []
  end.

(** [storeApiClient.getAllMessages]. *)
Definition getAllMessages (nowIso : string) (got : AxiosResult (option (list Message)))
  : Outcome (list Message) :=
  match got with
  | AxiosResponse data =>
      Resolved (List.map
                  (fun msg => mkMessage (m_id msg) (m_correlationId msg) (m_phoneNumber msg)
                                (m_text msg) (m_status msg)
                                (orElse (Some (m_createdAt msg)) nowIso))
                  (default [] data))
  | AxiosHttpError _ status _ => if status =? 404 then Resolved [] else Resolved []
  | AxiosNoResponse _ => Resolved []
  end.
End StoreApiClient.

(** [storeApiClient.getProfile]. *)
Definition getProfile (got : AxiosResult Profile) : Outcome Profile :=
  match got with
  | AxiosResponse data => Resolved data
  | AxiosHttpError _ status _ =>
      if status =? 404 then Rejected "Profile not found"
      else Rejected (errorMessageOf got "Failed to get profile")
  | AxiosNoResponse _ => Rejected (errorMessageOf got "Failed to get profile")
  end.

(** [storeApiClient.createProfile]. *)
Definition createProfile (got : AxiosResult Profile) : Outcome Profile :=
  match got with
  | AxiosResponse data => Resolved data
  | AxiosHttpError _ status _ =>
      if status =? 409 then Rejected "Profile already exists"
      else Rejected (errorMessageOf got "Failed to create profile")
  | AxiosNoResponse _ => Rejected (errorMessageOf got "Failed to create profile")
  end.

(** [smsApiClient.checkBlockStatus]. *)
Definition checkBlockStatus (phoneNumber : string) (got : AxiosResult BlockStatus)
  : Outcome BlockStatus :=
  match got with
  | AxiosResponse data => Resolved data
  | AxiosHttpError _ status _ =>
      if status =? 404
      then Resolved (mkBlockStatus None (Some phoneNumber) false None None)
      else Rejected (errorMessageOf got "Failed to check block status")
  | AxiosNoResponse _ => Rejected (errorMessageOf got "Failed to check block status")
  end.

End Api.

Module ConversationList.

Section LastMessage.
Variable getTime : string -> option Z.

(** The comparator [new Date(b.createdAt).getTime() - new Date(a.createdAt).getTime()]. *)
Definition newestFirst (a b : Message) : Z :=
  match getTime (m_createdAt b), getTime (m_createdAt a) with
  | Some x, Some y => x - y
  | _, _ => 0
  end.

Definition getLastMessage (phoneNumber : string) (msgs : gmap string (list Message))
  : option Message :=
  let conversationMessages := default [] (msgs !! phoneNumber) in
  match conversationMessages with
  | [] => None
  | _ => head (sortBy newestFirst conversationMessages)
  end.

(** A string is taken as its sequence of code units. *)
Definition getLastMessagePreview (phoneNumber : string) (msgs : gmap string (list Message))
  : string :=
  match getLastMessage phoneNumber msgs with
  | None => "No messages yet"
  | Some lastMessage =>
      if (40 <? String.length (m_text lastMessage))%nat
      then substring 0 40 (m_text lastMessage) +:+ "..."
      else m_text lastMessage
  end.
End LastMessage.

End ConversationList.

Module NewConversationDialog.

(** The typed phone number is held in UTF-8.  These are the encodings of
    the characters that [\s] matches and [trim] removes: tab, line feed,
    vertical tab, form feed, carriage return, space, U+00A0, U+1680,
    U+2000 to U+200A, U+2028, U+2029, U+202F, U+205F, U+3000 and U+FEFF. *)
Definition whiteSpace : list (list ascii) :=
  List.map (List.map ascii_of_nat)
    [ [9]; [10]; [11]; [12]; [13]; [32];
      [194; 160]; [225; 154; 128];
      [226; 128; 128]; [226; 128; 129]; [226; 128; 130]; [226; 128; 131];
      [226; 128; 132]; [226; 128; 133]; [226; 128; 134]; [226; 128; 135];
      [226; 128; 136]; [226; 128; 137]; [226; 128; 138];
      [226; 128; 168]; [226; 128; 169]; [226; 128; 175];
      [226; 129; 159]; [227; 128; 128]; [239; 187; 191] ]%nat.

(** The class [[\s\-\(\)]]. *)
Definition separators : list (list ascii) :=
  whiteSpace ++ [ ["-"%char]; ["("%char]; [")"%char] ].

(** [s.replace(/[\s\-\(\)]/g, '')]. *)
Fixpoint removeSeparators (fuel : nat) (s : list ascii) : list ascii :=
  match fuel, s with
  | S fuel', c :: rest =>
      match strings.dropSpace separators s with
      | Some s' => removeSeparators fuel' s'
      | None => c :: removeSeparators fuel' rest
      end
  | _, _ => []
  end.

Definition clean (phone : string) : string :=
  strings.ofBytes (removeSeparators (String.length phone) (strings.bytes phone)).

(** [String.prototype.trim]. *)
Definition trim (s : string) : string :=
  let front := strings.dropSpaces (String.length s) whiteSpace (strings.bytes s) in
  strings.ofBytes
    (rev (strings.dropSpaces (length front) (List.map (@rev ascii) whiteSpace) (rev front))).

Definition isDigit (c : ascii) : bool :=
  (48 <=? nat_of_ascii c)%nat && (nat_of_ascii c <=? 57)%nat.

(** [/^[\d]+$/] and [/^\+?[\d]+$/]. *)
Definition digits (l : list ascii) : bool :=
  match l with
  | [] => false
  | _ => forallb isDigit l
  end.

Definition plusDigits (l : list ascii) : bool :=
  match l with
  | "+"%char :: rest => digits rest
  | _ => digits l
  end.

Definition validatePhoneNumber (phone : string) : bool :=
  let cleaned := clean phone in
  (10 <=? String.length cleaned)%nat && plusDigits (strings.bytes cleaned).

Inductive Submission : Type :=
| onStartConversation (normalizedPhone : string)
| setError (error : string).

Definition handleSubmit (phoneNumber : string) : Submission :=
  let trimmedPhone := trim phoneNumber in
  if negb (truthy trimmedPhone) then setError "Phone number is required"
  else if negb (validatePhoneNumber trimmedPhone)
       then setError "Please enter a valid phone number (at least 10 digits)"
       else onStartConversation (clean trimmedPhone).

End NewConversationDialog.

Module ProfileDialog.
Import Api.

(** The state that [loadProfile] writes. *)
Record Dialog : Type := mkDialog {
  profile : option Profile;
  name : string;
  avatar : string;
  loading : bool;
  error : option string;
  isEditing : bool
}.

(** [err.message?.includes('not found')]. *)
Definition includesNotFound (message : string) : bool :=
  strings.Contains message "not found".

(** [loadProfile], given how [storeApiClient.getProfile] settled. *)
Definition loadProfile (got : Outcome Profile) (d : Dialog) : Dialog :=
  match got with
  | Resolved data =>
      mkDialog (Some data) (orElse (Some (p_name data)) "") (orElse (Some (p_avatar data)) "")
               false None false
  | Rejected message =>
      if includesNotFound message
      then mkDialog None "" "" false None true
      else mkDialog (profile d) (name d) (avatar d) false
                    (Some (orElse (Some message) "Failed to load profile")) (isEditing d)
  end.

(** The [onChange] handlers of the two inputs. *)
Definition setName (value : string) (d : Dialog) : Dialog :=
  mkDialog (profile d) value (avatar d) (loading d) (error d) (isEditing d).

Definition setAvatar (value : string) (d : Dialog) : Dialog :=
  mkDialog (profile d) (name d) value (loading d) (error d) (isEditing d).

(** What [handleSave] does first: it refuses a blank name, or sends one
    request to the store service. *)
Inductive Save : Type :=
| nameRequired
| updateProfileCall (phoneNumber name avatar : string)
| createProfileCall (phoneNumber name avatar : string).

Definition handleSave (phoneNumber : string) (d : Dialog) : Save :=
  if negb (truthy (NewConversationDialog.trim (name d))) then nameRequired
  else
    match profile d with
    | Some _ =>
        updateProfileCall phoneNumber (NewConversationDialog.trim (name d))
                          (NewConversationDialog.trim (avatar d))
    | None =>
        createProfileCall phoneNumber (NewConversationDialog.trim (name d))
                          (NewConversationDialog.trim (avatar d))
    end.

End ProfileDialog.

(** ** More of the store service *)

Module profile_store.
Import store.

(** [models.Profile]; the two times are Unix nanoseconds. *)
Record Profile : Type := mkProfile {
  PhoneNumber : string;
  Name : string;
  Avatar : string;
  CreatedAt : Z;
  UpdatedAt : Z
}.

(** [models.Profile{}]: empty strings and the zero [time.Time]
    (January 1, year 1, 00:00 UTC). *)
Definition zeroTime : Z := -62135596800000000000.
Definition zeroProfile : Profile := mkProfile "" "" "" zeroTime zeroTime.

(** What a driver call can fail with, as far as the code tells the cases
    apart, and the text of [err.Error()]. *)
Inductive mongoError : Type :=
| ErrNoDocuments
| DuplicateKeyError (text : string)
| OtherError (text : string).

Definition Error (e : mongoError) : string :=
  match e with
  | ErrNoDocuments => "mongo: no documents in result"
  | DuplicateKeyError text => text
  | OtherError text => text
  end.

Definition IsDuplicateKeyError (e : mongoError) : bool :=
  match e with
  | DuplicateKeyError _ => true
  | _ => false
  end.

(** A store method is a sequence of calls on the collection; every call is
    filtered by [phoneNumber]. *)
Inductive Db (A : Type) : Type :=
| ret (a : A)
| FindOne (phoneNumber : string) (k : Profile + mongoError -> Db A)
| FindOneAndUpdate (phoneNumber name avatar : string) (updatedAt : Z)
                   (k : Profile + mongoError -> Db A)
| InsertOne (document : Profile) (k : option mongoError -> Db A).
Arguments ret {A} a.
Arguments FindOne {A} phoneNumber k.
Arguments FindOneAndUpdate {A} phoneNumber name avatar updatedAt k.
Arguments InsertOne {A} document k.

Definition GetProfile (phoneNumber : string) : Db (Profile * error) :=
  FindOne phoneNumber (fun found =>
    match found with
    | inl profile => ret (profile, None)
    | inr ErrNoDocuments =>
        ret (zeroProfile, Some ("profile not found for phone number: " +:+ phoneNumber))
    | inr err => ret (zeroProfile, Some ("failed to get profile: " +:+ Error err))
    end).

(** [now] is the reading of [time.Now()]. *)
Definition UpdateProfile (now : Z) (phoneNumber : string) (profile : Profile)
  : Db (Profile * error) :=
  let profile := mkProfile phoneNumber (Name profile) (Avatar profile)
                           (CreatedAt profile) now in
  FindOne phoneNumber (fun found =>
    match found with
    | inr ErrNoDocuments =>
        ret (zeroProfile, Some ("profile not found for phone number: " +:+ phoneNumber))
    | inr err => ret (zeroProfile, Some ("failed to check existing profile: " +:+ Error err))
    | inl existingProfile =>
        let profile := mkProfile (PhoneNumber profile) (Name profile) (Avatar profile)
                                 (CreatedAt existingProfile) (UpdatedAt profile) in
        FindOneAndUpdate phoneNumber (Name profile) (Avatar profile) (UpdatedAt profile)
          (fun updated =>
             match updated with
             | inr err => ret (zeroProfile, Some ("failed to update profile: " +:+ Error err))
             | inl updatedProfile => ret (updatedProfile, None)
             end)
    end).

Definition CreateProfile (now : Z) (profile : Profile) : Db (Profile * error) :=
  if String.eqb (PhoneNumber profile) ""
  then ret (zeroProfile, Some "phoneNumber is required")
  else
    FindOne (PhoneNumber profile) (fun found =>
      match found with
      | inl _ =>
          ret (zeroProfile,
               Some ("profile already exists for phone number: " +:+ PhoneNumber profile))
      | inr ErrNoDocuments =>
          let profile := mkProfile (PhoneNumber profile) (Name profile) (Avatar profile)
                                   now now in
          InsertOne profile (fun failed =>
            match failed with
            | Some err =>
                if IsDuplicateKeyError err
                then ret (zeroProfile,
                          Some ("profile already exists for phone number: "
                                +:+ PhoneNumber profile))
                else ret (zeroProfile, Some ("failed to create profile: " +:+ Error err))
            | None => ret (profile, None)
            end)
      | inr err => ret (zeroProfile, Some ("failed to check existing profile: " +:+ Error err))
      end).

(** What the collection answers to each kind of call. *)
Record Collection : Type := mkCollection {
  findOne : string -> Profile + mongoError;
  findOneAndUpdate : string -> string -> string -> Z -> Profile + mongoError;
  insertOne : Profile -> option mongoError
}.

Inductive DbCall : Type :=
| FindOneCall (phoneNumber : string)
| FindOneAndUpdateCall (phoneNumber name avatar : string) (updatedAt : Z)
| InsertOneCall (document : Profile).

(** Running a store method: its result and the calls made, in order. *)
Fixpoint run {A : Type} (c : Collection) (p : Db A) : A * list DbCall :=
  match p with
  | ret a => (a, [])
  | FindOne phone k =>
      let (a, calls) := run c (k (findOne c phone)) in
      (a, FindOneCall phone :: calls)
  | FindOneAndUpdate phone n av t k =>
      let (a, calls) := run c (k (findOneAndUpdate c phone n av t)) in
      (a, FindOneAndUpdateCall phone n av t :: calls)
  | InsertOne doc k =>
      let (a, calls) := run c (k (insertOne c doc)) in
      (a, InsertOneCall doc :: calls)
  end.

End profile_store.

Module profile_handlers.
Import strings store profile_store.

Inductive Payload : Type :=
| errorResponse (Code Message : string)
| profileJSON (profile : Profile).

Record Response : Type := mkResponse {
  statusCode : Z;
  payload : Payload
}.

Definition StatusOK : Z := 200.
Definition StatusCreated : Z := 201.
Definition StatusBadRequest : Z := 400.
Definition StatusNotFound : Z := 404.
Definition StatusConflict : Z := 409.
Definition StatusInternalServerError : Z := 500.

(** A profile handler writes its response or calls a method of the
    [ProfileStore] interface and goes on with what it returned. *)
Inductive Handler : Type :=
| write (r : Response)
| callGetProfile (phoneNumber : string) (k : Profile * error -> Handler)
| callUpdateProfile (phoneNumber : string) (profile : Profile) (k : Profile * error -> Handler)
| callCreateProfile (profile : Profile) (k : Profile * error -> Handler).

Definition writeJSON (status : Z) (p : Payload) : Handler := write (mkResponse status p).

Definition writeError (status : Z) (code message : string) : Handler :=
  writeJSON status (errorResponse code message).

(** [GET /v1/profile/{phoneNumber}]. *)
Definition GetProfile (path : string) : Handler :=
  let prefix := "/v1/profile/" in
  if negb (HasPrefix path prefix)
  then writeError StatusBadRequest "BAD_REQUEST" "invalid URL path"
  else
    let phoneNumber := TrimSpace (TrimPrefix path prefix) in
    if String.eqb phoneNumber "" || Contains phoneNumber "/"
    then writeError StatusBadRequest "BAD_REQUEST" "invalid phoneNumber"
    else
      callGetProfile phoneNumber (fun '(profile, err) =>
        match err with
        | Some text =>
            if Contains text "not found"
            then writeError StatusNotFound "NOT_FOUND" text
            else writeError StatusInternalServerError "INTERNAL" "could not retrieve profile"
        | None => writeJSON StatusOK (profileJSON profile)
        end).

(** [PUT /v1/profile/{phoneNumber}]; [body] is what the JSON decoder gave,
    [None] when it failed. *)
Definition UpdateProfile (path : string) (body : option Profile) : Handler :=
  let prefix := "/v1/profile/" in
  if negb (HasPrefix path prefix)
  then writeError StatusBadRequest "BAD_REQUEST" "invalid URL path"
  else
    let phoneNumber := TrimSpace (TrimPrefix path prefix) in
    if String.eqb phoneNumber "" || Contains phoneNumber "/"
    then writeError StatusBadRequest "BAD_REQUEST" "invalid phoneNumber"
    else
      match body with
      | None => writeError StatusBadRequest "BAD_REQUEST" "invalid JSON body"
      | Some req =>
          let req := mkProfile (PhoneNumber req) (TrimSpace (Name req))
                               (TrimSpace (Avatar req)) (CreatedAt req) (UpdatedAt req) in
          callUpdateProfile phoneNumber req (fun '(updated, err) =>
            match err with
            | Some text =>
                if Contains text "not found"
                then writeError StatusNotFound "NOT_FOUND" text
                else writeError StatusInternalServerError "INTERNAL" "could not update profile"
            | None => writeJSON StatusOK (profileJSON updated)
            end)
      end.

(** [POST /v1/profile]. *)
Definition CreateProfile (body : option Profile) : Handler :=
  match body with
  | None => writeError StatusBadRequest "BAD_REQUEST" "invalid JSON body"
  | Some req =>
      let req := mkProfile (TrimSpace (PhoneNumber req)) (TrimSpace (Name req))
                           (TrimSpace (Avatar req)) (CreatedAt req) (UpdatedAt req) in
      if String.eqb (PhoneNumber req) ""
      then writeError StatusBadRequest "BAD_REQUEST" "phoneNumber is required"
      else if Contains (PhoneNumber req) "/"
      then writeError StatusBadRequest "BAD_REQUEST" "invalid phoneNumber"
      else
        callCreateProfile req (fun '(created, err) =>
          match err with
          | Some text =>
              if Contains text "already exists"
              then writeError StatusConflict "CONFLICT" text
              else writeError StatusInternalServerError "INTERNAL" "could not create profile"
          | None => writeJSON StatusCreated (profileJSON created)
          end)
  end.

(** Serving a request with the [MongoProfileStore]: the response and the
    calls made on the collection.  [now] is the clock reading of the store
    method. *)
Fixpoint serve (c : Collection) (now : Z) (h : Handler) : Response * list DbCall :=
  match h with
  | write r => (r, [])
  | callGetProfile phone k =>
      let (res, calls) := run c (profile_store.GetProfile phone) in
      let (r, calls') := serve c now (k res) in
      (r, calls ++ calls')
  | callUpdateProfile phone req k =>
      let (res, calls) := run c (profile_store.UpdateProfile now phone req) in
      let (r, calls') := serve c now (k res) in
      (r, calls ++ calls')
  | callCreateProfile req k =>
      let (res, calls) := run c (profile_store.CreateProfile now req) in
      let (r, calls') := serve c now (k res) in
      (r, calls ++ calls')
  end.

End profile_handlers.

Module httpapi_memory.
Import strings store.

(** The handlers of the revision of handlers.go that holds a
    [*store.MemoryStore]. *)

Record createMessageRequest : Type := mkCreateMessageRequest {
  UserID : string;
  PhoneNumber : string;
  Text : string
}.

Inductive Payload : Type :=
| errorResponse (Code Message : string)
| statusUp
| savedMessage (msg : models.Message)
| messageList (msgs : list models.Message).

Record Response : Type := mkResponse {
  statusCode : Z;
  payload : Payload
}.

Definition writeJSON (status : Z) (p : Payload) : Response := mkResponse status p.

Definition writeError (status : Z) (code message : string) : Response :=
  writeJSON status (errorResponse code message).

Definition Ping : Response := writeJSON 200 statusUp.

(** [body] is what the JSON decoder gave ([None] when it failed);
    [stamp] is [time.Now().Format("20060102150405.000000000")] and
    [createdAt] the second reading of [time.Now()]. *)
Definition CreateMessage (body : option createMessageRequest) (stamp : string)
           (createdAt : Z) (s : MemoryStore) : MemoryStore * Response :=
  match body with
  | None => (s, writeError 400 "BAD_REQUEST" "invalid JSON body")
  | Some req =>
      let req := mkCreateMessageRequest (TrimSpace (UserID req)) (TrimSpace (PhoneNumber req))
                                        (TrimSpace (Text req)) in
      if String.eqb (UserID req) ""
      then (s, writeError 400 "BAD_REQUEST" "userId is required")
      else if String.eqb (PhoneNumber req) ""
      then (s, writeError 400 "BAD_REQUEST" "phoneNumber is required")
      else if String.eqb (Text req) ""
      then (s, writeError 400 "BAD_REQUEST" "text is required")
      else
        let msg := models.mkMessage ("msg-" +:+ stamp) (UserID req) (PhoneNumber req)
                                    (Text req) "RECEIVED" createdAt in
        let '(s', (saved, err)) := Save msg s in
        match err with
        | Some _ => (s', writeError 500 "INTERNAL" "could not save message")
        | None => (s', writeJSON 201 (savedMessage saved))
        end
  end.

Definition ListMessages (s : MemoryStore) : Response :=
  let '(msgs, err) := List s in
  match err with
  | Some _ => writeError 500 "INTERNAL" "could not list messages"
  | None => writeJSON 200 (messageList msgs)
  end.

End httpapi_memory.

Module main.
Import strings.

(** What a registered route does with a request: hand it to a handler, or
    answer by itself with a status and a plain body. *)
Inductive Served : Type :=
| handler (h : httpapi.Handler)
| plain (status : Z) (body : string).

Definition newline : string := String (ascii_of_nat 10) EmptyString.

(** [http.NotFound] and [http.Error(w, "method not allowed", 405)]. *)
Definition NotFound : Served := plain 404 ("404 page not found" +:+ newline).
Definition methodNotAllowed : Served := plain 405 ("method not allowed" +:+ newline).

(** [corsMiddleware]: a preflight request is answered 200 at once. *)
Definition corsMiddleware (next : string -> string -> Served) (method path : string)
  : Served :=
  if String.eqb method "OPTIONS" then plain 200 "" else next method path.

(** The function registered for ["/v1/conversations"]. *)
Definition conversations : string -> string -> Served :=
  corsMiddleware (fun method path =>
    if negb (String.eqb method "GET") then methodNotAllowed
    else handler httpapi.GetConversations).

(** The function registered for ["/v1/user/"]. *)
Definition user : string -> string -> Served :=
  corsMiddleware (fun method path =>
    if negb (HasSuffix path "/messages") then NotFound
    else if String.eqb method "GET" then handler (httpapi.GetUserMessages path)
    else if String.eqb method "DELETE" then handler (httpapi.DeleteUserMessages path)
    else methodNotAllowed).

End main.

(** ** Vocabulary of the further properties *)

(** The time of a message whose date parses. *)
Definition timeOf (getTime : string -> option Z) (m : Message) : Z :=
  default 0 (getTime (m_createdAt m)).

Definition parses (getTime : string -> option Z) (m : Message) : Prop :=
  getTime (m_createdAt m) <> None.

(** Not older than: ascending order of the message times. *)
Definition notAfter (getTime : string -> option Z) (a b : Message) : Prop :=
  timeOf getTime a <= timeOf getTime b.

(** A conversation whose persisted messages arrive out of order. *)
Definition persistedSecond : Message :=
  mkMessage "msg-2" (Some "r9") "+15551234567" "later" "SUCCESS" "2024-01-01T00:00:01.000Z".

(** The keys and the order of a list are those of another one. *)
Definition sameShape (l l' : list Message) : Prop :=
  List.map (fun m => (m_id m, m_correlationId m, m_phoneNumber m, m_text m, m_createdAt m)) l
  = List.map (fun m => (m_id m, m_correlationId m, m_phoneNumber m, m_text m, m_createdAt m)) l'.

(** What the loop of [loadConversations] keeps true of ([seen], [merged]). *)
Definition tidy (inherited : string -> bool) (acc : gset string * list string) : Prop :=
  List.NoDup (snd acc)
  /\ (forall x, x ∈ fst acc <-> In x (snd acc))
  /\ (forall x, In x (snd acc) -> inherited x = false).

(** The pending timers, the fetches in flight and the fetches issued so
    far of one send. *)
Definition timersOfSend (send : nat) (st : Client) : list Timer :=
  List.filter (fun t => Nat.eqb (t_send t) send) (timers st).

Definition callsOfSend (send : nat) (st : Client) : list (nat * nat) :=
  List.filter (fun call => Nat.eqb (fst call) send) (fetching st).

Definition isFetchOf (send : nat) (a : Action) : bool :=
  match a with
  | AFetch send' _ => Nat.eqb send' send
  | _ => false
  end.

Definition fetchesOf (send : nat) (tr : list Action) : nat :=
  length (List.filter (isFetchOf send) tr).

(** Where the poll chain of a send stands, given its pending timers [ts],
    its fetches in flight [cs] and the number [n] of fetches it has issued:
    idle, waiting for its next attempt, or fetching. *)
Definition chainOK (ts : list Timer) (cs : list (nat * nat)) (n : nat) : Prop :=
  (ts = [] /\ cs = [] /\ (n <= 4)%nat)
  \/ (exists t, ts = [t] /\ cs = [] /\ (t_attempt t <= 3)%nat /\ n = t_attempt t)
  \/ (exists call, ts = [] /\ cs = [call] /\ (snd call <= 3)%nat /\ n = S (snd call)).

Definition chains (st : Client) : Prop :=
  forall send,
    chainOK (timersOfSend send st) (callsOfSend send st) (fetchesOf send (trace st))
    /\ ((length (closures st) <= send)%nat ->
        timersOfSend send st = [] /\ callsOfSend send st = []
        /\ fetchesOf send (trace st) = 0%nat).

(** Two sends to one number, the second while the first is fetching, and
    the first one's fetch then fails. *)
Definition busyClient : list Event :=
  [ EvSend "9876543210" "hi" firstSend "2024-01-01T00:00:00.000Z";
    EvFire 0;
    EvSend "9876543210" "yo" secondSend "2024-01-01T00:00:00.350Z";
    EvSettle 0 0 (Rejected "Network Error") ].

(** *** Paths and phone numbers *)

(** The request paths of the per-recipient and of the profile route for a
    phone number, as a handler reads them from [r.URL.Path], which the
    server has decoded by then.  They are what the templates of api.ts,
    [/v1/user/${phoneNumber}/messages] and [/v1/profile/${phoneNumber}],
    give for a phone number that needs no escaping in a URL, such as one
    made of a plus sign and digits. *)
Definition userMessagesPath (phoneNumber : string) : string :=
  "/v1/user/" +:+ phoneNumber +:+ "/messages".

Definition profilePath (phoneNumber : string) : string :=
  "/v1/profile/" +:+ phoneNumber.

(** A byte of a normalised phone number: [+] or a decimal digit. *)
Definition plainByte (c : ascii) : bool :=
  Ascii.eqb c "+" || NewConversationDialog.isDigit c.

(** *** Profiles *)

(** A collection without documents, and one that holds the profile of one
    phone number; an update returns the document after the change. *)
Definition noProfiles : profile_store.Collection :=
  profile_store.mkCollection
    (fun _ => inr profile_store.ErrNoDocuments)
    (fun _ _ _ _ => inr profile_store.ErrNoDocuments)
    (fun _ => None).

Definition storedProfile : profile_store.Profile :=
  profile_store.mkProfile "+15551234567" "Asha" "" 1704067200000000000 1704067200000000000.

Definition oneProfile : profile_store.Collection :=
  profile_store.mkCollection
    (fun phone => if String.eqb phone "+15551234567" then inl storedProfile
                  else inr profile_store.ErrNoDocuments)
    (fun phone name avatar updatedAt =>
       if String.eqb phone "+15551234567"
       then inl (profile_store.mkProfile "+15551234567" name avatar
                   (profile_store.CreatedAt storedProfile) updatedAt)
       else inr profile_store.ErrNoDocuments)
    (fun _ => Some (profile_store.DuplicateKeyError "E11000 duplicate key error")).

(** A request to insert a document is among the calls made. *)
Definition inserts (document : profile_store.Profile) (calls : list profile_store.DbCall)
  : Prop :=
  In (profile_store.InsertOneCall document) calls.

(** * Properties *)

(** ** The insertion-ordered map and the sort *)

Section MapFacts.
Context {V : Type}.
Implicit Types (m : list (string * V)) (k : string) (v : V).

Lemma mapGet_mapSet k k' v m :
  mapGet k' (mapSet k v m) = if String.eqb k k' then Some v else mapGet k' m.
Proof.
  induction m as [|[k0 v0] m IH]; simpl.
  - reflexivity.
  - destruct (String.eqb_spec k0 k) as [->|Hne]; simpl.
    + destruct (String.eqb k k'); reflexivity.
    + rewrite IH. destruct (String.eqb_spec k0 k') as [->|Hne'].
      * destruct (String.eqb_spec k k'); [congruence | reflexivity].
      * reflexivity.
Qed.

Lemma mapHas_keys k m : mapHas k m = true <-> In k (List.map fst m).
Proof.
  unfold mapHas. rewrite existsb_exists, in_map_iff. split.
  - intros [kv [Hin Heq]]. apply String.eqb_eq in Heq. eauto.
  - intros [kv [Heq Hin]]. exists kv. split; [assumption|]. now apply String.eqb_eq.
Qed.

Lemma mapGet_keys k m : mapGet k m <> None <-> In k (List.map fst m).
Proof.
  induction m as [|[k0 v0] m IH]; simpl.
  - tauto.
  - destruct (String.eqb_spec k0 k) as [->|Hne].
    + split; [auto | discriminate].
    + rewrite IH. split; [auto | intros [?|?]; [contradiction | assumption]].
Qed.

Lemma mapSet_keys k v m :
  List.map fst (mapSet k v m) =
  if mapHas k m then List.map fst m else List.map fst m ++ [k].
Proof.
  induction m as [|[k0 v0] m IH]; simpl.
  - reflexivity.
  - unfold mapHas in *. simpl. destruct (String.eqb k0 k); simpl.
    + reflexivity.
    + rewrite IH. destruct (existsb _ m); reflexivity.
Qed.

Lemma mapSet_NoDup k v m :
  List.NoDup (List.map fst m) -> List.NoDup (List.map fst (mapSet k v m)).
Proof.
  intros Hnd. rewrite mapSet_keys. destruct (mapHas k m) eqn:Hhas.
  - assumption.
  - assert (Hnot : ~ In k (List.map fst m)).
    { rewrite <- mapHas_keys. congruence. }
    clear Hhas. induction (List.map fst m) as [|a l IH]; simpl.
    + constructor; [tauto | constructor].
    + apply NoDup_cons_iff in Hnd as [Ha Hl]. constructor.
      * rewrite in_app_iff. simpl. intros [?|[?|[]]]; [tauto|]. subst. apply Hnot. now left.
      * apply IH; [assumption|]. intros ?. apply Hnot. now right.
Qed.

Lemma mapGet_In k v m :
  List.NoDup (List.map fst m) -> In (k, v) m -> mapGet k m = Some v.
Proof.
  induction m as [|[k0 v0] m IH]; simpl; intros Hnd Hin.
  - contradiction.
  - apply NoDup_cons_iff in Hnd as [Hk0 Hnd]. destruct Hin as [Heq|Hin].
    + inversion Heq; subst. now rewrite String.eqb_refl.
    + destruct (String.eqb_spec k0 k) as [->|Hne].
      * exfalso. apply Hk0. apply in_map_iff. exists (k, v). auto.
      * auto.
Qed.

Lemma mapGet_Some_In k v m : mapGet k m = Some v -> In (k, v) m.
Proof.
  induction m as [|[k0 v0] m IH]; simpl; intros Hget.
  - discriminate.
  - destruct (String.eqb_spec k0 k) as [->|Hne].
    + inversion Hget. now left.
    + right. now apply IH.
Qed.
End MapFacts.

Section SortFacts.
Context {A : Type} (cmp : A -> A -> Z).

Lemma insertBy_perm x l : Permutation (insertBy cmp x l) (x :: l).
Proof.
  induction l as [|y l IH]; simpl.
  - reflexivity.
  - destruct (cmp x y <=? 0).
    + reflexivity.
    + rewrite IH. apply perm_swap.
Qed.

Lemma sortBy_perm l : Permutation (sortBy cmp l) l.
Proof.
  induction l as [|x l IH]; simpl.
  - reflexivity.
  - rewrite insertBy_perm. now constructor.
Qed.

Lemma sortBy_In x l : In x (sortBy cmp l) <-> In x l.
Proof.
  split; apply Permutation_in; [| symmetry]; apply sortBy_perm.
Qed.
End SortFacts.

(** ** C1: what the reconciliation merge shows *)

Section KeyFacts.

Lemma firstWithKey_app k l1 l2 :
  firstWithKey k (l1 ++ l2) =
  match firstWithKey k l1 with
  | Some m => Some m
  | None => firstWithKey k l2
  end.
Proof.
  unfold firstWithKey. induction l1 as [|a l1 IH]; simpl.
  - reflexivity.
  - destruct (String.eqb (keyOf a) k); [reflexivity | exact IH].
Qed.

Lemma firstWithKey_Some k l m : firstWithKey k l = Some m -> In m l /\ keyOf m = k.
Proof.
  intros H. apply find_some in H as [Hin Heq]. split; [assumption|].
  now apply String.eqb_eq.
Qed.

Lemma firstWithKey_keys k l : firstWithKey k l <> None <-> In k (keysOf l).
Proof.
  unfold firstWithKey, keysOf. induction l as [|a l IH]; simpl.
  - tauto.
  - destruct (String.eqb_spec (keyOf a) k) as [Heq|Hne].
    + split; [auto | discriminate].
    + rewrite IH. split; [auto | intros [?|?]; [contradiction | assumption]].
Qed.

Lemma lastWithKey_cons k a l :
  lastWithKey k (a :: l) =
  match lastWithKey k l with
  | Some m => Some m
  | None => if String.eqb (keyOf a) k then Some a else None
  end.
Proof.
  unfold lastWithKey. simpl. rewrite firstWithKey_app. reflexivity.
Qed.

Lemma lastWithKey_keys k l : lastWithKey k l <> None <-> In k (keysOf l).
Proof.
  unfold lastWithKey. rewrite firstWithKey_keys. unfold keysOf.
  rewrite map_rev, <- in_rev. reflexivity.
Qed.

Lemma addPersisted_get data : forall acc k,
  mapGet k (fold_left addPersisted data acc) =
  match lastWithKey k data with
  | Some p => Some p
  | None => mapGet k acc
  end.
Proof.
  induction data as [|a data IH]; intros acc k; simpl.
  - reflexivity.
  - rewrite IH, lastWithKey_cons. destruct (lastWithKey k data); [reflexivity|].
    unfold addPersisted. rewrite mapGet_mapSet.
    now destruct (String.eqb (keyOf a) k).
Qed.

Lemma addPersisted_NoDup data : forall acc,
  List.NoDup (List.map fst acc) ->
  List.NoDup (List.map fst (fold_left addPersisted data acc)).
Proof.
  induction data as [|a data IH]; intros acc Hnd; simpl.
  - assumption.
  - apply IH. now apply mapSet_NoDup.
Qed.

Lemma mapHas_mapGet (acc : list (string * Message)) k :
  mapHas k acc = match mapGet k acc with Some _ => true | None => false end.
Proof.
  destruct (mapHas k acc) eqn:Hhas.
  - apply mapHas_keys, mapGet_keys in Hhas. now destruct (mapGet k acc).
  - destruct (mapGet k acc) eqn:Hget; [|reflexivity].
    assert (Hk : mapGet k acc <> None) by congruence.
    apply mapGet_keys, mapHas_keys in Hk. congruence.
Qed.

Lemma addOptimistic_get opt : forall acc k,
  mapGet k (fold_left addOptimistic opt acc) =
  match mapGet k acc with
  | Some v => Some v
  | None => firstWithKey k opt
  end.
Proof.
  induction opt as [|a opt IH]; intros acc k; simpl.
  - now destruct (mapGet k acc).
  - rewrite IH. unfold addOptimistic. rewrite mapHas_mapGet.
    destruct (mapGet (keyOf a) acc) eqn:Ha.
    + destruct (mapGet k acc) eqn:Hk; [reflexivity|].
      destruct (String.eqb_spec (keyOf a) k) as [Heq|Hne]; [congruence | reflexivity].
    + rewrite mapGet_mapSet.
      destruct (String.eqb_spec (keyOf a) k) as [Heq|Hne].
      * subst k. now rewrite Ha.
      * reflexivity.
Qed.

Lemma addOptimistic_NoDup opt : forall acc,
  List.NoDup (List.map fst acc) ->
  List.NoDup (List.map fst (fold_left addOptimistic opt acc)).
Proof.
  induction opt as [|a opt IH]; intros acc Hnd; simpl.
  - assumption.
  - apply IH. unfold addOptimistic. destruct (mapHas (keyOf a) acc).
    + assumption.
    + now apply mapSet_NoDup.
Qed.

Lemma mergedMap_NoDup data opt : List.NoDup (List.map fst (mergedMap data opt)).
Proof.
  unfold mergedMap. apply addOptimistic_NoDup, addPersisted_NoDup. constructor.
Qed.

Lemma mergedMap_get data opt k :
  mapGet k (mergedMap data opt) =
  match lastWithKey k data with
  | Some p => Some p
  | None => firstWithKey k opt
  end.
Proof.
  unfold mergedMap. rewrite addOptimistic_get, addPersisted_get. simpl.
  now destruct (lastWithKey k data).
Qed.

Lemma mergedMap_entry data opt k v :
  In (k, v) (mergedMap data opt) ->
  keyOf v = k /\
  (lastWithKey k data = Some v \/ (lastWithKey k data = None /\ firstWithKey k opt = Some v)).
Proof.
  intros Hin. apply mapGet_In in Hin; [|apply mergedMap_NoDup].
  rewrite mergedMap_get in Hin. destruct (lastWithKey k data) as [p|] eqn:Hlast.
  - inversion Hin; subst. split; [|now left].
    now apply firstWithKey_Some in Hlast.
  - split; [|now right]. now apply firstWithKey_Some in Hin.
Qed.

Lemma mergedMap_keysOf data opt :
  keysOf (mapValues (mergedMap data opt)) = List.map fst (mergedMap data opt).
Proof.
  unfold keysOf, mapValues. rewrite List.map_map. apply map_ext_in.
  intros [k v] Hin. simpl. now apply mergedMap_entry in Hin.
Qed.

End KeyFacts.

Section ReconcilerFacts.
Variable getTime : string -> option Z.

Lemma merged_keys_perm now data current :
  Permutation (keysOf (merged getTime now data current))
              (List.map fst (mergedMap data (optimisticMessages getTime now data current))).
Proof.
  unfold merged. rewrite <- mergedMap_keysOf. unfold keysOf.
  apply Permutation_map, sortBy_perm.
Qed.

Lemma merged_NoDup now data current :
  List.NoDup (keysOf (merged getTime now data current)).
Proof.
  eapply Permutation_NoDup; [symmetry; apply merged_keys_perm | apply mergedMap_NoDup].
Qed.

Lemma merged_keys now data current k :
  In k (keysOf (merged getTime now data current)) <->
  In k (keysOf data) \/ In k (keysOf (optimisticMessages getTime now data current)).
Proof.
  split.
  - intros Hin. eapply Permutation_in in Hin; [|apply merged_keys_perm].
    apply mapGet_keys in Hin. rewrite mergedMap_get in Hin.
    destruct (lastWithKey k data) eqn:Hlast.
    + left. apply lastWithKey_keys. congruence.
    + right. now apply firstWithKey_keys.
  - intros H. eapply Permutation_in; [symmetry; apply merged_keys_perm|].
    apply mapGet_keys. rewrite mergedMap_get.
    destruct (lastWithKey k data) eqn:Hlast; [discriminate|].
    destruct H as [H|H].
    + apply lastWithKey_keys in H. congruence.
    + now apply firstWithKey_keys.
Qed.

Lemma merged_entry now data current m :
  In m (merged getTime now data current) ->
  lastWithKey (keyOf m) data = Some m \/
  (lastWithKey (keyOf m) data = None /\
   firstWithKey (keyOf m) (optimisticMessages getTime now data current) = Some m).
Proof.
  unfold merged. rewrite sortBy_In. unfold mapValues. rewrite in_map_iff.
  intros [[k v] [Heq Hin]]. simpl in Heq. subst v.
  apply mergedMap_entry in Hin as [Hk H]. now rewrite Hk.
Qed.

Lemma reconciled_merged now data current :
  current <> [] -> reconciled getTime true now data current = merged getTime now data current.
Proof.
  intros Hne. unfold reconciled. destruct current; [congruence | reflexivity].
Qed.
End ReconcilerFacts.

(** An entry of the merged view whose key is persisted is the last
    persisted entry with that key. *)
Lemma merge_keys_persisted getTime now data current :
  current <> [] ->
  forall m, In m (reconciled getTime true now data current) ->
            In (keyOf m) (keysOf data) ->
            lastWithKey (keyOf m) data = Some m /\ In m data.
Proof.
  intros Hne m Hin Hkey. rewrite reconciled_merged in Hin by assumption.
  apply merged_entry in Hin as [Hlast|[Hnone _]].
  - split; [assumption|]. apply firstWithKey_Some in Hlast as [Hin _].
    now apply in_rev in Hin.
  - apply lastWithKey_keys in Hkey. congruence.
Qed.

(** C1, as stated, fails: an optimistic entry older than 2.5 s whose key is
    not persisted is dropped by the merge, so its key, which appears in an
    input list, has no entry in the output. *)
Lemma merge_drops_stale_key :
  ~ (oneEntryPerKey (reconciled IsoDate.getTime true threeSecondsLater [] [staleOptimistic])
                    [] [staleOptimistic]
     /\ persistedWins (reconciled IsoDate.getTime true threeSecondsLater [] [staleOptimistic])
                      []).
Proof.
  intros [Hone _]. specialize (Hone "r1"). vm_compute in Hone.
  assert (H : (0 = 1)%nat) by (apply Hone; right; left; reflexivity).
  discriminate H.
Qed.

(** C1, amended: with a non-empty local list, the merge output never has
    two entries with the same correlation key; its keys are those of the
    persisted list together with those of the local entries that survive
    the filter; and an output entry whose key is persisted is the persisted
    entry (the last one carrying that key). *)
Theorem merge_one_entry_per_surviving_key
        (getTime : string -> option Z) (now : Z) (data current : list Message) :
  current <> [] ->
  let out := reconciled getTime true now data current in
  List.NoDup (keysOf out)
  /\ (forall k, In k (keysOf out) <->
                In k (keysOf data)
                \/ In k (keysOf (optimisticMessages getTime now data current)))
  /\ (forall m, In m out -> In (keyOf m) (keysOf data) ->
                lastWithKey (keyOf m) data = Some m /\ In m data).
Proof.
  intros Hne out. subst out.
  split; [rewrite reconciled_merged by assumption; apply merged_NoDup|].
  split; [rewrite reconciled_merged by assumption; apply merged_keys|].
  now apply merge_keys_persisted.
Qed.

Lemma merge_one_entry_per_surviving_key_witness :
  [staleOptimistic; freshOptimistic] <> []
  /\ keysOf (reconciled IsoDate.getTime true threeSecondsLater [persistedFirst]
                        [staleOptimistic; freshOptimistic]) = ["r0"; "r2"]
  /\ List.NoDup (keysOf (reconciled IsoDate.getTime true threeSecondsLater [persistedFirst]
                                    [staleOptimistic; freshOptimistic])).
Proof.
  split; [discriminate|]. split; [vm_compute; reflexivity|].
  destruct (merge_one_entry_per_surviving_key IsoDate.getTime threeSecondsLater
              [persistedFirst] [staleOptimistic; freshOptimistic]) as [Hnodup _].
  - discriminate.
  - exact Hnodup.
Defined.

(** ** C5: stale optimistic entries *)

Section FilterFacts.
Variable getTime : string -> option Z.

Lemma persistedCorrelationIds_keys data k :
  k ∈ persistedCorrelationIds data -> In k (keysOf data).
Proof.
  unfold persistedCorrelationIds. rewrite elem_of_list_to_set, list_elem_of_In.
  intros Hin. now apply filter_In in Hin as [Hin _].
Qed.

Lemma persistedIds_ids data i : i ∈ persistedIds data -> In i (List.map m_id data).
Proof.
  unfold persistedIds. now rewrite elem_of_list_to_set, list_elem_of_In.
Qed.

Lemma keepOptimistic_unmatched now data m :
  ~ matched data m -> keepOptimistic getTime now data m = negb (tooOld getTime now m).
Proof.
  intros Hun. unfold keepOptimistic.
  destruct (bool_decide (keyOf m ∈ persistedCorrelationIds data)) eqn:Hkey.
  - apply bool_decide_eq_true in Hkey. apply persistedCorrelationIds_keys in Hkey.
    exfalso. apply Hun. now left.
  - rewrite andb_false_r.
    destruct (bool_decide (m_id m ∈ persistedIds data)) eqn:Hid.
    + apply bool_decide_eq_true in Hid. apply persistedIds_ids in Hid.
      exfalso. apply Hun. now right.
    + now destruct (tooOld getTime now m).
Qed.

Lemma merged_shows_survivor now data current m :
  In m (optimisticMessages getTime now data current) ->
  ~ In (keyOf m) (keysOf data) ->
  exists m', firstWithKey (keyOf m) (optimisticMessages getTime now data current) = Some m'
             /\ In m' (merged getTime now data current).
Proof.
  intros Hin Hkey.
  destruct (firstWithKey (keyOf m) (optimisticMessages getTime now data current))
    as [m'|] eqn:Hfirst.
  - exists m'. split; [reflexivity|].
    unfold merged. apply sortBy_In. unfold mapValues. apply in_map_iff.
    exists (keyOf m, m'). split; [reflexivity|].
    apply mapGet_Some_In. rewrite mergedMap_get.
    destruct (lastWithKey (keyOf m) data) eqn:Hlast; [|assumption].
    exfalso. apply Hkey. apply lastWithKey_keys. congruence.
  - exfalso. revert Hfirst. apply firstWithKey_keys. unfold keysOf.
    apply in_map_iff. eauto.
Qed.
End FilterFacts.

(** C5, as stated, fails in its second half: of two young local entries
    without a persisted counterpart that carry the same correlation key,
    the merge keeps the first and drops the second. *)
Lemma second_young_entry_of_a_key_dropped :
  ~ youngUnmatchedKept IsoDate.getTime threeSecondsLater [persistedFirst]
                       [freshOptimistic; repeatedOptimistic].
Proof.
  intros Hkept.
  assert (Hin : In repeatedOptimistic
                   (reconciled IsoDate.getTime true threeSecondsLater [persistedFirst]
                               [freshOptimistic; repeatedOptimistic])).
  { apply (Hkept repeatedOptimistic 1704067202500).
    - right. now left.
    - reflexivity.
    - intros [[H|[]]|[H|[]]]; vm_compute in H; discriminate H.
    - vm_compute. discriminate. }
  vm_compute in Hin. destruct Hin as [H|[H|[]]]; discriminate H.
Qed.

(** C5, amended: during reconciliation a local entry without a persisted
    counterpart is dropped from the merged view when its age exceeds
    2500 ms.  A younger one passes the filter, and the view shows its key
    with the first surviving local entry for that key: the entry itself is
    in the view exactly when it is that first one. *)
Theorem stale_optimistic_evicted
        (getTime : string -> option Z) (now : Z) (data current : list Message)
        (m : Message) (t : Z) :
  In m current ->
  getTime (m_createdAt m) = Some t ->
  ~ matched data m ->
  (2500 < now - t ->
     ~ In m (optimisticMessages getTime now data current)
     /\ ~ In m (reconciled getTime true now data current))
  /\ (now - t <= 2500 ->
        In m (optimisticMessages getTime now data current)
        /\ exists m',
             firstWithKey (keyOf m) (optimisticMessages getTime now data current) = Some m'
             /\ In m' (reconciled getTime true now data current)
             /\ (In m (reconciled getTime true now data current) <-> m' = m)).
Proof.
  intros Hin Ht Hun.
  assert (Hne : current <> []) by (intros ->; contradiction).
  rewrite reconciled_merged by assumption.
  pose proof (keepOptimistic_unmatched getTime now data m Hun) as Hkeep.
  unfold tooOld in Hkeep. rewrite Ht in Hkeep.
  assert (Hkey : ~ In (keyOf m) (keysOf data)) by (intros ?; apply Hun; now left).
  split; intros Hage.
  - assert (Hdrop : ~ In m (optimisticMessages getTime now data current)).
    { unfold optimisticMessages. rewrite filter_In. intros [_ Hk].
      rewrite Hkeep in Hk. apply negb_true_iff, Z.ltb_ge in Hk. lia. }
    split; [assumption|]. intros Hout.
    apply merged_entry in Hout as [Hlast|[_ Hfirst]].
    + apply Hkey, lastWithKey_keys. congruence.
    + apply firstWithKey_Some in Hfirst as [Hopt _]. contradiction.
  - assert (Hopt : In m (optimisticMessages getTime now data current)).
    { unfold optimisticMessages. apply filter_In. split; [assumption|].
      rewrite Hkeep. apply negb_true_iff, Z.ltb_ge. lia. }
    split; [assumption|].
    destruct (merged_shows_survivor getTime now data current m Hopt Hkey)
      as [m' [Hfirst Hshown]].
    exists m'. split; [assumption|]. split; [assumption|]. split.
    + intros Hout. apply merged_entry in Hout as [Hlast|[_ Hmine]].
      * exfalso. apply Hkey, lastWithKey_keys. congruence.
      * congruence.
    + intros <-. assumption.
Qed.

Lemma stale_optimistic_evicted_witness :
  ~ In staleOptimistic
       (reconciled IsoDate.getTime true threeSecondsLater [persistedFirst]
                   [staleOptimistic; freshOptimistic])
  /\ In freshOptimistic
        (reconciled IsoDate.getTime true threeSecondsLater [persistedFirst]
                    [staleOptimistic; freshOptimistic]).
Proof.
  assert (Hun : forall m, In m [staleOptimistic; freshOptimistic] ->
                          ~ matched [persistedFirst] m).
  { intros m [<-|[<-|[]]] [[H|[]]|[H|[]]]; vm_compute in H; discriminate H. }
  split.
  - destruct (stale_optimistic_evicted IsoDate.getTime threeSecondsLater [persistedFirst]
                [staleOptimistic; freshOptimistic] staleOptimistic 1704067200000)
      as [Hstale _].
    + now left.
    + reflexivity.
    + apply Hun. now left.
    + destruct Hstale as [_ Hgone]; [reflexivity | exact Hgone].
  - destruct (stale_optimistic_evicted IsoDate.getTime threeSecondsLater [persistedFirst]
                [staleOptimistic; freshOptimistic] freshOptimistic 1704067202000)
      as [_ Hfresh].
    + right. now left.
    + reflexivity.
    + apply Hun. right. now left.
    + destruct Hfresh as [_ [m' [Hfirst [_ Hiff]]]]; [discriminate|].
      apply Hiff. vm_compute in Hfirst. now inversion Hfirst.
Defined.

(** ** C2: the push-channel callback *)

(** C2, as stated, fails: the callback writes the event's status over a
    terminal one. *)
Lemma push_event_overwrites_terminal :
  ~ terminalIsSticky "+15551234567" (mkStatusEvent "r1" "PENDING")
                     {[ "+15551234567" := [delivered] ]}.
Proof.
  intros H. destruct (H 0%nat delivered) as [m' [Hm' Hst]]; try reflexivity.
  vm_compute in Hm'. inversion Hm'; subst m'. discriminate Hst.
Qed.

Lemma updated_lookup data msgs (i : nat) m :
  msgs !! i = Some m ->
  updated data msgs !! i =
  Some (if matchesEvent data m then withStatus m (ev_status data) else m).
Proof.
  unfold updated. revert i. induction msgs as [|a msgs IH]; intros [|i] Hi; simpl in *.
  - discriminate.
  - discriminate.
  - now inversion Hi.
  - now apply IH.
Qed.

(** C2, amended: an event whose requestId matches a local message sets
    that message's status to the event's status, whatever it was, and
    touches no other field; a terminal status is kept exactly when the
    event carries the same status.  A message that does not match is left
    as it is. *)
Theorem push_event_sets_status
        (phoneNumber : string) (data : StatusEvent) (prev : gmap string (list Message))
        (i : nat) (m : Message) :
  default [] (prev !! phoneNumber) !! i = Some m ->
  exists m',
    default [] ((onStatusEvent phoneNumber data prev).1 !! phoneNumber) !! i = Some m'
    /\ (matchesEvent data m = true ->
          m' = withStatus m (ev_status data)
          /\ (m_status m' = m_status m <-> ev_status data = m_status m))
    /\ (matchesEvent data m = false -> m' = m).
Proof.
  intros Hi. unfold onStatusEvent. simpl. rewrite lookup_insert_eq. simpl.
  rewrite (updated_lookup data _ i m Hi).
  eexists. split; [reflexivity|]. split; intros Hmatch; rewrite Hmatch.
  - split; [reflexivity|]. simpl. split; auto.
  - reflexivity.
Qed.

Lemma push_event_sets_status_witness :
  exists m',
    default [] ((onStatusEvent "+15551234567" (mkStatusEvent "r1" "FAILED")
                   {[ "+15551234567" := [delivered] ]}).1 !! "+15551234567") !! 0%nat = Some m'
    /\ m_status m' = "FAILED".
Proof.
  destruct (push_event_sets_status "+15551234567" (mkStatusEvent "r1" "FAILED")
              {[ "+15551234567" := [delivered] ]} 0%nat delivered) as [m' [Hm' [Hyes _]]].
  - reflexivity.
  - exists m'. split; [assumption|].
    destruct Hyes as [-> _]; reflexivity.
Defined.

(** ** C3: saving the same message again *)

(** C3, as stated, fails: [Save] appends, so a second application leaves
    two records where one application leaves one. *)
Lemma save_twice_stores_two_records :
  ~ saveIsIdempotent receivedEvent store.NewMemoryStore.
Proof.
  intros H. specialize (H 2%nat ltac:(lia)). vm_compute in H. discriminate H.
Qed.

Lemma SaveTimes_messages n : forall msg s,
  store.messages (store.SaveTimes n msg s) = store.messages s ++ repeat msg n.
Proof.
  induction n as [|n IH]; intros msg s; simpl.
  - now rewrite app_nil_r.
  - rewrite IH. simpl. now rewrite <- app_assoc.
Qed.

(** C3, amended: [Save] never fails and returns the message it was given;
    applying it N >= 1 times with the same message keeps the earlier
    records and adds N copies of the message, so the most recent record is
    the same for every N while the log grows by one record per
    application. *)
Theorem save_appends (n : nat) (msg : models.Message) (s : store.MemoryStore) :
  (1 <= n)%nat ->
  store.messages (store.SaveTimes n msg s) = store.messages s ++ repeat msg n
  /\ last (store.messages (store.SaveTimes n msg s)) = Some msg
  /\ last (store.messages (store.SaveTimes n msg s))
     = last (store.messages (store.SaveTimes 1 msg s))
  /\ length (store.messages (store.SaveTimes n msg s)) = (length (store.messages s) + n)%nat
  /\ snd (store.Save msg s) = (msg, None).
Proof.
  intros Hn. rewrite !SaveTimes_messages.
  assert (Hlast : forall k l, last (l ++ repeat msg (S k)) = Some msg).
  { intros k l. replace (S k) with (k + 1)%nat by lia.
    rewrite repeat_app, app_assoc. simpl. apply last_snoc. }
  destruct n as [|n]; [lia|].
  split; [reflexivity|]. split; [apply Hlast|]. split; [now rewrite !Hlast|].
  split; [|reflexivity]. now rewrite length_app, repeat_length.
Qed.

Lemma save_appends_witness :
  store.messages (store.SaveTimes 3 receivedEvent store.NewMemoryStore)
  = [receivedEvent; receivedEvent; receivedEvent].
Proof.
  destruct (save_appends 3 receivedEvent store.NewMemoryStore) as [H _].
  - repeat constructor.
  - exact H.
Defined.

(** ** C10: what getUserMessages does with a failed request *)

(** C10: when the store service answered with an error status, the client
    function resolves with the empty array; it rejects only when the
    request got no response at all. *)
Theorem getUserMessages_rejects_only_without_response
        (STORE_API_BASE nowIso : string) (got : AxiosResult (option (list Message))) :
  (forall message status data,
      got = AxiosHttpError message status data -> 400 <= status ->
      getUserMessages STORE_API_BASE nowIso got = Resolved [])
  /\ (forall e, getUserMessages STORE_API_BASE nowIso got = Rejected e ->
                exists message, got = AxiosNoResponse message)
  /\ (forall message, got = AxiosNoResponse message ->
                      exists e, getUserMessages STORE_API_BASE nowIso got = Rejected e).
Proof.
  split; [|split].
  - intros message status data -> _. simpl.
    now destruct ((status =? 404) || (status =? 400)).
  - intros e. destruct got as [data|message status data|message]; simpl.
    + discriminate.
    + destruct ((status =? 404) || (status =? 400)); discriminate.
    + eauto.
  - intros message ->. simpl. eauto.
Qed.

Lemma getUserMessages_rejects_only_without_response_witness :
  getUserMessages "http://localhost:8082" "2024-01-01T00:00:00.000Z"
                  (AxiosHttpError "Request failed with status code 500" 500
                                  (mkErrorData (Some "could not retrieve messages") None))
  = Resolved [].
Proof.
  eapply (getUserMessages_rejects_only_without_response
            "http://localhost:8082" "2024-01-01T00:00:00.000Z").
  - reflexivity.
  - lia.
Defined.

(** ** C7 and C8: the per-recipient and conversation handlers *)

Lemma GetUserMessages_cases path :
  httpapi.GetUserMessages path =
  if negb (routed path) then httpapi.write (badRequest "invalid URL path")
  else if invalidPhoneNumber (httpapi.phoneNumberOf path)
       then httpapi.write (badRequest "invalid phoneNumber")
       else httpapi.callFindByPhoneNumber (httpapi.phoneNumberOf path)
              (fun '(messages, err) =>
                 match err with
                 | Some _ => httpapi.write (internalError "could not retrieve messages")
                 | None => httpapi.write
                             (httpapi.mkResponse 200 (httpapi.messageList messages))
                 end).
Proof.
  unfold httpapi.GetUserMessages, routed, invalidPhoneNumber.
  rewrite negb_andb. reflexivity.
Qed.

Lemma DeleteUserMessages_cases path :
  httpapi.DeleteUserMessages path =
  if negb (routed path) then httpapi.write (badRequest "invalid URL path")
  else if invalidPhoneNumber (httpapi.phoneNumberOf path)
       then httpapi.write (badRequest "invalid phoneNumber")
       else httpapi.callDeleteByPhoneNumber (httpapi.phoneNumberOf path)
              (fun '(deletedCount, err) =>
                 match err with
                 | Some _ => httpapi.write (internalError "could not delete messages")
                 | None => httpapi.write
                             (httpapi.mkResponse 200
                                (httpapi.deleted "Messages deleted successfully" deletedCount
                                                 (httpapi.phoneNumberOf path)))
                 end).
Proof.
  unfold httpapi.DeleteUserMessages, routed, invalidPhoneNumber.
  rewrite negb_andb. reflexivity.
Qed.

(** C7: whenever the store lookup made by the message-list or the
    conversation-list handler returns an error, the response is 500 with
    the [INTERNAL] error payload, never a success. *)
Theorem store_error_gives_internal_error (s : store.Store) :
  (forall path phoneNumber messages e,
      snd (httpapi.serve s (httpapi.GetUserMessages path))
        = [httpapi.FindByPhoneNumberCall phoneNumber] ->
      store.FindByPhoneNumber s phoneNumber = (messages, Some e) ->
      fst (httpapi.serve s (httpapi.GetUserMessages path))
        = internalError "could not retrieve messages")
  /\ (forall phoneNumbers e,
         store.GetDistinctPhoneNumbers s = (phoneNumbers, Some e) ->
         httpapi.serve s httpapi.GetConversations
           = (internalError "could not retrieve conversations",
              [httpapi.GetDistinctPhoneNumbersCall])).
Proof.
  split.
  - intros path phoneNumber messages e. rewrite GetUserMessages_cases.
    destruct (negb (routed path)); [discriminate|].
    destruct (invalidPhoneNumber (httpapi.phoneNumberOf path)); [discriminate|].
    simpl. destruct (store.FindByPhoneNumber s (httpapi.phoneNumberOf path))
      as [found err] eqn:Hfind.
    destruct err; simpl; intros Hcall; inversion Hcall; subst; rewrite Hfind;
      intros Heq; inversion Heq. reflexivity.
  - intros phoneNumbers e Hget. simpl. rewrite Hget. reflexivity.
Qed.

Lemma store_error_gives_internal_error_witness :
  fst (httpapi.serve unavailableStore (httpapi.GetUserMessages "/v1/user/9876543210/messages"))
    = internalError "could not retrieve messages"
  /\ fst (httpapi.serve unavailableStore httpapi.GetConversations)
     = internalError "could not retrieve conversations".
Proof.
  destruct (store_error_gives_internal_error unavailableStore) as [Hlist Hconv]. split.
  - apply (Hlist _ "9876543210" None "server selection timeout"); reflexivity.
  - now rewrite (Hconv None "server selection timeout").
Defined.




(** ** C9: the reply of the send entry point and the join key *)




(** ** C4 and C6: the poll chain and its timers *)

Section TimerFacts.

Lemma clearAll_filter hs : forall queue,
  fold_left (fun q h => clearTimeout h q) hs queue
  = List.filter (fun t => negb (listed hs t)) queue.
Proof.
  induction hs as [|h hs IH]; intros queue; simpl.
  - induction queue as [|t queue IHq]; simpl; [reflexivity | now rewrite <- IHq].
  - rewrite IH. unfold clearTimeout. clear IH.
    induction queue as [|t queue IHq]; simpl; [reflexivity|].
    unfold listed at 2. simpl. destruct (Nat.eqb (t_handle t) h); simpl.
    + exact IHq.
    + fold (listed hs t). destruct (listed hs t); simpl; [exact IHq | now rewrite IHq].
Qed.

Lemma filter_keeps_all {A : Type} (f : A -> bool) (l : list A) :
  (forall x, In x l -> f x = true) -> List.filter f l = l.
Proof.
  induction l as [|a l IH]; simpl; intros Hall.
  - reflexivity.
  - rewrite (Hall a) by now left. f_equal. apply IH. intros x Hx. apply Hall. now right.
Qed.

Lemma listed_In hs t : listed hs t = true <-> In (t_handle t) hs.
Proof.
  unfold listed. rewrite existsb_exists. split.
  - intros [h [Hin Heq]]. apply Nat.eqb_eq in Heq. now subst.
  - intros Hin. exists (t_handle t). split; [assumption | apply Nat.eqb_refl].
Qed.

Lemma clearRetryTimers_timers p st :
  timers (clearRetryTimers p st) =
  match retryTimersRef st !! p with
  | Some hs => List.filter (fun t => negb (listed hs t)) (timers st)
  | None => timers st
  end.
Proof.
  unfold clearRetryTimers. destruct (retryTimersRef st !! p); simpl.
  - apply clearAll_filter.
  - reflexivity.
Qed.

Lemma clearRetryTimers_ref p st :
  retryTimersRef (clearRetryTimers p st) =
  match retryTimersRef st !! p with
  | Some _ => <[p := []]> (retryTimersRef st)
  | None => retryTimersRef st
  end.
Proof. unfold clearRetryTimers. now destruct (retryTimersRef st !! p). Qed.

Lemma clearRetryTimers_closures p st : closures (clearRetryTimers p st) = closures st.
Proof. unfold clearRetryTimers. now destruct (retryTimersRef st !! p). Qed.

Lemma clearRetryTimers_nextHandle p st :
  nextHandle (clearRetryTimers p st) = nextHandle st.
Proof. unfold clearRetryTimers. now destruct (retryTimersRef st !! p). Qed.

Lemma clearRetryTimers_fetching p st : fetching (clearRetryTimers p st) = fetching st.
Proof. unfold clearRetryTimers. now destruct (retryTimersRef st !! p). Qed.

Lemma clearRetryTimers_sendPhone p st send :
  sendPhone (clearRetryTimers p st) send = sendPhone st send.
Proof. unfold sendPhone. now rewrite clearRetryTimers_closures. Qed.

Lemma clearRetryTimers_subset p st t :
  In t (timers (clearRetryTimers p st)) -> In t (timers st).
Proof.
  rewrite clearRetryTimers_timers. destruct (retryTimersRef st !! p); [|auto].
  intros Hin. now apply filter_In in Hin.
Qed.

(** Under the tracking invariant, clearing a conversation's timers
    removes exactly the pending timers of that conversation. *)
Lemma clearRetryTimers_exact p st :
  wellTracked st ->
  timers (clearRetryTimers p st)
  = List.filter (fun t => negb (bool_decide (sendPhone st (t_send t) = Some p))) (timers st).
Proof.
  intros [Htimer [_ Hown]]. rewrite clearRetryTimers_timers.
  destruct (retryTimersRef st !! p) as [hs|] eqn:Hp.
  - apply filter_ext_in. intros t Hin. f_equal.
    destruct (listed hs t) eqn:Hl.
    + apply listed_In in Hl. symmetry. apply bool_decide_eq_true. eauto.
    + symmetry. apply bool_decide_eq_false. intros Hphone.
      destruct (Htimer t Hin) as [_ [q [hs' [Hq [Href Hh]]]]].
      assert (q = p) by congruence. subst q. rewrite Hp in Href. inversion Href; subst hs'.
      apply listed_In in Hh. congruence.
  - symmetry. apply filter_keeps_all. intros t Hin.
    apply negb_true_iff, bool_decide_eq_false. intros Hphone.
    destruct (Htimer t Hin) as [_ [q [hs' [Hq [Href _]]]]]. congruence.
Qed.

Lemma wellTracked_clearRetryTimers p st :
  wellTracked st -> wellTracked (clearRetryTimers p st).
Proof.
  intros Hwf. pose proof (clearRetryTimers_exact p st Hwf) as Hexact.
  destruct Hwf as [Htimer [Href Hown]].
  unfold wellTracked. rewrite clearRetryTimers_nextHandle, clearRetryTimers_ref, Hexact.
  split; [|split].
  - intros t Hin. apply filter_In in Hin as [Hin Hnot].
    apply negb_true_iff, bool_decide_eq_false in Hnot.
    rewrite clearRetryTimers_sendPhone.
    destruct (Htimer t Hin) as [Hlt [q [hs [Hq [Hr Hh]]]]]. split; [assumption|].
    exists q, hs. split; [assumption|]. split; [|assumption].
    destruct (retryTimersRef st !! p); [|assumption].
    rewrite lookup_insert_ne; [assumption | congruence].
  - intros q hs h Hq Hh. destruct (retryTimersRef st !! p) eqn:Hp; [|eauto].
    destruct (decide (p = q)) as [->|Hne].
    + rewrite lookup_insert_eq in Hq. inversion Hq; subst. contradiction.
    + rewrite lookup_insert_ne in Hq by assumption. eauto.
  - intros q hs t Hq Hh Hin. apply filter_In in Hin as [Hin _].
    rewrite clearRetryTimers_sendPhone.
    destruct (retryTimersRef st !! p) eqn:Hp; [|eauto].
    destruct (decide (p = q)) as [->|Hne].
    + rewrite lookup_insert_eq in Hq. inversion Hq; subst. contradiction.
    + rewrite lookup_insert_ne in Hq by assumption. eauto.
Qed.

Lemma wellTracked_scheduleAttempt p send attempt st :
  sendPhone st send = Some p ->
  wellTracked st -> wellTracked (scheduleAttempt p send attempt st).
Proof.
  intros Hsend [Htimer [Href Hown]]. unfold wellTracked, scheduleAttempt, sendPhone in *.
  simpl. split; [|split].
  - intros t Hin. apply in_app_iff in Hin as [Hin|[<-|[]]].
    + destruct (Htimer t Hin) as [Hlt [q [hs [Hq [Hr Hh]]]]]. split; [lia|].
      destruct (decide (p = q)) as [->|Hne].
      * exists q, (hs ++ [nextHandle st]). split; [assumption|].
        rewrite lookup_insert_eq, Hr. simpl. split; [reflexivity|].
        apply in_app_iff. now left.
      * exists q, hs. split; [assumption|]. now rewrite lookup_insert_ne.
    + simpl. split; [lia|].
      exists p, (default [] (retryTimersRef st !! p) ++ [nextHandle st]).
      split; [assumption|]. rewrite lookup_insert_eq. split; [reflexivity|].
      apply in_app_iff. right. now left.
  - intros q hs h Hq Hh. destruct (decide (p = q)) as [->|Hne].
    + rewrite lookup_insert_eq in Hq. inversion Hq; subst hs.
      apply in_app_iff in Hh as [Hh|[<-|[]]]; [|lia].
      destruct (retryTimersRef st !! q) as [hs|] eqn:Hr; simpl in Hh; [|contradiction].
      specialize (Href q hs h Hr Hh). lia.
    + rewrite lookup_insert_ne in Hq by assumption.
      specialize (Href q hs h Hq Hh). lia.
  - intros q hs t Hq Hh Hin. apply in_app_iff in Hin as [Hin|[<-|[]]].
    + destruct (decide (p = q)) as [->|Hne].
      * rewrite lookup_insert_eq in Hq. inversion Hq; subst hs.
        apply in_app_iff in Hh as [Hh|[Heq|[]]].
        -- destruct (retryTimersRef st !! q) as [hs|] eqn:Hr; simpl in Hh; [|contradiction].
           eauto.
        -- destruct (Htimer t Hin) as [Hlt _]. lia.
      * rewrite lookup_insert_ne in Hq by assumption. eauto.
    + simpl in *. destruct (decide (p = q)) as [->|Hne]; [assumption|].
      rewrite lookup_insert_ne in Hq by assumption.
      specialize (Href q hs _ Hq Hh). lia.
Qed.

Lemma wellTracked_transfer st st' :
  wellTracked st ->
  (forall t, In t (timers st') -> In t (timers st)) ->
  retryTimersRef st' = retryTimersRef st ->
  nextHandle st' = nextHandle st ->
  (forall send p, sendPhone st send = Some p -> sendPhone st' send = Some p) ->
  wellTracked st'.
Proof.
  intros [Htimer [Href Hown]] Hsub Hr Hn Hphone. unfold wellTracked.
  rewrite Hr, Hn. split; [|split].
  - intros t Hin. destruct (Htimer t (Hsub t Hin)) as [Hlt [q [hs [Hq [Hl Hh]]]]].
    split; [assumption|]. exists q, hs. auto.
  - assumption.
  - intros q hs t Hq Hh Hin. apply Hphone. eauto.
Qed.

Lemma sendPhone_closure_update (send : nat) c c' (send' : nat) (cs : list SendClosure) :
  cs !! send = Some c -> s_phoneNumber c' = s_phoneNumber c ->
  s_phoneNumber <$> (<[send := c']> cs !! send') = s_phoneNumber <$> (cs !! send').
Proof.
  intros Hc Hp. destruct (decide (send = send')) as [<-|Hne].
  - rewrite list_lookup_insert_eq by (now apply lookup_lt_Some in Hc).
    rewrite Hc. simpl. now rewrite Hp.
  - now rewrite list_lookup_insert_ne.
Qed.

Lemma wellTracked_handleSend p text response nowIso st :
  wellTracked st -> wellTracked (handleSend p text response nowIso st).
Proof.
  intros Hwf. unfold handleSend.
  destruct (inheritedMember p st).
  { apply (wellTracked_transfer st); try reflexivity; auto. }
  apply wellTracked_scheduleAttempt.
  - rewrite clearRetryTimers_sendPhone. unfold sendPhone. simpl.
    rewrite lookup_app_r by lia. now rewrite Nat.sub_diag.
  - apply wellTracked_clearRetryTimers.
    apply (wellTracked_transfer st); try reflexivity; [assumption | auto |].
    intros send q. unfold sendPhone. simpl.
    destruct (closures st !! send) as [c|] eqn:Hc; [|discriminate].
    now rewrite (lookup_app_l_Some _ _ _ _ Hc).
Qed.

Lemma wellTracked_fire h st st' :
  fire h st = Some st' -> wellTracked st -> wellTracked st'.
Proof.
  unfold fire. intros Hfire Hwf.
  destruct (List.find _ (timers st)) as [t|]; [|discriminate].
  destruct (closures st !! t_send t) as [c|]; [|discriminate].
  destruct (s_messageFound c); inversion Hfire; subst st'; clear Hfire;
    (apply (wellTracked_transfer st); try reflexivity; [assumption | | auto]);
    simpl; unfold clearTimeout; intros t' Hin; now apply filter_In in Hin.
Qed.

Lemma wellTracked_settle send attempt fetched st st' :
  settle send attempt fetched st = Some st' -> ownEntries st -> wellTracked st ->
  wellTracked st'.
Proof.
  unfold settle. intros Hsettle Hentries Hwf.
  destruct (negb (existsb _ (fetching st))); [discriminate|].
  destruct (closures st !! send) as [c|] eqn:Hc; [|discriminate].
  cbv zeta in Hsettle. rewrite (Hentries send c Hc) in Hsettle.
  set (st0 := mkClient (messages st) (retryTimersRef st) (timers st)
                       (List.filter _ (fetching st)) (closures st) (nextHandle st)
                       (trace st)) in *.
  assert (Hwf0 : wellTracked st0).
  { apply (wellTracked_transfer st); try reflexivity; auto. }
  assert (Hphone : sendPhone st0 send = Some (s_phoneNumber c)).
  { unfold sendPhone. simpl. now rewrite Hc. }
  assert (Hretry : wellTracked (scheduleAttempt (s_phoneNumber c) send (S attempt) st0)).
  { now apply wellTracked_scheduleAttempt. }
  destruct fetched as [data|message].
  - destruct (findPersisted (s_correlationId c) data) as [q|].
    + inversion Hsettle; subst st'; clear Hsettle.
      apply wellTracked_clearRetryTimers.
      apply (wellTracked_transfer st0); try reflexivity; [assumption | auto |].
      intros send' p'. unfold sendPhone. simpl.
      now rewrite (sendPhone_closure_update send c
                     (mkSendClosure (s_phoneNumber c) (s_correlationId c) true)
                     send' (closures st) Hc eq_refl).
    + destruct ((Z.of_nat attempt <? Z.of_nat (length pollDelays) - 1)
                && negb (s_messageFound c)).
      * now inversion Hsettle; subst st'.
      * destruct (negb (s_messageFound c)); inversion Hsettle; subst st'; [|assumption].
        apply (wellTracked_transfer st0); try reflexivity; auto.
  - destruct ((Z.of_nat attempt <? Z.of_nat (length pollDelays) - 1)
              && negb (s_messageFound c)); now inversion Hsettle; subst st'.
Qed.

Lemma inheritedMember_grows (st st' : Client) (p : string) :
  (forall q, is_Some (retryTimersRef st !! q) -> is_Some (retryTimersRef st' !! q)) ->
  inheritedMember p st = false -> inheritedMember p st' = false.
Proof.
  unfold inheritedMember. intros Hkeys Hp.
  destruct (retryTimersRef st' !! p) eqn:Hp'; [reflexivity|].
  destruct (retryTimersRef st !! p) eqn:Hq; [|exact Hp].
  destruct (Hkeys p (ex_intro _ _ Hq)) as [ks Hks]. congruence.
Qed.

Lemma clearRetryTimers_keys (p q : string) (st : Client) :
  is_Some (retryTimersRef st !! q) -> is_Some (retryTimersRef (clearRetryTimers p st) !! q).
Proof.
  unfold clearRetryTimers. destruct (retryTimersRef st !! p) eqn:Hp; simpl; [|auto].
  intros Hq. destruct (decide (p = q)) as [->|Hne].
  - rewrite lookup_insert_eq. eauto.
  - now rewrite lookup_insert_ne.
Qed.

Lemma scheduleAttempt_keys (p q : string) (send attempt : nat) (st : Client) :
  is_Some (retryTimersRef st !! q) \/ q = p ->
  is_Some (retryTimersRef (scheduleAttempt p send attempt st) !! q).
Proof.
  unfold scheduleAttempt. simpl. intros Hq. destruct (decide (p = q)) as [->|Hne].
  - rewrite lookup_insert_eq. eauto.
  - rewrite lookup_insert_ne by assumption. destruct Hq as [Hq|Hq]; [assumption|congruence].
Qed.

Lemma handleSend_keys p text response nowIso st q :
  is_Some (retryTimersRef st !! q) ->
  is_Some (retryTimersRef (handleSend p text response nowIso st) !! q).
Proof.
  intros Hq. unfold handleSend. destruct (inheritedMember p st); [exact Hq|].
  apply scheduleAttempt_keys. left. now apply clearRetryTimers_keys.
Qed.

Lemma fire_unchanged h st st' :
  fire h st = Some st' ->
  retryTimersRef st' = retryTimersRef st
  /\ forall send, s_phoneNumber <$> (closures st' !! send)
                  = s_phoneNumber <$> (closures st !! send).
Proof.
  unfold fire. intros Hfire.
  destruct (List.find _ (timers st)) as [t|]; [|discriminate].
  destruct (closures st !! t_send t) as [c|]; [|discriminate].
  destruct (s_messageFound c); inversion Hfire; subst st'; simpl; auto.
Qed.

Lemma settle_keys send attempt fetched st st' :
  settle send attempt fetched st = Some st' ->
  (forall q, is_Some (retryTimersRef st !! q) -> is_Some (retryTimersRef st' !! q))
  /\ (forall q, is_Some (retryTimersRef st' !! q) ->
                is_Some (retryTimersRef st !! q)
                \/ (exists c, closures st !! send = Some c /\ q = s_phoneNumber c
                               /\ inheritedMember q st = false))
  /\ forall send', s_phoneNumber <$> (closures st' !! send')
                   = s_phoneNumber <$> (closures st !! send').
Proof.
  unfold settle. intros Hsettle.
  destruct (negb (existsb _ (fetching st))); [discriminate|].
  destruct (closures st !! send) as [c|] eqn:Hc; [|discriminate].
  cbv zeta in Hsettle.
  assert (Hclear : forall st1 q,
             is_Some (retryTimersRef (clearRetryTimers (s_phoneNumber c) st1) !! q) ->
             is_Some (retryTimersRef st1 !! q)).
  { intros st1 q. unfold clearRetryTimers.
    destruct (retryTimersRef st1 !! s_phoneNumber c) eqn:Hp; simpl; [|auto].
    destruct (decide (s_phoneNumber c = q)) as [<-|Hne].
    - rewrite Hp. eauto.
    - now rewrite lookup_insert_ne. }
  assert (Hsched : forall st1 a q,
             is_Some (retryTimersRef (scheduleAttempt (s_phoneNumber c) send a st1) !! q) ->
             is_Some (retryTimersRef st1 !! q) \/ q = s_phoneNumber c).
  { intros st1 a q. unfold scheduleAttempt. simpl.
    destruct (decide (s_phoneNumber c = q)) as [<-|Hne]; [now right|].
    rewrite lookup_insert_ne by assumption. now left. }
  destruct (inheritedMember (s_phoneNumber c) st) eqn:Hinh.
  - destruct fetched as [data|message].
    + destruct (findPersisted (s_correlationId c) data) as [pm|].
      * inversion Hsettle; subst st'; simpl. split; [auto|]. split; [auto|].
        intros send'. now apply (sendPhone_closure_update send c).
      * destruct (_ && _); [|destruct (negb (s_messageFound c))];
          inversion Hsettle; subst st'; simpl; auto.
    + destruct (_ && _); inversion Hsettle; subst st'; simpl; auto.
  - destruct fetched as [data|message].
    + destruct (findPersisted (s_correlationId c) data) as [pm|].
      * inversion Hsettle; subst st'. split; [|split].
        -- intros q Hq. now apply clearRetryTimers_keys.
        -- intros q Hq. left. now apply Hclear in Hq.
        -- intros send'. rewrite clearRetryTimers_closures. simpl.
           now apply (sendPhone_closure_update send c).
      * destruct (_ && _).
        -- inversion Hsettle; subst st'. split; [|split; [|reflexivity]].
           ++ intros q Hq. apply scheduleAttempt_keys. now left.
           ++ intros q Hq. apply Hsched in Hq as [Hq| ->]; [now left|]. right. eauto.
        -- destruct (negb (s_messageFound c)); inversion Hsettle; subst st'; simpl; auto.
    + destruct (_ && _).
      * inversion Hsettle; subst st'. split; [|split; [|reflexivity]].
        -- intros q Hq. apply scheduleAttempt_keys. now left.
        -- intros q Hq. apply Hsched in Hq as [Hq| ->]; [now left|]. right. eauto.
      * inversion Hsettle; subst st'; simpl; auto.
Qed.

Lemma ownEntries_step e st st' :
  step e st = Some st' -> ownEntries st -> ownEntries st'.
Proof.
  unfold ownEntries.
  destruct e as [p text response nowIso|h|send attempt fetched]; simpl.
  - destruct (truthy p && truthy text); [|discriminate].
    intros Heq Hst send c Hc. inversion Heq; subst st'; clear Heq.
    unfold handleSend in *. destruct (inheritedMember p st) eqn:Hinh.
    + simpl in *. apply (Hst send c Hc).
    + rewrite ?clearRetryTimers_closures in Hc. simpl in Hc.
      unfold scheduleAttempt in Hc. simpl in Hc. rewrite clearRetryTimers_closures in Hc.
      simpl in Hc.
      apply lookup_app_Some in Hc as [Hc|[_ Hc]].
      * apply (inheritedMember_grows st); [|now apply (Hst send c)].
        intros q Hq. apply scheduleAttempt_keys. left. now apply clearRetryTimers_keys.
      * apply list_lookup_singleton_Some in Hc as [_ <-]. simpl.
        unfold inheritedMember.
        destruct (scheduleAttempt_keys p p (length (closures st)) 0
                    (clearRetryTimers p
                       (mkClient (<[p := default [] (messages st !! p)
                                          ++ [optimisticMessage p text response nowIso]]>
                                    (messages st))
                                 (retryTimersRef st) (timers st) (fetching st)
                                 (closures st ++ [mkSendClosure p (requestId response) false])
                                 (nextHandle st) (trace st)))
                    (or_intror eq_refl)) as [ks Hks].
        now rewrite Hks.
  - intros Hfire Hst send c Hc.
    destruct (fire_unchanged h st st' Hfire) as [Href Hcl].
    specialize (Hcl send). rewrite Hc in Hcl. simpl in Hcl.
    destruct (closures st !! send) as [c0|] eqn:Hc0; [|discriminate].
    simpl in Hcl. inversion Hcl as [Hp].
    unfold inheritedMember. rewrite Href, Hp. apply (Hst send c0 Hc0).
  - intros Hsettle Hst send' c Hc.
    destruct (settle_keys send attempt fetched st st' Hsettle) as [Hkeys [_ Hcl]].
    specialize (Hcl send'). rewrite Hc in Hcl. simpl in Hcl.
    destruct (closures st !! send') as [c0|] eqn:Hc0; [|discriminate].
    simpl in Hcl. inversion Hcl as [Hp].
    apply (inheritedMember_grows st); [assumption|]. rewrite Hp. apply (Hst send' c0 Hc0).
Qed.

Lemma ownEntries_initial : ownEntries initial.
Proof. intros send c Hc. discriminate Hc. Qed.

Lemma plainKeys_step e st st' :
  step e st = Some st' -> plainKeys st -> plainKeys st'.
Proof.
  unfold plainKeys.
  destruct e as [p text response nowIso|h|send attempt fetched]; simpl.
  - destruct (truthy p && truthy text); [|discriminate].
    intros Heq Hst q Hq. inversion Heq; subst st'; clear Heq.
    unfold handleSend in Hq. destruct (inheritedMember p st) eqn:Hinh; [now apply Hst|].
    unfold scheduleAttempt in Hq. simpl in Hq.
    destruct (decide (p = q)) as [<-|Hne].
    + unfold inheritedMember in Hinh.
      destruct (retryTimersRef st !! p) eqn:Hp; [apply Hst; eauto | exact Hinh].
    + rewrite lookup_insert_ne in Hq by assumption.
      unfold clearRetryTimers in Hq. simpl in Hq.
      destruct (retryTimersRef st !! p) eqn:Hp; simpl in Hq.
      * rewrite lookup_insert_ne in Hq by assumption. now apply Hst.
      * now apply Hst.
  - intros Hfire Hst q Hq. destruct (fire_unchanged h st st' Hfire) as [Href _].
    rewrite Href in Hq. now apply Hst.
  - intros Hsettle Hst q Hq.
    destruct (settle_keys send attempt fetched st st' Hsettle) as [_ [Hback _]].
    destruct (Hback q Hq) as [Hold|[c [_ [_ Hinh]]]]; [now apply Hst|].
    unfold inheritedMember in Hinh.
    destruct (retryTimersRef st !! q) eqn:Hp; [apply Hst; eauto | exact Hinh].
Qed.

Lemma plainKeys_initial : plainKeys initial.
Proof.
  intros p [ks Hks]. unfold initial in Hks. simpl in Hks. now rewrite lookup_empty in Hks.
Qed.

Lemma wellTracked_initial : wellTracked initial.
Proof.
  unfold wellTracked, initial. simpl. split; [|split].
  - intros t [].
  - intros p hs h Hp. rewrite lookup_empty in Hp. discriminate.
  - intros p hs t _ _ [].
Qed.

Lemma wellTracked_step e st st' :
  step e st = Some st' -> ownEntries st -> wellTracked st -> wellTracked st'.
Proof.
  destruct e as [p text response nowIso|h|send attempt fetched]; simpl.
  - destruct (truthy p && truthy text); [|discriminate].
    intros Heq _; inversion Heq; subst st'. apply wellTracked_handleSend.
  - intros Hfire _. now apply (wellTracked_fire h st).
  - apply wellTracked_settle.
Qed.

Lemma wellTracked_run events : forall st st',
  run events st = Some st' ->
  ownEntries st /\ plainKeys st /\ wellTracked st ->
  ownEntries st' /\ plainKeys st' /\ wellTracked st'.
Proof.
  induction events as [|e events IH]; intros st st'; simpl.
  - intros Heq; now inversion Heq; subst.
  - destruct (step e st) as [st1|] eqn:Hstep; [|discriminate].
    intros Hrun [Hentries [Hkeys Hwf]]. apply (IH st1 st' Hrun).
    split; [now apply (ownEntries_step e st)|].
    split; [now apply (plainKeys_step e st)|].
    now apply (wellTracked_step e st).
Qed.

Lemma reachable_ownEntries st : reachable st -> ownEntries st.
Proof.
  intros [events Hrun].
  apply (wellTracked_run events initial st Hrun).
  split; [apply ownEntries_initial|]. split; [apply plainKeys_initial|].
  apply wellTracked_initial.
Qed.

Lemma reachable_plainKeys st : reachable st -> plainKeys st.
Proof.
  intros [events Hrun].
  apply (wellTracked_run events initial st Hrun).
  split; [apply ownEntries_initial|]. split; [apply plainKeys_initial|].
  apply wellTracked_initial.
Qed.

Lemma reachable_wellTracked st : reachable st -> wellTracked st.
Proof.
  intros [events Hrun].
  apply (wellTracked_run events initial st Hrun).
  split; [apply ownEntries_initial|]. split; [apply plainKeys_initial|].
  apply wellTracked_initial.
Qed.

Lemma reachable_inheritedMember st p :
  reachable st -> inheritedMember p st = inheritedName p.
Proof.
  intros Hreach. apply reachable_plainKeys in Hreach. unfold inheritedMember.
  destruct (retryTimersRef st !! p) eqn:Hp; [|reflexivity].
  symmetry. apply Hreach. eauto.
Qed.

End TimerFacts.

Lemma filter_keeps_none {A : Type} (f : A -> bool) (l : list A) :
  (forall x, In x l -> f x = false) -> List.filter f l = [].
Proof.
  induction l as [|a l IH]; simpl; intros Hnone; [reflexivity|].
  rewrite (Hnone a (or_introl eq_refl)). apply IH. intros x Hx. apply Hnone. now right.
Qed.

Lemma filter_filter_ext {A : Type} (f g h : A -> bool) (l : list A) :
  (forall x, In x l -> g x && f x = h x) ->
  List.filter g (List.filter f l) = List.filter h l.
Proof.
  induction l as [|a l IH]; simpl; intros Hext.
  - reflexivity.
  - assert (Ha := Hext a (or_introl eq_refl)).
    assert (Hl : forall x, In x l -> g x && f x = h x) by (intros x Hx; apply Hext; now right).
    destruct (f a); simpl.
    + rewrite andb_true_r in Ha. rewrite Ha. destruct (h a); now rewrite IH.
    + rewrite andb_false_r in Ha. rewrite <- Ha. now apply IH.
Qed.

(** C6, as stated, fails: clearing the timers does not stop an attempt
    whose fetch is in flight; it goes on to schedule its next attempt, and
    two poll sequences are then pending for the same recipient. *)
Lemma two_polls_for_one_recipient :
  ~ (forall st, reachable st -> onePollPerRecipient st).
Proof.
  intros H.
  destruct (run overlappingSends initial) as [st|] eqn:Hrun; [|discriminate Hrun].
  assert (Hone : onePollPerRecipient st) by (apply H; now exists overlappingSends).
  vm_compute in Hrun. inversion Hrun; subst st; clear Hrun.
  specialize (Hone "9876543210" 1%nat 0%nat).
  assert (Hsame : 1%nat = 0%nat) by (apply Hone; vm_compute; auto).
  discriminate Hsame.
Qed.

(** C6, amended: a new send first clears every pending poll timer of its
    recipient, whichever send created it, and then schedules its own first
    attempt: right after [handleSend] the only pending timer of the
    recipient is the new send's 300 ms timer, and the timers of the other
    recipients are untouched.  (Nothing is said about an attempt whose
    fetch is already in flight.)  This is so for every recipient but the
    names that each object inherits ([constructor], [toString], ...): for
    these the lookup in [retryTimersRef.current] finds the inherited
    member, [forEach] throws, and the send neither clears a timer nor
    starts a poll. *)
Theorem new_send_clears_recipient_timers
        (p text : string) (response : SendSmsResponse) (nowIso : string) (st : Client) :
  reachable st ->
  let st' := handleSend p text response nowIso st in
  if inheritedName p
  then timers st' = timers st
       /\ retryTimersRef st' = retryTimersRef st
       /\ closures st' = closures st
       /\ timersOf p st' = []
  else timersOf p st' = [mkTimer (nextHandle st) (length (closures st)) 0 300]
       /\ retryTimersRef st' !! p = Some [nextHandle st]
       /\ forall q, q <> p -> timersOf q st' = timersOf q st.
Proof.
  intros Hreach st'. apply reachable_wellTracked in Hreach as Hwf.
  rewrite <- (reachable_inheritedMember st p Hreach).
  destruct (inheritedMember p st) eqn:Hinh.
  { assert (Hst' : st' = mkClient (<[p := default [] (messages st !! p)
                                          ++ [optimisticMessage p text response nowIso]]>
                                     (messages st))
                                  (retryTimersRef st) (timers st) (fetching st) (closures st)
                                  (nextHandle st) (trace st)).
    { unfold st', handleSend. now rewrite Hinh. }
    rewrite Hst'. simpl. repeat (split; [reflexivity|]).
    unfold timersOf. simpl. apply filter_keeps_none.
    intros t Hin. apply bool_decide_eq_false. intros Hp.
    destruct Hwf as [Htimer _]. destruct (Htimer t Hin) as [_ [q [hs [Hq [Hl _]]]]].
    unfold sendPhone in Hp, Hq. simpl in Hp. rewrite Hp in Hq. inversion Hq; subst q.
    unfold inheritedMember in Hinh. now rewrite Hl in Hinh. }
  set (st1 := mkClient (<[p := default [] (messages st !! p)
                                ++ [optimisticMessage p text response nowIso]]> (messages st))
                       (retryTimersRef st) (timers st) (fetching st)
                       (closures st ++ [mkSendClosure p (requestId response) false])
                       (nextHandle st) (trace st)).
  assert (Hst' : st' = scheduleAttempt p (length (closures st)) 0 (clearRetryTimers p st1)).
  { unfold st', handleSend. now rewrite Hinh. }
  assert (Hkeep : forall send q, sendPhone st send = Some q -> sendPhone st1 send = Some q).
  { intros send q. unfold sendPhone. simpl.
    destruct (closures st !! send) as [c|] eqn:Hc; [|discriminate].
    now rewrite (lookup_app_l_Some _ _ _ _ Hc). }
  assert (Hwf1 : wellTracked st1).
  { apply (wellTracked_transfer st); try reflexivity; auto. }
  assert (Hnew : sendPhone st1 (length (closures st)) = Some p).
  { unfold sendPhone. simpl. rewrite lookup_app_r by lia. now rewrite Nat.sub_diag. }
  assert (Hphone : forall send, sendPhone st' send = sendPhone st1 send).
  { intros send. rewrite Hst'. unfold sendPhone, scheduleAttempt. simpl.
    now rewrite clearRetryTimers_closures. }
  assert (Htimers : timers st' =
                    List.filter (fun t => negb (bool_decide (sendPhone st1 (t_send t) = Some p)))
                                (timers st)
                    ++ [mkTimer (nextHandle st) (length (closures st)) 0 300]).
  { rewrite Hst'. unfold scheduleAttempt. simpl.
    rewrite (clearRetryTimers_exact p st1 Hwf1), clearRetryTimers_nextHandle. reflexivity. }
  assert (Hold : forall t, In t (timers st) ->
                           sendPhone st1 (t_send t) = sendPhone st (t_send t)).
  { intros t Hin. destruct Hwf as [Htimer _].
    destruct (Htimer t Hin) as [_ [q [hs [Hq _]]]]. rewrite Hq. now apply Hkeep. }
  split; [|split].
  - unfold timersOf. rewrite Htimers, List.filter_app. simpl.
    rewrite Hphone, Hnew, bool_decide_eq_true_2 by reflexivity.
    rewrite (filter_filter_ext _ _ (fun _ => false)).
    + clear. now induction (timers st) as [|t l IH].
    + intros t _. rewrite Hphone. now destruct (bool_decide _).
  - rewrite Hst'. unfold scheduleAttempt. simpl.
    rewrite lookup_insert_eq, clearRetryTimers_ref, clearRetryTimers_nextHandle.
    destruct (retryTimersRef st1 !! p) eqn:Hp.
    + now rewrite lookup_insert_eq.
    + now rewrite Hp.
  - intros q Hne. unfold timersOf. rewrite Htimers, List.filter_app. simpl.
    rewrite Hphone, Hnew, bool_decide_eq_false_2 by congruence.
    rewrite app_nil_r. apply filter_filter_ext.
    intros t Hin. rewrite Hphone, (Hold t Hin).
    destruct (bool_decide (sendPhone st (t_send t) = Some q)) eqn:Hq; simpl; [|reflexivity].
    apply bool_decide_eq_true in Hq. apply negb_true_iff, bool_decide_eq_false. congruence.
Qed.

Lemma new_send_clears_recipient_timers_witness :
  exists st, run [ EvSend "9876543210" "hi" firstSend "2024-01-01T00:00:00.000Z";
                   EvFire 0; EvSettle 0 0 (Resolved []) ] initial = Some st
             /\ timersOf "9876543210" st = [mkTimer 1 0 1 600]
             /\ timersOf "9876543210"
                         (handleSend "9876543210" "yo" secondSend "2024-01-01T00:00:00.350Z" st)
                = [mkTimer 2 1 0 300]
             /\ timers (handleSend "constructor" "yo" secondSend "2024-01-01T00:00:00.350Z" st)
                = timers st.
Proof.
  destruct (run [ EvSend "9876543210" "hi" firstSend "2024-01-01T00:00:00.000Z";
                  EvFire 0; EvSettle 0 0 (Resolved []) ] initial) as [st|] eqn:Hrun;
    [|discriminate Hrun].
  exists st. split; [reflexivity|].
  assert (Hreach : reachable st) by (eexists; exact Hrun).
  destruct (new_send_clears_recipient_timers "9876543210" "yo" secondSend
              "2024-01-01T00:00:00.350Z" st Hreach) as [Hnew _].
  destruct (new_send_clears_recipient_timers "constructor" "yo" secondSend
              "2024-01-01T00:00:00.350Z" st Hreach) as [Hsame _].
  vm_compute in Hrun. inversion Hrun; subst st; clear Hrun.
  split; [vm_compute; reflexivity|]. split; [exact Hnew | exact Hsame].
Defined.

(** *** One send left alone *)

Section PollFacts.
Variables (send : nat) (c : SendClosure).

Lemma fire_awaiting st attempt h :
  awaiting st send attempt c h ->
  fire h st = Some (mkClient (messages st) (retryTimersRef st) [] [(send, attempt)]
                             (closures st) (nextHandle st)
                             (trace st ++ [AFetch send attempt])).
Proof.
  intros [Ht [Hf [Hc [Hfound _]]]]. unfold fire. rewrite Ht. simpl.
  rewrite Nat.eqb_refl. simpl. rewrite Hc, Hfound, Hf. reflexivity.
Qed.

Lemma poll_round st attempt h fetched rest st1 :
  timers st = [mkTimer h send attempt (nth attempt pollDelays 0)] ->
  fire h st = Some st1 ->
  poll (fetched :: rest) st =
  match settle send attempt fetched st1 with
  | None => st1
  | Some st2 => poll rest st2
  end.
Proof. intros Ht Hfire. simpl. rewrite Ht. simpl. now rewrite Hfire. Qed.

Lemma sameCall_refl call : sameCall call call = true.
Proof. unfold sameCall. now rewrite !Nat.eqb_refl. Qed.

(** [settle] on the state left by [fire]. *)
Lemma settle_in_flight st attempt fetched :
  fetching st = [(send, attempt)] ->
  closures st !! send = Some c ->
  s_messageFound c = false ->
  inheritedMember (s_phoneNumber c) st = false ->
  let st0 := mkClient (messages st) (retryTimersRef st) (timers st) []
                      (closures st) (nextHandle st) (trace st) in
  settle send attempt fetched st =
  match fetched with
  | Resolved data =>
      match findPersisted (s_correlationId c) data with
      | Some q =>
          Some (clearRetryTimers (s_phoneNumber c)
                  (mkClient (<[s_phoneNumber c :=
                                 replaceOptimistic (s_correlationId c) q
                                   (default [] (messages st !! s_phoneNumber c))]>
                               (messages st))
                            (retryTimersRef st) (timers st) []
                            (<[send := mkSendClosure (s_phoneNumber c) (s_correlationId c)
                                                     true]> (closures st))
                            (nextHandle st) (trace st ++ [AReplace send q])))
      | None =>
          if (attempt <? 3)%nat
          then Some (scheduleAttempt (s_phoneNumber c) send (S attempt) st0)
          else Some (mkClient (messages st) (retryTimersRef st) (timers st) []
                              (closures st) (nextHandle st)
                              (trace st ++ [ARefresh (s_phoneNumber c)]))
      end
  | Rejected _ =>
      if (attempt <? 3)%nat
      then Some (scheduleAttempt (s_phoneNumber c) send (S attempt) st0)
      else Some st0
  end.
Proof.
  intros Hf Hc Hfound Hown st0. unfold settle. rewrite Hf. simpl existsb. simpl List.filter.
  rewrite sameCall_refl. simpl negb. cbv iota. rewrite Hc, Hfound. cbv zeta. rewrite Hown.
  assert (Hlt : (Z.of_nat attempt <? Z.of_nat (length pollDelays) - 1) = (attempt <? 3)%nat).
  { simpl length. destruct (Nat.ltb_spec attempt 3).
    - apply Z.ltb_lt. lia.
    - apply Z.ltb_ge. lia. }
  rewrite Hlt, andb_true_r. fold st0.
  destruct fetched as [data|message].
  - destruct (findPersisted (s_correlationId c) data); [reflexivity|].
    destruct (attempt <? 3)%nat; reflexivity.
  - destruct (attempt <? 3)%nat; reflexivity.
Qed.

Lemma poll_retry st attempt h fetched rest :
  awaiting st send attempt c h ->
  (attempt < 3)%nat ->
  noMatch (s_correlationId c) fetched ->
  exists st',
    poll (fetched :: rest) st = poll rest st'
    /\ awaiting st' send (S attempt) c (nextHandle st)
    /\ nextHandle st' = S (nextHandle st)
    /\ messages st' = messages st
    /\ trace st' = trace st ++ [AFetch send attempt;
                                ASetTimeout (nextHandle st) send (S attempt)
                                            (nth (S attempt) pollDelays 0)].
Proof.
  intros Haw Hlt Hno. pose proof (fire_awaiting st attempt h Haw) as Hfire.
  destruct Haw as [Ht [Hf [Hc [Hfound Hown]]]].
  apply Nat.ltb_lt in Hlt.
  eexists. split; [|split; [|split; [|split]]].
  - rewrite (poll_round st attempt h fetched rest _ Ht Hfire).
    rewrite settle_in_flight by (simpl; auto). cbv zeta. rewrite Hlt.
    destruct fetched as [data|message]; simpl in Hno; [rewrite Hno|]; reflexivity.
  - unfold awaiting, scheduleAttempt, inheritedMember. simpl.
    rewrite lookup_insert_eq. auto.
  - reflexivity.
  - reflexivity.
  - simpl. now rewrite <- app_assoc.
Qed.

Lemma poll_found st attempt h data q rest :
  awaiting st send attempt c h ->
  findPersisted (s_correlationId c) data = Some q ->
  let st' := poll (Resolved data :: rest) st in
  timers st' = [] /\ fetching st' = []
  /\ messages st' !! s_phoneNumber c
     = Some (replaceOptimistic (s_correlationId c) q
                               (default [] (messages st !! s_phoneNumber c)))
  /\ trace st' = trace st ++ [AFetch send attempt; AReplace send q]
                 ++ List.map AClearTimeout
                      (default [] (retryTimersRef st !! s_phoneNumber c)).
Proof.
  intros Haw Hq. pose proof (fire_awaiting st attempt h Haw) as Hfire.
  destruct Haw as [Ht [Hf [Hc [Hfound Hown]]]].
  cbv zeta. rewrite (poll_round st attempt h (Resolved data) rest _ Ht Hfire).
  rewrite settle_in_flight by (simpl; auto). cbv zeta. rewrite Hq.
  simpl messages; simpl retryTimersRef; simpl timers; simpl closures;
    simpl nextHandle; simpl trace.
  set (st1 := mkClient _ _ _ _ _ _ _).
  assert (Hstop : poll rest (clearRetryTimers (s_phoneNumber c) st1)
                  = clearRetryTimers (s_phoneNumber c) st1).
  { destruct rest; simpl; [reflexivity|].
    rewrite clearRetryTimers_timers. simpl.
    now destruct (retryTimersRef st !! s_phoneNumber c). }
  rewrite Hstop, clearRetryTimers_timers, clearRetryTimers_fetching.
  unfold clearRetryTimers. simpl.
  destruct (retryTimersRef st !! s_phoneNumber c) as [hs|] eqn:Hr; simpl.
  - rewrite lookup_insert_eq, <- !app_assoc. auto.
  - rewrite lookup_insert_eq, <- !app_assoc. auto.
Qed.

Lemma poll_last st h fetched rest :
  awaiting st send 3 c h ->
  noMatch (s_correlationId c) fetched ->
  let st' := poll (fetched :: rest) st in
  timers st' = [] /\ fetching st' = []
  /\ messages st' = messages st
  /\ trace st' = trace st ++ [AFetch send 3]
                 ++ (if isResolved fetched then [ARefresh (s_phoneNumber c)] else []).
Proof.
  intros Haw Hno. pose proof (fire_awaiting st 3 h Haw) as Hfire.
  destruct Haw as [Ht [Hf [Hc [Hfound Hown]]]].
  cbv zeta. rewrite (poll_round st 3 h fetched rest _ Ht Hfire).
  rewrite settle_in_flight by (simpl; auto). cbv zeta.
  destruct fetched as [data|message]; simpl in Hno; [rewrite Hno|];
    destruct rest; simpl; rewrite <- ?app_assoc, ?app_nil_r; auto.
Qed.

(** A send left alone whose message is never found: four fetches, after
    300, 600, 800 and 1200 ms; one refresh when the last fetch resolved,
    none when it failed; nothing pending afterwards. *)
Lemma poll_exhausted st h o0 o1 o2 o3 rest :
  awaiting st send 0 c h ->
  Forall (noMatch (s_correlationId c)) [o0; o1; o2; o3] ->
  let st' := poll (o0 :: o1 :: o2 :: o3 :: rest) st in
  timers st' = [] /\ fetching st' = []
  /\ messages st' = messages st
  /\ trace st' = trace st
                 ++ [AFetch send 0;
                     ASetTimeout (nextHandle st) send 1 600;
                     AFetch send 1;
                     ASetTimeout (S (nextHandle st)) send 2 800;
                     AFetch send 2;
                     ASetTimeout (S (S (nextHandle st))) send 3 1200;
                     AFetch send 3]
                 ++ (if isResolved o3 then [ARefresh (s_phoneNumber c)] else []).
Proof.
  intros Haw Hall.
  apply Forall_cons_iff in Hall as [H0 Hall]. apply Forall_cons_iff in Hall as [H1 Hall].
  apply Forall_cons_iff in Hall as [H2 Hall]. apply Forall_cons_iff in Hall as [H3 _].
  destruct (poll_retry st 0 h o0 (o1 :: o2 :: o3 :: rest) Haw ltac:(lia) H0)
    as [st1 [E1 [A1 [N1 [M1 T1]]]]].
  destruct (poll_retry st1 1 _ o1 (o2 :: o3 :: rest) A1 ltac:(lia) H1)
    as [st2 [E2 [A2 [N2 [M2 T2]]]]].
  destruct (poll_retry st2 2 _ o2 (o3 :: rest) A2 ltac:(lia) H2)
    as [st3 [E3 [A3 [N3 [M3 T3]]]]].
  destruct (poll_last st3 _ o3 rest A3 H3) as [Ht [Hf [Hm Htr]]].
  intros st'. subst st'. rewrite E1, E2, E3.
  split; [assumption|]. split; [assumption|].
  split; [congruence|].
  rewrite Htr, T3, T2, T1, N2, N1. simpl. rewrite <- !app_assoc. reflexivity.
Qed.

Lemma fetches_app tr1 tr2 : fetches (tr1 ++ tr2) = (fetches tr1 + fetches tr2)%nat.
Proof. unfold fetches. now rewrite List.filter_app, length_app. Qed.

Lemma refreshes_app tr1 tr2 : refreshes (tr1 ++ tr2) = (refreshes tr1 + refreshes tr2)%nat.
Proof. unfold refreshes. now rewrite List.filter_app, length_app. Qed.

Lemma clears_count hs :
  fetches (List.map AClearTimeout hs) = 0%nat
  /\ refreshes (List.map AClearTimeout hs) = 0%nat.
Proof. unfold fetches, refreshes. induction hs as [|x hs IH]; simpl; auto. Qed.

(** A send left alone whose message is found at attempt number
    [length before]: no fetch after that one, no refresh, nothing pending,
    and the optimistic entry replaced in place. *)
Lemma poll_stops_at_match before : forall st attempt h data q rest,
  awaiting st send attempt c h ->
  (attempt + length before <= 3)%nat ->
  Forall (noMatch (s_correlationId c)) before ->
  findPersisted (s_correlationId c) data = Some q ->
  let st' := poll (before ++ Resolved data :: rest) st in
  timers st' = [] /\ fetching st' = []
  /\ messages st' !! s_phoneNumber c
     = Some (replaceOptimistic (s_correlationId c) q
                               (default [] (messages st !! s_phoneNumber c)))
  /\ refreshes (trace st') = refreshes (trace st)
  /\ fetches (trace st') = (fetches (trace st) + length before + 1)%nat
  /\ In (AReplace send q) (trace st').
Proof.
  induction before as [|o before IH]; intros st attempt h data q rest Haw Hle Hall Hq.
  - destruct (poll_found st attempt h data q rest Haw Hq) as [Ht [Hf [Hm Htr]]].
    simpl app. cbv zeta. split; [assumption|]. split; [assumption|]. split; [assumption|].
    rewrite Htr.
    destruct (clears_count (default [] (retryTimersRef st !! s_phoneNumber c)))
      as [Hcf Hcr].
    split; [|split].
    + rewrite !refreshes_app, Hcr. unfold refreshes. simpl. lia.
    + rewrite !fetches_app, Hcf. unfold fetches. simpl. lia.
    + apply in_app_iff. right. apply in_app_iff. left. right. now left.
  - apply Forall_cons_iff in Hall as [Ho Hall]. simpl in Hle.
    destruct (poll_retry st attempt h o (before ++ Resolved data :: rest) Haw
                         ltac:(lia) Ho) as [st1 [E1 [A1 [N1 [M1 T1]]]]].
    specialize (IH st1 (S attempt) _ data q rest A1 ltac:(lia) Hall Hq).
    simpl app. cbv zeta in *. rewrite E1, <- M1.
    destruct IH as [Ht [Hf [Hm [Hr [Hfetch Hin]]]]].
    split; [assumption|]. split; [assumption|]. split; [assumption|].
    rewrite Hr, Hfetch, T1. split; [|split; [|assumption]].
    + rewrite refreshes_app. unfold refreshes. simpl. lia.
    + rewrite fetches_app. unfold fetches. simpl. lia.
Qed.
End PollFacts.

Lemma handleSend_awaiting p text response nowIso st :
  inheritedMember p st = false ->
  timers st = [] ->
  fetching st = [] ->
  awaiting (handleSend p text response nowIso st) (length (closures st)) 0
           (mkSendClosure p (requestId response) false) (nextHandle st).
Proof.
  intros Hinh Ht Hf. unfold awaiting, handleSend. rewrite Hinh.
  unfold scheduleAttempt, inheritedMember. simpl.
  rewrite clearRetryTimers_timers, clearRetryTimers_fetching, clearRetryTimers_closures,
    clearRetryTimers_nextHandle. simpl. rewrite Ht, Hf, lookup_insert_eq.
  split; [now destruct (retryTimersRef st !! p)|]. split; [reflexivity|].
  split; [|auto]. rewrite lookup_app_r by lia. now rewrite Nat.sub_diag.
Qed.

Lemma handleSend_trace p text response nowIso st :
  inheritedMember p st = false ->
  trace (handleSend p text response nowIso st)
  = trace st ++ List.map AClearTimeout (default [] (retryTimersRef st !! p))
    ++ [ASetTimeout (nextHandle st) (length (closures st)) 0 300].
Proof.
  intros Hinh. unfold handleSend. rewrite Hinh.
  unfold scheduleAttempt, clearRetryTimers. simpl.
  destruct (retryTimersRef st !! p); simpl; now rewrite <- ?app_assoc.
Qed.

Lemma handleSend_messages p text response nowIso st :
  messages (handleSend p text response nowIso st) !! p
  = Some (default [] (messages st !! p) ++ [optimisticMessage p text response nowIso]).
Proof.
  unfold handleSend. destruct (inheritedMember p st); [apply lookup_insert_eq|].
  unfold scheduleAttempt, clearRetryTimers. simpl.
  destruct (retryTimersRef st !! p); simpl; apply lookup_insert_eq.
Qed.

(** [handleSend] when the lookup of the retry timers throws: the
    optimistic message is shown and nothing else has changed. *)
Lemma handleSend_thrown p text response nowIso st :
  inheritedMember p st = true ->
  handleSend p text response nowIso st
  = mkClient (<[p := default [] (messages st !! p)
                     ++ [optimisticMessage p text response nowIso]]> (messages st))
             (retryTimersRef st) (timers st) (fetching st) (closures st)
             (nextHandle st) (trace st).
Proof. intros Hinh. unfold handleSend. now rewrite Hinh. Qed.

Lemma poll_idle outcomes st : timers st = [] -> poll outcomes st = st.
Proof. intros Ht. destruct outcomes; simpl; [reflexivity | now rewrite Ht]. Qed.

(** X9: with no other poll pending, a send whose message shows up in the fetch
    number [length before + 1 <= 4] stops there: that many fetches, no
    refresh, no timer left, and the entries carrying the send's key
    replaced in place by the persisted message.  This is so unless the
    phone number is the name of a member that [retryTimersRef.current]
    inherits and has no entry for: then the send starts no poll, nothing
    is fetched, and the optimistic message stays as it was appended. *)
Theorem poller_first_match_wins
        (p text : string) (response : SendSmsResponse) (nowIso : string) (st : Client)
        (before : list (Outcome (list Message))) (data : list Message) (q : Message)
        (rest : list (Outcome (list Message))) :
  timers st = [] -> fetching st = [] ->
  (length before <= 3)%nat ->
  Forall (noMatch (requestId response)) before ->
  findPersisted (requestId response) data = Some q ->
  let st' := poll (before ++ Resolved data :: rest) (handleSend p text response nowIso st) in
  timers st' = [] /\ fetching st' = []
  /\ if inheritedMember p st
     then fetches (trace st') = fetches (trace st)
          /\ refreshes (trace st') = refreshes (trace st)
          /\ messages st' !! p
             = Some (default [] (messages st !! p)
                     ++ [optimisticMessage p text response nowIso])
     else fetches (trace st') = (fetches (trace st) + length before + 1)%nat
          /\ refreshes (trace st') = refreshes (trace st)
          /\ messages st' !! p
             = Some (replaceOptimistic (requestId response) q
                       (default [] (messages st !! p)
                        ++ [optimisticMessage p text response nowIso])).
Proof.
  intros Ht Hf Hlen Hall Hq. cbv zeta.
  destruct (inheritedMember p st) eqn:Hinh.
  { rewrite poll_idle by (rewrite handleSend_thrown by assumption; exact Ht).
    rewrite handleSend_messages, handleSend_thrown by assumption. simpl. auto. }
  pose proof (handleSend_awaiting p text response nowIso st Hinh Ht Hf) as Haw.
  destruct (poll_stops_at_match _ _ before _ 0%nat _ data q rest Haw ltac:(simpl; lia) Hall Hq)
    as [Ht' [Hf' [Hm [Hr [Hfe _]]]]].
  cbn [s_phoneNumber s_correlationId] in Hm, Hr, Hfe.
  split; [assumption|]. split; [assumption|].
  rewrite handleSend_trace in Hr, Hfe by assumption.
  rewrite !refreshes_app in Hr. rewrite !fetches_app in Hfe.
  destruct (clears_count (default [] (retryTimersRef st !! p))) as [Hcf Hcr].
  rewrite Hcr in Hr. rewrite Hcf in Hfe. unfold refreshes in Hr at 3. unfold fetches in Hfe at 3.
  simpl in Hr, Hfe.
  split; [lia|]. split; [lia|].
  rewrite Hm, handleSend_messages. reflexivity.
Qed.

(** X10: with no other poll pending, a send whose message is in none of the four
    fetches issues exactly those four, 300, 600, 800 and 1200 ms after the
    previous step, and then calls the refresh once if the fourth fetch
    resolved, and not at all if it failed.  This is so unless the phone
    number is the name of a member that [retryTimersRef.current] inherits
    and has no entry for: then the send starts no poll and nothing is
    added to the trace. *)
Theorem poller_four_attempts
        (p text : string) (response : SendSmsResponse) (nowIso : string) (st : Client)
        (o0 o1 o2 o3 : Outcome (list Message)) (rest : list (Outcome (list Message))) :
  timers st = [] -> fetching st = [] ->
  Forall (noMatch (requestId response)) [o0; o1; o2; o3] ->
  let send := length (closures st) in
  let h := nextHandle st in
  let st' := poll (o0 :: o1 :: o2 :: o3 :: rest) (handleSend p text response nowIso st) in
  timers st' = [] /\ fetching st' = []
  /\ trace st'
     = if inheritedMember p st
       then trace st
       else trace st
            ++ List.map AClearTimeout (default [] (retryTimersRef st !! p))
            ++ [ASetTimeout h send 0 300; AFetch send 0;
                ASetTimeout (S h) send 1 600; AFetch send 1;
                ASetTimeout (S (S h)) send 2 800; AFetch send 2;
                ASetTimeout (S (S (S h))) send 3 1200; AFetch send 3]
            ++ (if isResolved o3 then [ARefresh p] else []).
Proof.
  intros Ht Hf Hall. cbv zeta.
  destruct (inheritedMember p st) eqn:Hinh.
  { rewrite poll_idle by (rewrite handleSend_thrown by assumption; exact Ht).
    rewrite handleSend_thrown by assumption. simpl. auto. }
  pose proof (handleSend_awaiting p text response nowIso st Hinh Ht Hf) as Haw.
  destruct (poll_exhausted _ _ _ _ o0 o1 o2 o3 rest Haw Hall) as [Ht' [Hf' [_ Htr]]].
  split; [assumption|]. split; [assumption|].
  rewrite Htr, handleSend_trace by assumption. simpl s_phoneNumber.
  assert (Hn : nextHandle (handleSend p text response nowIso st) = S (nextHandle st)).
  { unfold handleSend. rewrite Hinh. unfold scheduleAttempt. simpl.
    now rewrite clearRetryTimers_nextHandle. }
  rewrite Hn, <- !app_assoc. reflexivity.
Qed.

(** ** C9: the identifier of the reply as the join key *)






(** C4 at the failing input: when the fourth fetch of a send fails, the
    poll chain ends without the reconciliation refresh; the four fetches
    are all that happens and nothing stays pending. *)
Theorem poller_exhausted_by_error_skips_refresh :
  let st := poll lastFetchFails
                 (handleSend "9876543210" "hi" firstSend "2024-01-01T00:00:00.000Z" initial) in
  trace st = [ASetTimeout 0 0 0 300; AFetch 0 0;
              ASetTimeout 1 0 1 600; AFetch 0 1;
              ASetTimeout 2 0 2 800; AFetch 0 2;
              ASetTimeout 3 0 3 1200; AFetch 0 3]
  /\ fetches (trace st) = 4%nat
  /\ refreshes (trace st) = 0%nat
  /\ timers st = [] /\ fetching st = [].
Proof.
  vm_compute. repeat split.
Qed.

(** * Further properties *)

(** ** The stored message list *)

Section SortedFacts.
Context {A : Type} (cmp : A -> A -> Z) (key : A -> Z).

Lemma insertBy_In x y l : In y (insertBy cmp x l) <-> y = x \/ In y l.
Proof.
  split.
  - intros H. apply (Permutation_in _ (insertBy_perm cmp x l)) in H.
    destruct H as [<-|H]; auto.
  - intros H. apply (Permutation_in _ (Permutation_sym (insertBy_perm cmp x l))).
    destruct H as [->|H]; [now left | now right].
Qed.

Lemma insertBy_sorted x l :
  (forall a, In a l -> cmp x a = key x - key a) ->
  StronglySorted (fun a b => key a <= key b) l ->
  StronglySorted (fun a b => key a <= key b) (insertBy cmp x l).
Proof.
  induction l as [|y l IH]; simpl; intros Hcmp Hs.
  - constructor; [constructor | constructor].
  - apply StronglySorted_inv in Hs as [Hs Hy].
    destruct (Z.leb_spec (cmp x y) 0) as [Hle|Hgt].
    + rewrite (Hcmp y (or_introl eq_refl)) in Hle.
      constructor; [now constructor|].
      constructor; [lia|]. rewrite List.Forall_forall in Hy. apply List.Forall_forall.
      intros a Ha. specialize (Hy a Ha). simpl in Hy. lia.
    + rewrite (Hcmp y (or_introl eq_refl)) in Hgt.
      constructor.
      * apply IH; [|assumption]. intros a Ha. apply Hcmp. now right.
      * apply List.Forall_forall. intros a Ha. apply insertBy_In in Ha as [->|Ha]; [lia|].
        rewrite List.Forall_forall in Hy. now apply Hy.
Qed.

Lemma sortBy_sorted l :
  (forall a b, In a l -> In b l -> cmp a b = key a - key b) ->
  StronglySorted (fun a b => key a <= key b) (sortBy cmp l).
Proof.
  induction l as [|x l IH]; simpl; intros Hcmp.
  - constructor.
  - apply insertBy_sorted.
    + intros a Ha. apply sortBy_In in Ha. apply Hcmp; [now left | now right].
    + apply IH. intros a b Ha Hb. apply Hcmp; now right.
Qed.
End SortedFacts.

Lemma byCreatedAt_times getTime a b :
  parses getTime a -> parses getTime b ->
  byCreatedAt getTime a b = timeOf getTime a - timeOf getTime b.
Proof.
  unfold parses, byCreatedAt, timeOf. intros Ha Hb.
  destruct (getTime (m_createdAt a)); [|congruence].
  destruct (getTime (m_createdAt b)); [|congruence]. reflexivity.
Qed.

Lemma reconciled_from_inputs getTime preserveOptimistic now data current m :
  In m (reconciled getTime preserveOptimistic now data current) ->
  In m data \/ In m current.
Proof.
  unfold reconciled.
  destruct (preserveOptimistic && (0 <? Z.of_nat (length current))).
  - intros Hin. apply merged_entry in Hin as [Hlast|[_ Hfirst]].
    + left. apply firstWithKey_Some in Hlast as [Hin _]. now apply in_rev in Hin.
    + right. apply firstWithKey_Some in Hfirst as [Hin _].
      unfold optimisticMessages in Hin. now apply filter_In in Hin.
  - intros Hin. left. now apply sortBy_In in Hin.
Qed.

(** X1: the list that [loadMessages] stores is in ascending order of
    [createdAt] whenever the dates of the persisted and of the local
    messages parse, and holds nothing but persisted and local entries. *)
Theorem stored_list_is_sorted
        (getTime : string -> option Z) (preserveOptimistic : bool) (now : Z)
        (data current : list Message) :
  (forall m, In m data \/ In m current -> parses getTime m) ->
  StronglySorted (notAfter getTime)
                 (reconciled getTime preserveOptimistic now data current)
  /\ forall m, In m (reconciled getTime preserveOptimistic now data current) ->
               In m data \/ In m current.
Proof.
  intros Hparse. split; [|intros m; apply reconciled_from_inputs].
  assert (Hsorted : forall l, (forall m, In m l -> In m data \/ In m current) ->
                              StronglySorted (notAfter getTime)
                                             (sortBy (byCreatedAt getTime) l)).
  { intros l Hl. apply (sortBy_sorted _ (timeOf getTime)).
    intros a b Ha Hb. apply byCreatedAt_times; apply Hparse; auto. }
  unfold reconciled.
  destruct (preserveOptimistic && (0 <? Z.of_nat (length current))) eqn:Hmerge.
  - unfold merged. apply Hsorted. intros m Hin.
    apply (reconciled_from_inputs getTime preserveOptimistic now data current).
    unfold reconciled. rewrite Hmerge. unfold merged. now apply sortBy_In.
  - apply Hsorted. auto.
Qed.

Lemma stored_list_is_sorted_witness :
  reconciled IsoDate.getTime true threeSecondsLater [persistedSecond; persistedFirst]
             [freshOptimistic]
  = [persistedFirst; persistedSecond; freshOptimistic]
  /\ StronglySorted (notAfter IsoDate.getTime)
       (reconciled IsoDate.getTime true threeSecondsLater [persistedSecond; persistedFirst]
                   [freshOptimistic]).
Proof.
  split; [vm_compute; reflexivity|].
  destruct (stored_list_is_sorted IsoDate.getTime true threeSecondsLater
              [persistedSecond; persistedFirst] [freshOptimistic]) as [Hsorted _].
  - intros m [[<-|[<-|[]]]|[<-|[]]]; vm_compute; discriminate.
  - exact Hsorted.
Defined.

(** X2: a load that does not preserve optimistic messages (the Refresh
    button), or one that finds no local messages, stores the persisted
    messages and nothing else: each persisted message once, no local one
    kept. *)
Theorem refresh_shows_persisted_only
        (getTime : string -> option Z) (preserveOptimistic : bool) (now : Z)
        (data current : list Message) :
  preserveOptimistic = false \/ current = [] ->
  Permutation (reconciled getTime preserveOptimistic now data current) data.
Proof.
  intros Hcase. unfold reconciled.
  assert (Hoff : preserveOptimistic && (0 <? Z.of_nat (length current)) = false).
  { destruct Hcase as [->| ->]; [reflexivity | apply andb_false_r]. }
  rewrite Hoff. apply sortBy_perm.
Qed.

Lemma refresh_shows_persisted_only_witness :
  Permutation (reconciled IsoDate.getTime false threeSecondsLater
                          [persistedSecond; persistedFirst] [freshOptimistic])
              [persistedSecond; persistedFirst].
Proof.
  apply (refresh_shows_persisted_only IsoDate.getTime false threeSecondsLater
           [persistedSecond; persistedFirst] [freshOptimistic]).
  left. reflexivity.
Defined.



(** ** The push-channel callback, again *)

Lemma matchesEvent_withStatus data m s :
  matchesEvent data (withStatus m s) = matchesEvent data m.
Proof. reflexivity. Qed.

Lemma updated_twice data msgs : updated data (updated data msgs) = updated data msgs.
Proof.
  unfold updated. rewrite List.map_map. apply map_ext. intros m.
  destruct (matchesEvent data m) eqn:Hm.
  - rewrite matchesEvent_withStatus, Hm. reflexivity.
  - now rewrite Hm.
Qed.

Lemma updated_shape data msgs : sameShape (updated data msgs) msgs.
Proof.
  unfold sameShape, updated. rewrite List.map_map. apply map_ext. intros m.
  now destruct (matchesEvent data m).
Qed.

Lemma found_updated data msgs : found data (updated data msgs) = found data msgs.
Proof.
  unfold found, updated. induction msgs as [|m msgs IH]; simpl; [reflexivity|].
  rewrite IH. f_equal. destruct (matchesEvent data m) eqn:Hm; [|exact Hm].
  now rewrite matchesEvent_withStatus.
Qed.

(** X4: delivering the same status event twice leaves the same messages
    as delivering it once; an event never adds, removes or reorders
    messages nor changes anything but statuses, it leaves the other
    conversations alone, and it asks for a reload exactly when the
    conversation has messages and none of them matches. *)
Theorem push_event_is_idempotent
        (phoneNumber : string) (data : StatusEvent) (prev : gmap string (list Message)) :
  let once := onStatusEvent phoneNumber data prev in
  (onStatusEvent phoneNumber data once.1).1 = once.1
  /\ sameShape (default [] (once.1 !! phoneNumber)) (default [] (prev !! phoneNumber))
  /\ (forall other, other <> phoneNumber -> once.1 !! other = prev !! other)
  /\ (once.2 = true <->
      default [] (prev !! phoneNumber) <> []
      /\ forall m, In m (default [] (prev !! phoneNumber)) -> matchesEvent data m = false).
Proof.
  unfold onStatusEvent. simpl. split; [|split; [|split]].
  - rewrite lookup_insert_eq. simpl. rewrite updated_twice. apply insert_insert_eq.
  - rewrite lookup_insert_eq. simpl. apply updated_shape.
  - intros other Hne. now rewrite lookup_insert_ne.
  - rewrite andb_true_iff, negb_true_iff. unfold found.
    destruct (default [] (prev !! phoneNumber)) as [|m0 l] eqn:Hl.
    + simpl. split; [intros [_ H]; discriminate | intros [H _]; congruence].
    + split.
      * intros [Hnone _]. split; [discriminate|]. intros m Hin.
        destruct (matchesEvent data m) eqn:Hm; [|reflexivity].
        assert (Hex : existsb (matchesEvent data) (m0 :: l) = true).
        { apply existsb_exists. eauto. }
        congruence.
      * intros [_ Hall]. split; [|reflexivity].
        destruct (existsb (matchesEvent data) (m0 :: l)) eqn:Hex; [|reflexivity].
        apply existsb_exists in Hex as [m [Hin Hm]]. rewrite (Hall m Hin) in Hm. discriminate.
Qed.

(** ** The conversation list *)

Lemma NoDup_snoc {A : Type} (l : list A) (x : A) :
  List.NoDup l -> ~ In x l -> List.NoDup (l ++ [x]).
Proof.
  intros Hnd Hx. apply NoDup_ListNoDup, NoDup_app. split; [now apply NoDup_ListNoDup|]. split.
  - intros y Hy Hyx. apply list_elem_of_In in Hy. apply list_elem_of_In in Hyx as [Hyx|[]].
    now subst.
  - apply NoDup_singleton.
Qed.

Lemma NoDup_app_apart {A : Type} (l k : list A) (x : A) :
  List.NoDup (l ++ k) -> In x l -> In x k -> False.
Proof.
  intros Hnd Hl Hk. apply NoDup_ListNoDup, NoDup_app in Hnd as [_ [Hdis _]].
  apply (Hdis x); now apply list_elem_of_In.
Qed.

Section ConversationFacts.
Variable inherited : string -> bool.


Lemma visit_tidy acc num : tidy inherited acc -> tidy inherited (MessagingInterface.visit inherited acc num).
Proof.
  intros [Hnd [Hseen Hown]]. unfold MessagingInterface.visit, MessagingInterface.seenHas.
  destruct (inherited num) eqn:Hinh; simpl; [unfold tidy; auto|].
  destruct (bool_decide (num ∈ fst acc)) eqn:Hin; simpl; [unfold tidy; auto|].
  apply bool_decide_eq_false in Hin. split; [|split].
  - apply NoDup_snoc; [assumption|]. intros Hx. now apply Hin, Hseen.
  - intros x. simpl. rewrite elem_of_union, elem_of_singleton, in_app_iff, Hseen. simpl.
    split; intros [H|H]; auto. destruct H as [->|[]]. now left.
  - intros x Hx. simpl in Hx. apply in_app_iff in Hx as [Hx|[<-|[]]]; auto.
Qed.

Lemma visit_members acc num x :
  tidy inherited acc ->
  In x (snd (MessagingInterface.visit inherited acc num)) <-> In x (snd acc) \/ (x = num /\ inherited x = false).
Proof.
  intros [Hnd [Hseen Hown]]. unfold MessagingInterface.visit, MessagingInterface.seenHas.
  destruct (inherited num) eqn:Hinh; simpl.
  - split; [auto | intros [H|[-> H]]; [assumption | congruence]].
  - destruct (bool_decide (num ∈ fst acc)) eqn:Hin; simpl.
    + apply bool_decide_eq_true in Hin. apply Hseen in Hin.
      split; [auto | intros [H|[-> _]]; assumption].
    + rewrite in_app_iff. simpl. split.
      * intros [H|[<-|[]]]; auto.
      * intros [H|[-> _]]; auto.
Qed.

Lemma visit_extends acc num :
  exists one, snd (MessagingInterface.visit inherited acc num) = snd acc ++ one.
Proof.
  unfold MessagingInterface.visit.
  destruct (MessagingInterface.seenHas inherited (fst acc) num); simpl.
  - exists []. now rewrite app_nil_r.
  - now exists [num].
Qed.

Lemma fold_visit l : forall acc,
  tidy inherited acc ->
  tidy inherited (fold_left (MessagingInterface.visit inherited) l acc)
  /\ (forall x, In x (snd (fold_left (MessagingInterface.visit inherited) l acc)) <->
                In x (snd acc) \/ (In x l /\ inherited x = false))
  /\ exists added, snd (fold_left (MessagingInterface.visit inherited) l acc) = snd acc ++ added.
Proof.
  induction l as [|num l IH]; intros acc Hacc; simpl.
  - split; [assumption|]. split.
    + intros x. split; [auto | intros [H|[[] _]]; assumption].
    + exists []. now rewrite app_nil_r.
  - destruct (IH (MessagingInterface.visit inherited acc num) (visit_tidy acc num Hacc)) as [Ht [Hm [added Hadd]]].
    split; [assumption|]. split.
    + intros x. rewrite Hm, (visit_members acc num x Hacc). split.
      * intros [[H|[-> H]]|[H H']]; auto.
      * intros [H|[[<-|H] H']]; auto.
    + destruct (visit_extends acc num) as [one Hone]. rewrite Hone in Hadd.
      exists (one ++ added). now rewrite Hadd, <- app_assoc.
Qed.

Lemma fold_visit_fresh l : forall acc,
  tidy inherited acc ->
  List.NoDup l ->
  (forall x, In x l -> inherited x = false /\ ~ In x (snd acc)) ->
  snd (fold_left (MessagingInterface.visit inherited) l acc) = snd acc ++ l /\ tidy inherited (fold_left (MessagingInterface.visit inherited) l acc).
Proof.
  induction l as [|num l IH]; intros acc Hacc Hnd Hfresh; simpl.
  - split; [now rewrite app_nil_r | assumption].
  - apply NoDup_cons_iff in Hnd as [Hnum Hnd].
    destruct (Hfresh num (or_introl eq_refl)) as [Hinh Hout].
    assert (Hstep : snd (MessagingInterface.visit inherited acc num) = snd acc ++ [num]).
    { destruct Hacc as [_ [Hseen _]].
      unfold MessagingInterface.visit, MessagingInterface.seenHas. rewrite Hinh. simpl.
      rewrite bool_decide_eq_false_2; [reflexivity|]. intros H. now apply Hout, Hseen. }
    destruct (IH (MessagingInterface.visit inherited acc num) (visit_tidy acc num Hacc) Hnd) as [Heq Ht].
    + intros x Hx. destruct (Hfresh x (or_intror Hx)) as [Hi Ho]. split; [assumption|].
      rewrite Hstep, in_app_iff. simpl. intros [H|[<-|[]]]; auto.
    + split; [|assumption]. now rewrite Heq, Hstep, <- app_assoc.
Qed.
End ConversationFacts.

Lemma tidy_empty inherited : tidy inherited (∅, []).
Proof.
  unfold tidy. simpl. split; [constructor|]. split.
  - intros x. split; [intros H; now apply not_elem_of_empty in H | intros []].
  - intros x [].
Qed.

(** X5: the conversation list computed by [loadConversations] has no
    phone number twice; it holds exactly the numbers of the previous list
    and of the fetched one, except those that are property names every
    object inherits (for which the [seen] lookup is truthy from the start);
    and a previous list without duplicates and without such names is kept
    as it is, in its order, with the new numbers after it. *)
Theorem conversations_merged_without_duplicates
        (inherited : string -> bool) (prev phoneNumbers : list string) :
  let merged := MessagingInterface.mergeConversations inherited prev phoneNumbers in
  List.NoDup merged
  /\ (forall x, In x merged <->
                (In x prev \/ In x phoneNumbers) /\ inherited x = false)
  /\ (List.NoDup prev -> (forall x, In x prev -> inherited x = false) ->
      exists added, merged = prev ++ added
                    /\ forall x, In x added -> In x phoneNumbers /\ ~ In x prev).
Proof.
  unfold MessagingInterface.mergeConversations.
  destruct (fold_visit inherited (prev ++ phoneNumbers) (∅, []) (tidy_empty inherited))
    as [[Hnd _] [Hm _]].
  split; [assumption|]. split.
  - intros x. rewrite Hm, in_app_iff. simpl. tauto.
  - intros Hprev Hown. rewrite fold_left_app.
    destruct (fold_visit_fresh inherited prev (∅, []) (tidy_empty inherited) Hprev)
      as [Heq Ht].
    { intros x Hx. split; [now apply Hown | intros []]. }
    destruct (fold_visit inherited phoneNumbers _ Ht) as [[Hnd' _] [Hm' [added Hadd]]].
    simpl in Heq. rewrite Heq in Hadd, Hm'. exists added. split; [assumption|].
    intros x Hx. rewrite Hadd in Hnd'.
    assert (Hin : In x (prev ++ added)) by (apply in_app_iff; now right).
    rewrite <- Hadd in Hin. apply Hm' in Hin.
    assert (Hnot : ~ In x prev).
    { intros Hp. exact (NoDup_app_apart prev added x Hnd' Hp Hx). }
    destruct Hin as [Hin|[Hin _]]; [contradiction | auto].
Qed.

Lemma conversations_merged_without_duplicates_witness :
  MessagingInterface.mergeConversations inheritedName
    ["9876543210"; "5550001111"] ["5550001111"; "toString"; "9876543210"; "5550002222"]
  = ["9876543210"; "5550001111"; "5550002222"].
Proof.
  destruct (conversations_merged_without_duplicates inheritedName
              ["9876543210"; "5550001111"]
              ["5550001111"; "toString"; "9876543210"; "5550002222"])
    as [_ [_ Hkeep]].
  destruct Hkeep as [added [Heq _]].
  - repeat constructor; simpl; intuition discriminate.
  - intros x [<-|[<-|[]]]; reflexivity.
  - vm_compute. reflexivity.
Defined.

Lemma includes_In conversations phoneNumber :
  MessagingInterface.includes conversations phoneNumber = true <-> In phoneNumber conversations.
Proof.
  unfold MessagingInterface.includes. rewrite existsb_exists. split.
  - intros [x [Hin Heq]]. apply String.eqb_eq in Heq. now subst.
  - intros Hin. exists phoneNumber. split; [assumption | apply String.eqb_refl].
Qed.

(** X6: starting a conversation selects the number and lists it exactly
    once; for a number that is already listed nothing else changes, so its
    messages are never cleared; for a new number only that number's
    messages are set (to the empty list). *)
Theorem new_conversation_keeps_messages
        (phoneNumber : string) (conversations : list string)
        (msgs : gmap string (list Message)) :
  let '(conversations', msgs', selected) :=
    MessagingInterface.handleNewConversation phoneNumber conversations msgs in
  selected = phoneNumber
  /\ In phoneNumber conversations'
  /\ (List.NoDup conversations -> List.NoDup conversations')
  /\ (In phoneNumber conversations -> conversations' = conversations /\ msgs' = msgs)
  /\ (forall other, other <> phoneNumber -> msgs' !! other = msgs !! other).
Proof.
  unfold MessagingInterface.handleNewConversation.
  destruct (MessagingInterface.includes conversations phoneNumber) eqn:Hinc; simpl.
  - apply includes_In in Hinc. repeat split; auto.
  - assert (Hnot : ~ In phoneNumber conversations).
    { intros H. apply includes_In in H. congruence. }
    split; [reflexivity|]. split; [apply in_app_iff; right; now left|].
    split; [intros Hnd; now apply NoDup_snoc|]. split; [contradiction|].
    intros other Hne. now rewrite lookup_insert_ne.
Qed.

(** ** Timers in every interleaving *)

Lemma cleanup_In entries : forall queue t,
  In t (fold_left (fun queue entry =>
                     fold_left (fun q h => clearTimeout h q) (@snd string (list nat) entry) queue)
                  entries queue)
  <-> In t queue /\ forall entry, In entry entries -> listed (snd entry) t = false.
Proof.
  induction entries as [|e entries IH]; intros queue t; simpl.
  - split; [intros H; split; [assumption | intros ? []] | now intros [H _]].
  - rewrite IH, clearAll_filter, filter_In, negb_true_iff. split.
    + intros [[Hq He] Hall]. split; [assumption|]. intros entry [<-|Hin]; auto.
    + intros [Hq Hall]. split; [split; [assumption | apply Hall; now left]|].
      intros entry Hin. apply Hall. now right.
Qed.

(** X7: in every state the client can reach, the cleanup that runs when
    the component unmounts cancels every pending poll timer: each of them
    is listed in [retryTimersRef]. *)
Theorem unmount_clears_every_timer (st : Client) :
  reachable st -> MessagingInterface.cleanup st = [].
Proof.
  intros Hreach. apply reachable_wellTracked in Hreach as [Htimer _].
  unfold MessagingInterface.cleanup.
  destruct (fold_left _ (map_to_list (retryTimersRef st)) (timers st)) as [|t rest] eqn:Hleft;
    [reflexivity|].
  assert (Hin : In t (t :: rest)) by now left.
  rewrite <- Hleft in Hin. apply cleanup_In in Hin as [Hq Hall].
  destruct (Htimer t Hq) as [_ [p [hs [_ [Href Hh]]]]].
  assert (Hentry : In (p, hs) (map_to_list (retryTimersRef st))).
  { apply list_elem_of_In, elem_of_map_to_list. exact Href. }
  apply Hall in Hentry. simpl in Hentry. apply listed_In in Hh. congruence.
Qed.

Lemma unmount_clears_every_timer_witness :
  exists st, run busyClient initial = Some st
             /\ List.map t_handle (timers st) = [1; 2]%nat
             /\ MessagingInterface.cleanup st = [].
Proof.
  destruct (run busyClient initial) as [st|] eqn:Hrun; [|discriminate Hrun].
  exists st. split; [reflexivity|].
  assert (Hreach : reachable st) by (eexists; exact Hrun).
  pose proof (unmount_clears_every_timer st Hreach) as Hclean.
  vm_compute in Hrun. inversion Hrun; subst st; clear Hrun.
  split; [vm_compute; reflexivity | exact Hclean].
Defined.

Section ChainFacts.

Lemma filter_swap {A : Type} (f g : A -> bool) (l : list A) :
  List.filter f (List.filter g l) = List.filter g (List.filter f l).
Proof.
  induction l as [|a l IH]; simpl; [reflexivity|].
  destruct (f a) eqn:Hf, (g a) eqn:Hg; simpl; rewrite ?Hf, ?Hg, IH; reflexivity.
Qed.

Lemma filter_true {A : Type} (l : list A) : l = List.filter (fun _ => true) l.
Proof. symmetry. now apply filter_keeps_all. Qed.

Lemma fetchesOf_app send tr1 tr2 :
  fetchesOf send (tr1 ++ tr2) = (fetchesOf send tr1 + fetchesOf send tr2)%nat.
Proof. unfold fetchesOf. now rewrite List.filter_app, length_app. Qed.

Lemma fetchesOf_clears send hs : fetchesOf send (List.map AClearTimeout hs) = 0%nat.
Proof. unfold fetchesOf. induction hs as [|h hs IH]; simpl; auto. Qed.

Lemma chainOK_drop ts cs n (f : Timer -> bool) (g : nat * nat -> bool) :
  chainOK ts cs n -> chainOK (List.filter f ts) (List.filter g cs) n.
Proof.
  intros [[-> [-> Hn]]|[[t [-> [-> [Ha Hn]]]]|[call [-> [-> [Ha Hn]]]]]]; simpl.
  - left. auto.
  - destruct (f t).
    + right. left. exists t. auto.
    + left. repeat split. lia.
  - destruct (g call).
    + right. right. exists call. auto.
    + left. repeat split. lia.
Qed.

(** Timers and fetches may go away, the trace may grow by anything but
    fetches, sends may be added: the chains stay in order. *)
Lemma chains_transfer st st' (f : Timer -> bool) (g : nat * nat -> bool) :
  timers st' = List.filter f (timers st) ->
  fetching st' = List.filter g (fetching st) ->
  (forall send, fetchesOf send (trace st') = fetchesOf send (trace st)) ->
  (length (closures st) <= length (closures st'))%nat ->
  chains st -> chains st'.
Proof.
  intros Ht Hf Htr Hlen Hst send. destruct (Hst send) as [Hok Hnew].
  unfold timersOfSend, callsOfSend in *. rewrite Ht, Hf, Htr.
  rewrite (filter_swap _ f), (filter_swap _ g). split.
  - now apply chainOK_drop.
  - intros Hge. destruct Hnew as [-> [-> ->]]; [lia|]. auto.
Qed.

Lemma chains_clearRetryTimers p st : chains st -> chains (clearRetryTimers p st).
Proof.
  intros Hst.
  destruct (retryTimersRef st !! p) as [hs|] eqn:Hp.
  - apply (chains_transfer st _ (fun t => negb (listed hs t)) (fun _ => true)).
    + now rewrite clearRetryTimers_timers, Hp.
    + rewrite clearRetryTimers_fetching. apply filter_true.
    + intros send. unfold clearRetryTimers. rewrite Hp. simpl.
      now rewrite fetchesOf_app, fetchesOf_clears, Nat.add_0_r.
    + now rewrite clearRetryTimers_closures.
    + assumption.
  - unfold clearRetryTimers. now rewrite Hp.
Qed.

Lemma chains_scheduleAttempt p send attempt st :
  chains st ->
  (send < length (closures st))%nat ->
  timersOfSend send st = [] ->
  callsOfSend send st = [] ->
  fetchesOf send (trace st) = attempt ->
  (attempt <= 3)%nat ->
  chains (scheduleAttempt p send attempt st).
Proof.
  intros Hst Hlt Hts Hcs Hn Ha send'. destruct (Hst send') as [Hok Hnew].
  unfold timersOfSend, callsOfSend, scheduleAttempt in *. simpl.
  rewrite List.filter_app, fetchesOf_app. simpl.
  replace (fetchesOf send' [ASetTimeout (nextHandle st) send attempt
                                        (nth attempt pollDelays 0)]) with 0%nat by reflexivity.
  rewrite Nat.add_0_r.
  destruct (Nat.eqb_spec send send') as [<-|Hne].
  - rewrite Hts, Hcs. simpl. split.
    + right. left. eexists. repeat split; simpl; auto.
    + intros Hge. lia.
  - rewrite app_nil_r. auto.
Qed.

Lemma chains_handleSend p text response nowIso st :
  chains st -> chains (handleSend p text response nowIso st).
Proof.
  intros Hst. unfold handleSend.
  destruct (inheritedMember p st).
  { apply (chains_transfer st _ (fun _ => true) (fun _ => true)); try assumption.
    - apply filter_true.
    - apply filter_true.
    - reflexivity.
    - simpl. lia. }
  set (st1 := mkClient _ _ _ _ (closures st ++ _) _ _).
  assert (H1 : chains st1).
  { apply (chains_transfer st st1 (fun _ => true) (fun _ => true)); try assumption.
    - apply filter_true.
    - apply filter_true.
    - reflexivity.
    - simpl. rewrite length_app. lia. }
  destruct (Hst (length (closures st))) as [_ Hnew].
  destruct Hnew as [Hts [Hcs Hn]]; [lia|].
  pose proof (chains_clearRetryTimers p st1 H1) as H2.
  apply chains_scheduleAttempt; try assumption.
  - rewrite clearRetryTimers_closures. simpl. rewrite length_app. simpl. lia.
  - destruct (H2 (length (closures st))) as [Hok _].
    unfold timersOfSend in *. rewrite clearRetryTimers_timers.
    destruct (retryTimersRef st1 !! p); simpl; [|exact Hts].
    rewrite filter_swap. simpl in Hts. now rewrite Hts.
  - unfold callsOfSend in *. now rewrite clearRetryTimers_fetching.
  - unfold clearRetryTimers. destruct (retryTimersRef st1 !! p); simpl; [|exact Hn].
    now rewrite fetchesOf_app, fetchesOf_clears, Nat.add_0_r.
  - lia.
Qed.

Lemma chains_fire h st st' : fire h st = Some st' -> chains st -> chains st'.
Proof.
  unfold fire. intros Hfire Hst.
  destruct (List.find _ (timers st)) as [t|] eqn:Hfind; [|discriminate].
  apply find_some in Hfind as [Hin Hh].
  destruct (closures st !! t_send t) as [c|] eqn:Hc; [|discriminate].
  destruct (s_messageFound c).
  - inversion Hfire; subst st'; clear Hfire.
    apply (chains_transfer st _ (fun t' => negb (Nat.eqb (t_handle t') h)) (fun _ => true));
      try assumption; simpl; auto using filter_true.
  - inversion Hfire; subst st'; clear Hfire. intros send.
    destruct (Hst send) as [Hok Hnew].
    assert (HT : timersOfSend send
                   (mkClient (messages st) (retryTimersRef st) (clearTimeout h (timers st))
                             (fetching st ++ [(t_send t, t_attempt t)]) (closures st)
                             (nextHandle st) (trace st ++ [AFetch (t_send t) (t_attempt t)]))
                 = List.filter (fun t' => negb (Nat.eqb (t_handle t') h))
                               (timersOfSend send st)).
    { unfold timersOfSend, clearTimeout. simpl. apply filter_swap. }
    assert (HC : callsOfSend send
                   (mkClient (messages st) (retryTimersRef st) (clearTimeout h (timers st))
                             (fetching st ++ [(t_send t, t_attempt t)]) (closures st)
                             (nextHandle st) (trace st ++ [AFetch (t_send t) (t_attempt t)]))
                 = callsOfSend send st
                   ++ (if Nat.eqb (t_send t) send then [(t_send t, t_attempt t)] else [])).
    { unfold callsOfSend. simpl. now rewrite List.filter_app. }
    assert (HN : fetchesOf send (trace st ++ [AFetch (t_send t) (t_attempt t)])
                 = (fetchesOf send (trace st)
                    + (if Nat.eqb (t_send t) send then 1 else 0))%nat).
    { rewrite fetchesOf_app. unfold fetchesOf at 2. simpl.
      now destruct (Nat.eqb (t_send t) send). }
    rewrite HT, HC. simpl trace. rewrite HN. clear HT HC HN.
    destruct (Nat.eqb_spec (t_send t) send) as [Heq|Hne].
    + assert (Hmine : In t (timersOfSend send st)).
      { apply filter_In. split; [assumption | now apply Nat.eqb_eq]. }
      destruct Hok as [[Hts _]|[[t' [Hts [Hcs [Ha Hn]]]]|[call [Hts _]]]];
        try (rewrite Hts in Hmine; contradiction).
      rewrite Hts in Hmine. destruct Hmine as [->|[]].
      rewrite Hts, Hcs. simpl. rewrite Hh. simpl. split.
      * right. right. exists (t_send t, t_attempt t). simpl. repeat split; auto. lia.
      * intros Hge. apply lookup_lt_Some in Hc. lia.
    + rewrite app_nil_r, Nat.add_0_r. split.
      * rewrite (filter_true (callsOfSend send st)). now apply chainOK_drop.
      * intros Hge. destruct Hnew as [-> [-> ->]]; auto.
Qed.

Lemma sameCall_eq a b : sameCall a b = true <-> a = b.
Proof.
  unfold sameCall. rewrite andb_true_iff, !Nat.eqb_eq. destruct a, b; simpl.
  split; [intros [-> ->]; reflexivity | intros H; inversion H; auto].
Qed.

Lemma chains_settle send attempt fetched st st' :
  settle send attempt fetched st = Some st' -> ownEntries st -> chains st -> chains st'.
Proof.
  unfold settle. intros Hsettle Hentries Hst.
  destruct (negb (existsb (sameCall (send, attempt)) (fetching st))) eqn:Hex; [discriminate|].
  destruct (closures st !! send) as [c|] eqn:Hc; [|discriminate].
  cbv zeta in Hsettle. rewrite (Hentries send c Hc) in Hsettle.
  apply negb_false_iff, existsb_exists in Hex as [call [Hin Hsame]].
  apply sameCall_eq in Hsame. subst call.
  set (st0 := mkClient (messages st) (retryTimersRef st) (timers st)
                       (List.filter _ (fetching st)) (closures st) (nextHandle st)
                       (trace st)) in *.
  assert (H0 : chains st0).
  { apply (chains_transfer st st0 (fun _ => true)
             (fun call => negb (sameCall (send, attempt) call))); auto using filter_true. }
  (* where the send stands once its fetch is taken out *)
  assert (Hmine : timersOfSend send st0 = [] /\ callsOfSend send st0 = []
                  /\ fetchesOf send (trace st0) = S attempt /\ (attempt <= 3)%nat).
  { destruct (Hst send) as [Hok _].
    assert (Hcall : In (send, attempt) (callsOfSend send st)).
    { apply filter_In. split; [assumption | apply Nat.eqb_refl]. }
    unfold timersOfSend, callsOfSend in *. simpl.
    destruct Hok as [[_ [Hcs _]]|[[t [_ [Hcs _]]]|[call [Hts [Hcs [Ha Hn]]]]]];
      try (rewrite Hcs in Hcall; contradiction).
    rewrite Hcs in Hcall. destruct Hcall as [->|[]]. simpl in *.
    rewrite filter_swap, Hcs. simpl. rewrite sameCall_refl. simpl. auto. }
  destruct Hmine as [Hts [Hcs [Hn Ha]]].
  assert (Hlt : (send < length (closures st0))%nat) by now apply lookup_lt_Some in Hc.
  assert (Hretry : (attempt < 3)%nat ->
                   chains (scheduleAttempt (s_phoneNumber c) send (S attempt) st0)).
  { intros H3. apply chains_scheduleAttempt; auto. }
  assert (Hcond : forall b, (Z.of_nat attempt <? Z.of_nat (length pollDelays) - 1) && b = true ->
                            (attempt < 3)%nat).
  { intros b Hb. apply andb_true_iff in Hb as [Hb _]. apply Z.ltb_lt in Hb. simpl in Hb. lia. }
  destruct fetched as [data|message].
  - destruct (findPersisted (s_correlationId c) data) as [q|].
    + inversion Hsettle; subst st'; clear Hsettle.
      apply chains_clearRetryTimers.
      apply (chains_transfer st0 _ (fun _ => true) (fun _ => true));
        auto using filter_true.
      * intros s. simpl. rewrite fetchesOf_app. unfold fetchesOf at 2. simpl. lia.
      * simpl. now rewrite length_insert.
    + destruct ((Z.of_nat attempt <? Z.of_nat (length pollDelays) - 1)
                && negb (s_messageFound c)) eqn:Hb.
      * inversion Hsettle; subst st'. eauto.
      * destruct (negb (s_messageFound c)); inversion Hsettle; subst st'; [|assumption].
        apply (chains_transfer st0 _ (fun _ => true) (fun _ => true));
          auto using filter_true.
        intros s. simpl. rewrite fetchesOf_app. unfold fetchesOf at 2. simpl. lia.
  - destruct ((Z.of_nat attempt <? Z.of_nat (length pollDelays) - 1)
              && negb (s_messageFound c)) eqn:Hb; inversion Hsettle; subst st'; eauto.
Qed.

Lemma chains_initial : chains initial.
Proof.
  intros send. unfold timersOfSend, callsOfSend, fetchesOf, initial. simpl. split.
  - left. repeat split. lia.
  - auto.
Qed.

Lemma chains_run events : forall st st',
  run events st = Some st' -> ownEntries st -> chains st -> chains st'.
Proof.
  induction events as [|e events IH]; intros st st'; simpl.
  - intros Heq; now inversion Heq; subst.
  - destruct (step e st) as [st1|] eqn:Hstep; [|discriminate].
    intros Hrun Hentries Hst.
    apply (IH st1 st' Hrun); [now apply (ownEntries_step e st)|].
    destruct e as [p text response nowIso|h|send attempt fetched]; simpl in Hstep.
    + destruct (truthy p && truthy text); [|discriminate].
      inversion Hstep; subst st1. now apply chains_handleSend.
    + now apply (chains_fire h st).
    + now apply (chains_settle send attempt fetched st).
Qed.

End ChainFacts.

(** X8: however sends, timers and fetches interleave, a send issues at
    most four poll fetches, and at any moment it has at most one poll step
    outstanding, a pending timer or a fetch in flight. *)
Theorem each_send_polls_at_most_four_times (st : Client) (send : nat) :
  reachable st ->
  (fetchesOf send (trace st) <= 4)%nat
  /\ (length (timersOfSend send st) + length (callsOfSend send st) <= 1)%nat.
Proof.
  intros [events Hrun].
  destruct (chains_run events initial st Hrun ownEntries_initial chains_initial send)
    as [Hok _].
  destruct Hok as [[-> [-> Hn]]|[[t [-> [-> [Ha ->]]]]|[call [-> [-> [Ha ->]]]]]];
    simpl; lia.
Qed.

Lemma each_send_polls_at_most_four_times_witness :
  exists st, run busyClient initial = Some st
             /\ fetchesOf 0 (trace st) = 1%nat
             /\ (fetchesOf 0 (trace st) <= 4)%nat
             /\ (length (timersOfSend 0 st) + length (callsOfSend 0 st) <= 1)%nat.
Proof.
  destruct (run busyClient initial) as [st|] eqn:Hrun; [|discriminate Hrun].
  exists st. split; [reflexivity|].
  assert (Hreach : reachable st) by (eexists; exact Hrun).
  destruct (each_send_polls_at_most_four_times st 0 Hreach) as [Hfour Hone].
  vm_compute in Hrun. inversion Hrun; subst st; clear Hrun.
  split; [vm_compute; reflexivity|]. split; [exact Hfour | exact Hone].
Defined.

(** ** The poll chain of one send *)

Lemma poller_first_match_wins_witness :
  let st' := poll [Resolved []; Resolved [delivered]; Resolved []]
                  (handleSend "+15551234567" "hi" firstSend "2024-01-01T00:00:00.000Z" initial) in
  timers st' = [] /\ fetching st' = []
  /\ fetches (trace st') = 2%nat
  /\ refreshes (trace st') = 0%nat
  /\ messages st' !! "+15551234567" = Some [delivered].
Proof.
  destruct (poller_first_match_wins "+15551234567" "hi" firstSend "2024-01-01T00:00:00.000Z"
              initial [Resolved []] [delivered] delivered [Resolved []]
              eq_refl eq_refl ltac:(simpl; lia)
              ltac:(repeat constructor) eq_refl)
    as [Ht [Hf [Hfe [Hr Hm]]]].
  split; [exact Ht|]. split; [exact Hf|]. split; [exact Hfe|]. split; [exact Hr|].
  exact Hm.
Defined.

Lemma poller_four_attempts_witness :
  let st' := poll [Resolved []; Rejected "Network Error"; Resolved []; Resolved [persistedFirst]]
                  (handleSend "+15551234567" "hi" firstSend "2024-01-01T00:00:00.000Z" initial) in
  timers st' = [] /\ fetching st' = []
  /\ trace st' = [ASetTimeout 0 0 0 300; AFetch 0 0;
                  ASetTimeout 1 0 1 600; AFetch 0 1;
                  ASetTimeout 2 0 2 800; AFetch 0 2;
                  ASetTimeout 3 0 3 1200; AFetch 0 3;
                  ARefresh "+15551234567"].
Proof.
  destruct (poller_four_attempts "+15551234567" "hi" firstSend "2024-01-01T00:00:00.000Z"
              initial (Resolved []) (Rejected "Network Error") (Resolved [])
              (Resolved [persistedFirst]) []
              eq_refl eq_refl
              ltac:(repeat constructor))
    as [Ht [Hf Htr]].
  split; [exact Ht|]. split; [exact Hf|]. exact Htr.
Defined.

(** ** api.ts *)

Lemma orElse_truthy (a : option string) (b : string) :
  truthy b = true -> truthy (orElse a b) = true.
Proof.
  intros Hb. unfold orElse. destruct a as [s|]; [|exact Hb].
  destruct (truthy s) eqn:Hs; [exact Hs | exact Hb].
Qed.

Lemma orElse_first (a b : string) :
  truthy a = true -> orElse (Some a) b = a.
Proof. intros Ha. unfold orElse. now rewrite Ha. Qed.

Lemma truthy_nonempty (s : string) : truthy s = true -> s <> "".
Proof. intros Hs ->. discriminate Hs. Qed.

(** X11: a rejected send always carries a message that is not empty, and
    it is the server's [message] whenever the reply has one. *)
Theorem send_failure_has_message
        (SMS_API_BASE : string) (posted : AxiosResult SendSmsResponse) (msg : string) :
  sendSms SMS_API_BASE posted = Rejected msg ->
  msg <> ""
  /\ forall message status data serverMessage,
       posted = AxiosHttpError message status data ->
       data_message data = Some serverMessage ->
       serverMessage <> "" ->
       msg = serverMessage.
Proof.
  intros Hsend. destruct posted as [data|message status data|message];
    unfold sendSms in Hsend.
  - discriminate Hsend.
  - inversion Hsend as [Hmsg]. clear Hsend. split.
    + apply truthy_nonempty. do 2 (apply orElse_truthy).
      destruct (truthy message) eqn:Hm; [exact Hm | reflexivity].
    + intros message' status' data' serverMessage Heq Hdata Hne.
      inversion Heq; subst message' status' data'. rewrite Hdata.
      apply orElse_first. unfold truthy. now apply negb_true_iff, String.eqb_neq.
  - inversion Hsend as [Hmsg]. split; [discriminate|].
    intros message' status' data' serverMessage Heq. discriminate Heq.
Qed.

Lemma send_failure_has_message_witness :
  sendSms "http://localhost:8081"
          (AxiosHttpError "Request failed with status code 403" 403
             (mkErrorData (Some "User is blocked") (Some "Forbidden")))
  = Rejected "User is blocked"
  /\ "User is blocked" <> "".
Proof.
  split; [reflexivity|].
  destruct (send_failure_has_message "http://localhost:8081"
              (AxiosHttpError "Request failed with status code 403" 403
                 (mkErrorData (Some "User is blocked") (Some "Forbidden")))
              "User is blocked" eq_refl) as [Hne _].
  exact Hne.
Defined.

(** X12: reading all messages never rejects, and reading the conversation
    list rejects only when no response came back; every reply with an
    error status is turned into an empty list. *)
Theorem store_reads_fail_soft (STORE_API_BASE nowIso : string) :
  (forall got, exists l, Api.getAllMessages nowIso got = Resolved l)
  /\ (forall got msg, Api.getConversations STORE_API_BASE got = Rejected msg ->
                      exists message, got = AxiosNoResponse message)
  /\ (forall message status data,
        Api.getAllMessages nowIso (AxiosHttpError message status data) = Resolved []
        /\ Api.getConversations STORE_API_BASE (AxiosHttpError message status data)
           = Resolved [])
  /\ (forall message, Api.getAllMessages nowIso (AxiosNoResponse message) = Resolved []).
Proof.
  split; [|split; [|split]].
  - intros [data|message status data|message]; simpl; eauto.
    destruct (status =? 404); eauto.
  - intros [data|message status data|message] msg; simpl; intros Heq;
      try discriminate Heq. eauto.
  - intros message status data. simpl. split; [|reflexivity].
    now destruct (status =? 404).
  - reflexivity.
Qed.

Lemma dated_entry (nowIso : string) (msg : Message) :
  nowIso <> "" ->
  orElse (Some (m_createdAt msg)) nowIso <> "".
Proof.
  intros Hnow. unfold orElse. destruct (truthy (m_createdAt msg)) eqn:Ht.
  - now apply truthy_nonempty.
  - exact Hnow.
Qed.

(** X13: the messages that [getUserMessages] and [getAllMessages] hand on
    are the received ones, one for one and in the same order, each with a
    [createdAt] that is not empty: an entry that has a date is passed on
    unchanged, and one without is passed on with the current time as its
    date and nothing else changed. *)
Theorem fetched_messages_are_dated
        (STORE_API_BASE nowIso : string) (data : option (list Message)) :
  nowIso <> "" ->
  exists out,
    getUserMessages STORE_API_BASE nowIso (AxiosResponse data) = Resolved out
    /\ Api.getAllMessages nowIso (AxiosResponse data) = Resolved out
    /\ List.map m_id out = List.map m_id (default [] data)
    /\ keysOf out = keysOf (default [] data)
    /\ Forall (fun m => m_createdAt m <> "") out
    /\ (forall i m, default [] data !! i = Some m -> m_createdAt m <> "" -> out !! i = Some m)
    /\ (forall i m, default [] data !! i = Some m -> m_createdAt m = "" ->
                    out !! i = Some (mkMessage (m_id m) (m_correlationId m) (m_phoneNumber m)
                                               (m_text m) (m_status m) nowIso)).
Proof.
  intros Hnow. eexists. split; [reflexivity|]. split; [reflexivity|].
  generalize (default [] data) as l. intros l.
  split; [|split; [|split; [|split]]].
  - rewrite List.map_map. now apply List.map_ext.
  - unfold keysOf. rewrite List.map_map. now apply List.map_ext.
  - apply List.Forall_forall. intros m Hm. apply in_map_iff in Hm as [m' [<- _]].
    now apply dated_entry.
  - induction l as [|m l IH]; intros i m' Hi Hdate; [discriminate Hi|].
    destruct i as [|i]; simpl in Hi |- *.
    + inversion Hi; subst m'. f_equal. destruct m as [id c p t s created]. simpl in *.
      f_equal. apply orElse_first. unfold truthy. now apply negb_true_iff, String.eqb_neq.
    + now apply IH.
  - induction l as [|m l IH]; intros i m' Hi Hdate; [discriminate Hi|].
    destruct i as [|i]; simpl in Hi |- *.
    + inversion Hi; subst m'. rewrite Hdate. reflexivity.
    + now apply IH.
Qed.

Lemma fetched_messages_are_dated_witness :
  exists out,
    getUserMessages "http://localhost:8082" "2024-01-01T00:00:05.000Z"
      (AxiosResponse (Some [persistedFirst; mkMessage "msg-3" None "+15551234567" "x" "SUCCESS" ""]))
    = Resolved out
    /\ Forall (fun m => m_createdAt m <> "") out
    /\ out !! 0%nat = Some persistedFirst
    /\ out !! 1%nat = Some (mkMessage "msg-3" None "+15551234567" "x" "SUCCESS"
                                     "2024-01-01T00:00:05.000Z").
Proof.
  destruct (fetched_messages_are_dated "http://localhost:8082" "2024-01-01T00:00:05.000Z"
              (Some [persistedFirst; mkMessage "msg-3" None "+15551234567" "x" "SUCCESS" ""])
              ltac:(discriminate))
    as [out [Hout [_ [_ [_ [Hdated [Hsame Hstamped]]]]]]].
  exists out. split; [exact Hout|]. split; [exact Hdated|]. split.
  - apply Hsame; [reflexivity | discriminate].
  - apply (Hstamped 1%nat (mkMessage "msg-3" None "+15551234567" "x" "SUCCESS" ""));
      reflexivity.
Defined.

(** ** The conversation list *)

Lemma sorted_head_least {A : Type} (key : A -> Z) (x : A) (l : list A) :
  StronglySorted (fun a b => key a <= key b) (x :: l) ->
  forall y, In y (x :: l) -> key x <= key y.
Proof.
  intros Hs y [<-|Hy]; [lia|].
  apply StronglySorted_inv in Hs as [_ Hall].
  rewrite List.Forall_forall in Hall. now apply Hall.
Qed.

Lemma newestFirst_times getTime a b :
  parses getTime a -> parses getTime b ->
  ConversationList.newestFirst getTime a b
  = (- timeOf getTime a) - (- timeOf getTime b).
Proof.
  unfold parses, ConversationList.newestFirst, timeOf. intros Ha Hb.
  destruct (getTime (m_createdAt a)); [|congruence].
  destruct (getTime (m_createdAt b)); [|congruence]. simpl. lia.
Qed.

(** X14: the conversation list shows no last message exactly for a
    conversation without messages; otherwise it shows one of the
    conversation's messages, and when the dates parse none of the others
    is more recent. *)
Theorem last_message_is_most_recent
        (getTime : string -> option Z) (phoneNumber : string)
        (msgs : gmap string (list Message)) :
  let conversationMessages := default [] (msgs !! phoneNumber) in
  (ConversationList.getLastMessage getTime phoneNumber msgs = None
   <-> conversationMessages = [])
  /\ forall last,
       ConversationList.getLastMessage getTime phoneNumber msgs = Some last ->
       In last conversationMessages
       /\ ((forall m, In m conversationMessages -> parses getTime m) ->
           forall m, In m conversationMessages -> timeOf getTime m <= timeOf getTime last).
Proof.
  cbv zeta. unfold ConversationList.getLastMessage.
  destruct (default [] (msgs !! phoneNumber)) as [|m0 l] eqn:Hl.
  - split; [tauto|]. intros last Heq. discriminate Heq.
  - destruct (sortBy (ConversationList.newestFirst getTime) (m0 :: l)) as [|x sorted] eqn:Hs.
    + pose proof (sortBy_perm (ConversationList.newestFirst getTime) (m0 :: l)) as Hp.
      rewrite Hs in Hp. apply Permutation_nil in Hp. discriminate Hp.
    + split; [split; intros Heq; discriminate Heq|].
      intros last Heq. simpl in Heq. inversion Heq; subst last.
      assert (Hx : In x (m0 :: l)).
      { apply (sortBy_In (ConversationList.newestFirst getTime)). rewrite Hs. now left. }
      split; [exact Hx|].
      intros Hparse m Hm.
      pose proof (sortBy_sorted (ConversationList.newestFirst getTime)
                    (fun m => - timeOf getTime m) (m0 :: l)
                    (fun a b Ha Hb => newestFirst_times getTime a b (Hparse a Ha) (Hparse b Hb)))
        as Hsorted.
      rewrite Hs in Hsorted.
      assert (Hm' : In m (x :: sorted)).
      { rewrite <- Hs. now apply (sortBy_In (ConversationList.newestFirst getTime)). }
      pose proof (sorted_head_least _ x sorted Hsorted m Hm'). simpl in *. lia.
Qed.

Lemma length_append (a b : string) :
  String.length (a +:+ b) = (String.length a + String.length b)%nat.
Proof. induction a as [|c a IH]; simpl; [reflexivity | now rewrite IH]. Qed.

Lemma length_substring (n : nat) (s : string) :
  (String.length (substring 0 n s) <= n)%nat.
Proof.
  revert s. induction n as [|n IH]; intros [|c s]; simpl; try lia.
  specialize (IH s). lia.
Qed.

(** X15: the preview of a conversation is never longer than 43
    characters, and a last message of at most 40 characters is shown in
    full. *)
Theorem preview_is_short
        (getTime : string -> option Z) (phoneNumber : string)
        (msgs : gmap string (list Message)) :
  (String.length (ConversationList.getLastMessagePreview getTime phoneNumber msgs) <= 43)%nat
  /\ forall last,
       ConversationList.getLastMessage getTime phoneNumber msgs = Some last ->
       (String.length (m_text last) <= 40)%nat ->
       ConversationList.getLastMessagePreview getTime phoneNumber msgs = m_text last.
Proof.
  unfold ConversationList.getLastMessagePreview.
  destruct (ConversationList.getLastMessage getTime phoneNumber msgs) as [last|].
  - destruct (Nat.ltb_spec 40 (String.length (m_text last))) as [Hlong|Hshort].
    + split.
      * rewrite length_append. pose proof (length_substring 40 (m_text last)). simpl. lia.
      * intros last' Heq Hlen. inversion Heq; subst last'. lia.
    + split; [lia|]. intros last' Heq _. now inversion Heq.
  - split; [simpl; lia|]. intros last Heq. discriminate Heq.
Qed.

(** ** Go strings *)

Lemma bytes_append (a b : string) :
  strings.bytes (a +:+ b) = strings.bytes a ++ strings.bytes b.
Proof.
  unfold strings.bytes. induction a as [|c a IH]; simpl; [reflexivity | now rewrite IH].
Qed.

Lemma ofBytes_bytes (s : string) : strings.ofBytes (strings.bytes s) = s.
Proof. apply string_of_list_ascii_of_string. Qed.

Lemma bytes_ofBytes (l : list ascii) : strings.bytes (strings.ofBytes l) = l.
Proof. apply list_ascii_of_string_of_list_ascii. Qed.

Lemma length_bytes (s : string) : length (strings.bytes s) = String.length s.
Proof.
  unfold strings.bytes. induction s as [|c s IH]; simpl; [reflexivity | now rewrite IH].
Qed.

Lemma startsWith_nil (s : list ascii) : strings.startsWith s [] = true.
Proof. now destruct s. Qed.

Lemma startsWith_app (p r : list ascii) : strings.startsWith (p ++ r) p = true.
Proof.
  induction p as [|c p IH]; simpl; [apply startsWith_nil|].
  now rewrite Ascii.eqb_refl, IH.
Qed.

Lemma startsWith_longer (s r p : list ascii) :
  strings.startsWith s p = true -> strings.startsWith (s ++ r) p = true.
Proof.
  revert s. induction p as [|c p IH]; intros s; [intros _; apply startsWith_nil|].
  destruct s as [|d s]; simpl; [discriminate|].
  intros H. apply andb_true_iff in H as [Hc Hp]. now rewrite Hc, IH.
Qed.

Lemma containsBytes_longer (s r sub : list ascii) :
  strings.containsBytes s sub = true -> strings.containsBytes (s ++ r) sub = true.
Proof.
  induction s as [|c s IH].
  - simpl. rewrite orb_false_r. intros H. destruct sub as [|d sub]; [|discriminate H].
    destruct r; reflexivity.
  - intros H.
    change (strings.startsWith (c :: s) sub || strings.containsBytes s sub = true) in H.
    change (strings.startsWith ((c :: s) ++ r) sub || strings.containsBytes (s ++ r) sub
            = true).
    apply orb_true_iff in H as [H|H].
    + now rewrite (startsWith_longer (c :: s) r sub H).
    + rewrite (IH H). apply orb_true_r.
Qed.

Lemma containsBytes_later (l s sub : list ascii) :
  strings.containsBytes s sub = true -> strings.containsBytes (l ++ s) sub = true.
Proof.
  intros H. induction l as [|c l IH]; simpl; [exact H|].
  rewrite IH. apply orb_true_r.
Qed.

Lemma HasPrefix_append (pre x : string) : strings.HasPrefix (pre +:+ x) pre = true.
Proof. unfold strings.HasPrefix. rewrite bytes_append. apply startsWith_app. Qed.

Lemma TrimPrefix_append (pre x : string) : strings.TrimPrefix (pre +:+ x) pre = x.
Proof.
  unfold strings.TrimPrefix. rewrite HasPrefix_append, bytes_append, <- length_bytes.
  change (@skipn ascii) with (@drop ascii).
  rewrite drop_app_length. apply ofBytes_bytes.
Qed.

Lemma HasSuffix_append (x suf : string) : strings.HasSuffix (x +:+ suf) suf = true.
Proof.
  unfold strings.HasSuffix. rewrite bytes_append, rev_app_distr. apply startsWith_app.
Qed.

Lemma TrimSuffix_append (x suf : string) : strings.TrimSuffix (x +:+ suf) suf = x.
Proof.
  unfold strings.TrimSuffix. rewrite HasSuffix_append, bytes_append, length_append.
  replace (String.length x + String.length suf - String.length suf)%nat
    with (length (strings.bytes x)) by (rewrite length_bytes; lia).
  change (@firstn ascii) with (@take ascii).
  rewrite take_app_length. apply ofBytes_bytes.
Qed.

Lemma append_assoc (a b c : string) : (a +:+ b) +:+ c = a +:+ (b +:+ c).
Proof.
  induction a as [|x a IH]; [reflexivity|].
  change (String x ((a +:+ b) +:+ c) = String x (a +:+ (b +:+ c))). now rewrite IH.
Qed.

Lemma routed_userMessagesPath (p : string) : routed (userMessagesPath p) = true.
Proof.
  unfold routed, userMessagesPath. rewrite HasPrefix_append, <- append_assoc.
  now rewrite HasSuffix_append.
Qed.

Lemma phoneNumberOf_userMessagesPath (p : string) :
  httpapi.phoneNumberOf (userMessagesPath p) = strings.TrimSpace p.
Proof.
  unfold httpapi.phoneNumberOf, userMessagesPath.
  now rewrite TrimPrefix_append, TrimSuffix_append.
Qed.

Lemma GetUserMessages_lookup (s : store.Store) (p : string) :
  invalidPhoneNumber (strings.TrimSpace p) = false ->
  httpapi.serve s (httpapi.GetUserMessages (userMessagesPath p))
  = (match store.FindByPhoneNumber s (strings.TrimSpace p) with
     | (msgs, None) => httpapi.mkResponse 200 (httpapi.messageList msgs)
     | (_, Some _) => internalError "could not retrieve messages"
     end,
     [httpapi.FindByPhoneNumberCall (strings.TrimSpace p)]).
Proof.
  intros Hvalid. pose proof (routed_userMessagesPath p) as Hr.
  unfold routed in Hr. apply andb_true_iff in Hr as [Hpre Hsuf].
  unfold httpapi.GetUserMessages. rewrite Hpre, Hsuf. simpl negb. simpl orb.
  rewrite phoneNumberOf_userMessagesPath.
  unfold invalidPhoneNumber in Hvalid. rewrite Hvalid. simpl.
  destruct (store.FindByPhoneNumber s (strings.TrimSpace p)) as [msgs [e|]]; reflexivity.
Qed.

Lemma DeleteUserMessages_lookup (s : store.Store) (p : string) :
  invalidPhoneNumber (strings.TrimSpace p) = false ->
  httpapi.serve s (httpapi.DeleteUserMessages (userMessagesPath p))
  = (match store.DeleteByPhoneNumber s (strings.TrimSpace p) with
     | (deletedCount, None) =>
         httpapi.mkResponse 200 (httpapi.deleted "Messages deleted successfully" deletedCount
                                   (strings.TrimSpace p))
     | (_, Some _) => internalError "could not delete messages"
     end,
     [httpapi.DeleteByPhoneNumberCall (strings.TrimSpace p)]).
Proof.
  intros Hvalid. pose proof (routed_userMessagesPath p) as Hr.
  unfold routed in Hr. apply andb_true_iff in Hr as [Hpre Hsuf].
  unfold httpapi.DeleteUserMessages. rewrite Hpre, Hsuf. simpl negb. simpl orb.
  rewrite phoneNumberOf_userMessagesPath.
  unfold invalidPhoneNumber in Hvalid. rewrite Hvalid. simpl.
  destruct (store.DeleteByPhoneNumber s (strings.TrimSpace p)) as [n [e|]]; reflexivity.
Qed.

(** X16: from a request path [r.URL.Path] made of [/v1/user/], a phone
    number and [/messages], the per-recipient handlers read the number
    back, without the white space around it; unless that is empty or holds
    a slash, they call the store once, with exactly that number, and
    answer 200 with what the store returned, or 500 when the store
    failed. *)
Theorem path_phone_number_reaches_store (s : store.Store) (p : string) :
  invalidPhoneNumber (strings.TrimSpace p) = false ->
  httpapi.phoneNumberOf (userMessagesPath p) = strings.TrimSpace p
  /\ httpapi.serve s (httpapi.GetUserMessages (userMessagesPath p))
     = (match store.FindByPhoneNumber s (strings.TrimSpace p) with
        | (msgs, None) => httpapi.mkResponse 200 (httpapi.messageList msgs)
        | (_, Some _) => internalError "could not retrieve messages"
        end,
        [httpapi.FindByPhoneNumberCall (strings.TrimSpace p)])
  /\ httpapi.serve s (httpapi.DeleteUserMessages (userMessagesPath p))
     = (match store.DeleteByPhoneNumber s (strings.TrimSpace p) with
        | (deletedCount, None) =>
            httpapi.mkResponse 200 (httpapi.deleted "Messages deleted successfully"
                                      deletedCount (strings.TrimSpace p))
        | (_, Some _) => internalError "could not delete messages"
        end,
        [httpapi.DeleteByPhoneNumberCall (strings.TrimSpace p)]).
Proof.
  intros Hvalid. split; [apply phoneNumberOf_userMessagesPath|].
  split; [now apply GetUserMessages_lookup | now apply DeleteUserMessages_lookup].
Qed.

Lemma path_phone_number_reaches_store_witness :
  invalidPhoneNumber (strings.TrimSpace " +15551234567 ") = false
  /\ httpapi.phoneNumberOf (userMessagesPath " +15551234567 ") = "+15551234567"
  /\ snd (httpapi.serve emptyStore (httpapi.GetUserMessages (userMessagesPath " +15551234567 ")))
     = [httpapi.FindByPhoneNumberCall "+15551234567"].
Proof.
  split; [reflexivity|].
  destruct (path_phone_number_reaches_store emptyStore " +15551234567 " eq_refl)
    as [Hphone [Hget _]].
  split; [exact Hphone|]. rewrite Hget. reflexivity.
Defined.

(** ** The new-conversation dialog *)

Lemma plainByte_no_space (c : ascii) (rest : list ascii) :
  plainByte c = true ->
  strings.dropSpace strings.spaces (c :: rest) = None
  /\ strings.dropSpace (List.map (@rev ascii) strings.spaces) (c :: rest) = None
  /\ Ascii.eqb "/" c = false.
Proof.
  destruct c as [[] [] [] [] [] [] [] []]; intros H; try discriminate H;
    repeat split; reflexivity.
Qed.

Lemma dropSpaces_plain (fuel : nat) (encodings : list (list ascii)) (l : list ascii) :
  strings.dropSpace encodings l = None ->
  strings.dropSpaces fuel encodings l = l.
Proof. intros H. destruct fuel; simpl; [reflexivity | now rewrite H]. Qed.

Lemma TrimSpace_plain (p : string) :
  forallb plainByte (strings.bytes p) = true ->
  strings.TrimSpace p = p.
Proof.
  intros Hall. unfold strings.TrimSpace.
  assert (Hfront : strings.dropSpaces (String.length p) strings.spaces (strings.bytes p)
                   = strings.bytes p).
  { destruct (strings.bytes p) as [|c rest] eqn:Hb.
    - now destruct (String.length p).
    - apply dropSpaces_plain. simpl in Hall. apply andb_true_iff in Hall as [Hc _].
      destruct (plainByte_no_space c rest Hc) as [Hfirst _]. exact Hfirst. }
  rewrite Hfront.
  assert (Hback : strings.dropSpaces (length (strings.bytes p))
                    (List.map (@rev ascii) strings.spaces) (rev (strings.bytes p))
                  = rev (strings.bytes p)).
  { destruct (rev (strings.bytes p)) as [|c rest] eqn:Hb.
    - now destruct (length (strings.bytes p)).
    - apply dropSpaces_plain.
      assert (Hc : plainByte c = true).
      { rewrite forallb_forall in Hall. apply Hall. apply in_rev. rewrite Hb. now left. }
      destruct (plainByte_no_space c rest Hc) as [_ [Hlast _]]. exact Hlast. }
  rewrite Hback, rev_involutive. apply ofBytes_bytes.
Qed.

Lemma no_slash_plain (l : list ascii) :
  forallb plainByte l = true -> strings.containsBytes l ["/"%char] = false.
Proof.
  induction l as [|c l IH]; [reflexivity|].
  intros H. apply andb_true_iff in H as [Hc Hl].
  destruct (plainByte_no_space c l Hc) as [_ [_ Hslash]].
  change ((Ascii.eqb "/" c && strings.startsWith l []) || strings.containsBytes l ["/"%char]
          = false).
  rewrite Hslash, (IH Hl). reflexivity.
Qed.

Lemma digits_plain (l : list ascii) :
  NewConversationDialog.digits l = true -> forallb plainByte l = true.
Proof.
  intros H. assert (Hall : forallb NewConversationDialog.isDigit l = true).
  { destruct l; [discriminate H | exact H]. }
  clear H. induction l as [|c l IH]; simpl in *; [reflexivity|].
  apply andb_true_iff in Hall as [Hc Hl]. unfold plainByte at 1.
  rewrite Hc, orb_true_r. now apply IH.
Qed.

Lemma plusDigits_plain (l : list ascii) :
  NewConversationDialog.plusDigits l = true -> l <> [] /\ forallb plainByte l = true.
Proof.
  intros H. split; [intros ->; discriminate H|].
  destruct l as [|c rest]; [reflexivity|].
  destruct (Ascii.eqb_spec c "+") as [->|Hc].
  - simpl in H. simpl. now apply digits_plain.
  - apply digits_plain.
    destruct c as [[] [] [] [] [] [] [] []]; try exact H. now contradiction Hc.
Qed.

Lemma started_conversation_is_plain (input p : string) :
  NewConversationDialog.handleSubmit input = NewConversationDialog.onStartConversation p ->
  p = NewConversationDialog.clean (NewConversationDialog.trim input)
  /\ NewConversationDialog.plusDigits (strings.bytes p) = true
  /\ (10 <= String.length p)%nat.
Proof.
  unfold NewConversationDialog.handleSubmit.
  destruct (negb (truthy (NewConversationDialog.trim input))); [discriminate|].
  destruct (NewConversationDialog.validatePhoneNumber (NewConversationDialog.trim input))
    eqn:Hv; simpl; [|discriminate].
  intros Heq. inversion Heq as [Hp]. split; [reflexivity|].
  unfold NewConversationDialog.validatePhoneNumber in Hv.
  apply andb_true_iff in Hv as [Hlen Hplus]. split; [exact Hplus|].
  now apply Nat.leb_le in Hlen.
Qed.

(** X17: a phone number that the new-conversation dialog hands on is an
    optional plus sign followed by digits, at least ten characters in all;
    the store service takes such a number as it is: trimming leaves it
    unchanged, the validation of the per-recipient handlers accepts it,
    and the store is asked for exactly this number. *)
Theorem started_conversation_is_accepted (input p : string) (s : store.Store) :
  NewConversationDialog.handleSubmit input = NewConversationDialog.onStartConversation p ->
  NewConversationDialog.plusDigits (strings.bytes p) = true
  /\ (10 <= String.length p)%nat
  /\ strings.TrimSpace p = p
  /\ invalidPhoneNumber p = false
  /\ snd (httpapi.serve s (httpapi.GetUserMessages (userMessagesPath p)))
     = [httpapi.FindByPhoneNumberCall p].
Proof.
  intros Hsubmit.
  destruct (started_conversation_is_plain input p Hsubmit) as [_ [Hplus Hlen]].
  destruct (plusDigits_plain _ Hplus) as [Hne Hall].
  pose proof (TrimSpace_plain p Hall) as Htrim.
  assert (Hvalid : invalidPhoneNumber p = false).
  { unfold invalidPhoneNumber, strings.Contains.
    change (strings.bytes "/") with ["/"%char]. rewrite (no_slash_plain _ Hall).
    destruct p; [now contradiction Hne | reflexivity]. }
  split; [exact Hplus|]. split; [exact Hlen|]. split; [exact Htrim|]. split; [exact Hvalid|].
  rewrite GetUserMessages_lookup by (now rewrite Htrim).
  now rewrite Htrim.
Qed.

Lemma started_conversation_is_accepted_witness :
  NewConversationDialog.handleSubmit " +1 (555) 123-4567 "
  = NewConversationDialog.onStartConversation "+15551234567"
  /\ invalidPhoneNumber "+15551234567" = false
  /\ snd (httpapi.serve emptyStore (httpapi.GetUserMessages (userMessagesPath "+15551234567")))
     = [httpapi.FindByPhoneNumberCall "+15551234567"].
Proof.
  split; [reflexivity|].
  destruct (started_conversation_is_accepted " +1 (555) 123-4567 " "+15551234567" emptyStore
              eq_refl) as [_ [_ [_ [Hvalid Hcall]]]].
  split; [exact Hvalid | exact Hcall].
Defined.

(** ** The handlers over the in-memory store *)

(** X18: [CreateMessage] over the in-memory store answers 201 or 400 and
    never 500.  On 400 the store is left as it was.  On 201 one message
    was appended, with the trimmed fields of the request, none of them
    empty, and the status [RECEIVED]; it is the body of the reply, and
    [ListMessages] then returns the earlier messages followed by it. *)
Theorem created_message_is_listed
        (body : option httpapi_memory.createMessageRequest) (stamp : string)
        (createdAt : Z) (s : store.MemoryStore) :
  let s' := fst (httpapi_memory.CreateMessage body stamp createdAt s) in
  let r := snd (httpapi_memory.CreateMessage body stamp createdAt s) in
  (httpapi_memory.statusCode r = 400 /\ s' = s
   /\ exists message,
        httpapi_memory.payload r = httpapi_memory.errorResponse "BAD_REQUEST" message)
  \/ (httpapi_memory.statusCode r = 201
      /\ exists req msg,
           body = Some req
           /\ msg = models.mkMessage ("msg-" +:+ stamp)
                      (strings.TrimSpace (httpapi_memory.UserID req))
                      (strings.TrimSpace (httpapi_memory.PhoneNumber req))
                      (strings.TrimSpace (httpapi_memory.Text req))
                      "RECEIVED" createdAt
           /\ models.UserID msg <> "" /\ models.PhoneNumber msg <> "" /\ models.Text msg <> ""
           /\ httpapi_memory.payload r = httpapi_memory.savedMessage msg
           /\ store.messages s' = store.messages s ++ [msg]
           /\ httpapi_memory.ListMessages s'
              = httpapi_memory.mkResponse 200
                  (httpapi_memory.messageList (store.messages s ++ [msg]))).
Proof.
  cbv zeta. unfold httpapi_memory.CreateMessage.
  destruct body as [req|]; [|left; simpl; eauto].
  cbn [httpapi_memory.UserID httpapi_memory.PhoneNumber httpapi_memory.Text].
  destruct (String.eqb_spec (strings.TrimSpace (httpapi_memory.UserID req)) "") as [|Hu];
    [left; simpl; eauto|].
  destruct (String.eqb_spec (strings.TrimSpace (httpapi_memory.PhoneNumber req)) "") as [|Hp];
    [left; simpl; eauto|].
  destruct (String.eqb_spec (strings.TrimSpace (httpapi_memory.Text req)) "") as [|Ht];
    [left; simpl; eauto|].
  right. simpl. split; [reflexivity|].
  eexists req, _. split; [reflexivity|]. split; [reflexivity|].
  simpl. repeat (split; [assumption || reflexivity|]). reflexivity.
Qed.

(** ** Profiles *)

Lemma GetProfile_path (p : string) :
  profile_handlers.GetProfile (profilePath p)
  = if invalidPhoneNumber (strings.TrimSpace p)
    then profile_handlers.writeError 400 "BAD_REQUEST" "invalid phoneNumber"
    else profile_handlers.callGetProfile (strings.TrimSpace p) (fun '(profile, err) =>
           match err with
           | Some text =>
               if strings.Contains text "not found"
               then profile_handlers.writeError 404 "NOT_FOUND" text
               else profile_handlers.writeError 500 "INTERNAL" "could not retrieve profile"
           | None => profile_handlers.writeJSON 200 (profile_handlers.profileJSON profile)
           end).
Proof.
  unfold profile_handlers.GetProfile, profilePath, invalidPhoneNumber.
  rewrite HasPrefix_append, TrimPrefix_append. reflexivity.
Qed.

Lemma Contains_append (literal rest sub : string) :
  strings.Contains literal sub = true -> strings.Contains (literal +:+ rest) sub = true.
Proof.
  unfold strings.Contains. rewrite bytes_append. apply containsBytes_longer.
Qed.

(** X19: when the collection holds no document for the phone number of
    the path, the profile handler answers 404 [NOT_FOUND] after a single
    lookup, and the profile dialog, which gets the client's rejection for
    that status, opens empty in edit mode with no error shown. *)
Theorem missing_profile_opens_create_mode
        (c : profile_store.Collection) (now : Z) (p : string) (d : ProfileDialog.Dialog) :
  invalidPhoneNumber (strings.TrimSpace p) = false ->
  profile_store.findOne c (strings.TrimSpace p) = inr profile_store.ErrNoDocuments ->
  let served := profile_handlers.serve c now (profile_handlers.GetProfile (profilePath p)) in
  fst served
  = profile_handlers.mkResponse 404
      (profile_handlers.errorResponse "NOT_FOUND"
         ("profile not found for phone number: " +:+ strings.TrimSpace p))
  /\ snd served = [profile_store.FindOneCall (strings.TrimSpace p)]
  /\ forall message data,
       ProfileDialog.loadProfile
         (Api.getProfile
            (AxiosHttpError message (profile_handlers.statusCode (fst served)) data)) d
       = ProfileDialog.mkDialog None "" "" false None true.
Proof.
  intros Hvalid Hnone. cbv zeta. rewrite GetProfile_path, Hvalid.
  cbn [profile_handlers.serve profile_store.run profile_store.GetProfile].
  rewrite Hnone. cbn [profile_store.run].
  rewrite (Contains_append "profile not found for phone number: " _ "not found" eq_refl).
  simpl. repeat split.
Qed.

Lemma missing_profile_opens_create_mode_witness :
  let served := profile_handlers.serve noProfiles 1704067205000000000
                  (profile_handlers.GetProfile (profilePath "+15551234567")) in
  profile_handlers.statusCode (fst served) = 404
  /\ snd served = [profile_store.FindOneCall "+15551234567"]
  /\ ProfileDialog.loadProfile
       (Api.getProfile
          (AxiosHttpError "Request failed with status code 404"
             (profile_handlers.statusCode (fst served))
             (mkErrorData (Some "profile not found for phone number: +15551234567") None)))
       (ProfileDialog.mkDialog None "old" "" true None false)
     = ProfileDialog.mkDialog None "" "" false None true.
Proof.
  destruct (missing_profile_opens_create_mode noProfiles 1704067205000000000 "+15551234567"
              (ProfileDialog.mkDialog None "old" "" true None false) eq_refl eq_refl)
    as [Hresp [Hcalls Hdialog]].
  cbv zeta. split; [now rewrite Hresp|]. split; [exact Hcalls|]. apply Hdialog.
Defined.

Lemma CreateProfile_served (c : profile_store.Collection) (now : Z)
      (req : profile_store.Profile) :
  let phone := strings.TrimSpace (profile_store.PhoneNumber req) in
  let document := profile_store.mkProfile phone (strings.TrimSpace (profile_store.Name req))
                    (strings.TrimSpace (profile_store.Avatar req)) now now in
  invalidPhoneNumber phone = false ->
  profile_handlers.serve c now (profile_handlers.CreateProfile (Some req))
  = match profile_store.findOne c phone with
    | inl _ =>
        (profile_handlers.mkResponse 409
           (profile_handlers.errorResponse "CONFLICT"
              ("profile already exists for phone number: " +:+ phone)),
         [profile_store.FindOneCall phone])
    | inr profile_store.ErrNoDocuments =>
        (match profile_store.insertOne c document with
         | None => profile_handlers.mkResponse 201 (profile_handlers.profileJSON document)
         | Some err =>
             if profile_store.IsDuplicateKeyError err
             then profile_handlers.mkResponse 409
                    (profile_handlers.errorResponse "CONFLICT"
                       ("profile already exists for phone number: " +:+ phone))
             else if strings.Contains ("failed to create profile: " +:+ profile_store.Error err)
                                      "already exists"
             then profile_handlers.mkResponse 409
                    (profile_handlers.errorResponse "CONFLICT"
                       ("failed to create profile: " +:+ profile_store.Error err))
             else profile_handlers.mkResponse 500
                    (profile_handlers.errorResponse "INTERNAL" "could not create profile")
         end,
         [profile_store.FindOneCall phone; profile_store.InsertOneCall document])
    | inr err =>
        (if strings.Contains ("failed to check existing profile: " +:+ profile_store.Error err)
                             "already exists"
         then profile_handlers.mkResponse 409
                (profile_handlers.errorResponse "CONFLICT"
                   ("failed to check existing profile: " +:+ profile_store.Error err))
         else profile_handlers.mkResponse 500
                (profile_handlers.errorResponse "INTERNAL" "could not create profile"),
         [profile_store.FindOneCall phone])
    end.
Proof.
  cbv zeta. intros Hvalid. unfold invalidPhoneNumber in Hvalid.
  apply orb_false_iff in Hvalid as [Hempty Hslash].
  unfold profile_handlers.CreateProfile. cbn [profile_store.PhoneNumber].
  rewrite Hempty, Hslash.
  cbn [profile_handlers.serve]. unfold profile_store.CreateProfile.
  cbn [profile_store.PhoneNumber profile_store.Name profile_store.Avatar].
  rewrite Hempty. cbn [profile_store.run].
  destruct (profile_store.findOne c (strings.TrimSpace (profile_store.PhoneNumber req)))
    as [existing|[|text|text]].
  - cbn -[strings.Contains String.append].
    rewrite (Contains_append "profile already exists for phone number: " _ "already exists"
               eq_refl).
    reflexivity.
  - cbn [profile_store.run].
    destruct (profile_store.insertOne c _) as [[|text|text]|];
      cbn -[strings.Contains String.append].
    + destruct (strings.Contains _ "already exists"); reflexivity.
    + rewrite (Contains_append "profile already exists for phone number: " _ "already exists"
                 eq_refl).
      reflexivity.
    + destruct (strings.Contains _ "already exists"); reflexivity.
    + reflexivity.
  - cbn -[strings.Contains String.append].
    destruct (strings.Contains _ "already exists"); reflexivity.
  - cbn -[strings.Contains String.append].
    destruct (strings.Contains _ "already exists"); reflexivity.
Qed.

Lemma CreateProfile_refused (c : profile_store.Collection) (now : Z)
      (body : option profile_store.Profile) :
  match body with
  | None => True
  | Some req => invalidPhoneNumber (strings.TrimSpace (profile_store.PhoneNumber req)) = true
  end ->
  exists message,
    profile_handlers.serve c now (profile_handlers.CreateProfile body)
    = (profile_handlers.mkResponse 400 (profile_handlers.errorResponse "BAD_REQUEST" message),
       []).
Proof.
  destruct body as [req|]; [|intros _; eexists; reflexivity].
  unfold invalidPhoneNumber, profile_handlers.CreateProfile. cbn [profile_store.PhoneNumber].
  destruct (String.eqb (strings.TrimSpace (profile_store.PhoneNumber req)) "");
    [intros _; eexists; reflexivity|].
  destruct (strings.Contains (strings.TrimSpace (profile_store.PhoneNumber req)) "/");
    [intros _; eexists; reflexivity | discriminate].
Qed.

(** X20: creating a profile inserts a document only after a lookup for
    its phone number found none; the document is made of the request's
    phone number, name and avatar, each trimmed, with the current time as
    both timestamps; its phone number has passed the validation, and
    nothing else is inserted.  The reply is 201 exactly when such an insert
    succeeded, and its body is then the inserted document. *)
Theorem profile_inserted_only_when_absent
        (c : profile_store.Collection) (now : Z) (body : option profile_store.Profile) :
  let served := profile_handlers.serve c now (profile_handlers.CreateProfile body) in
  (forall document,
     inserts document (snd served) ->
     (exists req,
        body = Some req
        /\ document
           = profile_store.mkProfile (strings.TrimSpace (profile_store.PhoneNumber req))
               (strings.TrimSpace (profile_store.Name req))
               (strings.TrimSpace (profile_store.Avatar req)) now now)
     /\ profile_store.findOne c (profile_store.PhoneNumber document)
        = inr profile_store.ErrNoDocuments
     /\ invalidPhoneNumber (profile_store.PhoneNumber document) = false
     /\ profile_store.CreatedAt document = now
     /\ profile_store.UpdatedAt document = now
     /\ snd served = [profile_store.FindOneCall (profile_store.PhoneNumber document);
                      profile_store.InsertOneCall document])
  /\ (profile_handlers.statusCode (fst served) = 201
      <-> exists document,
            inserts document (snd served)
            /\ profile_store.insertOne c document = None
            /\ profile_handlers.payload (fst served) = profile_handlers.profileJSON document).
Proof.
  cbv zeta. unfold inserts.
  assert (Hrefused :
            (exists message,
               profile_handlers.serve c now (profile_handlers.CreateProfile body)
               = (profile_handlers.mkResponse 400
                    (profile_handlers.errorResponse "BAD_REQUEST" message), [])) ->
            (forall document,
               In (profile_store.InsertOneCall document)
                  (snd (profile_handlers.serve c now (profile_handlers.CreateProfile body))) ->
               False)
            /\ profile_handlers.statusCode
                 (fst (profile_handlers.serve c now (profile_handlers.CreateProfile body)))
               <> 201).
  { intros [message ->]. simpl. split; [now intros document []|discriminate]. }
  destruct body as [req|].
  2:{ destruct (Hrefused (CreateProfile_refused c now None I)) as [Hno Hst].
      split; [intros document Hin; now destruct (Hno document Hin)|].
      split; [intros H; now destruct (Hst H)|].
      intros [document [Hin _]]. now destruct (Hno document Hin). }
  destruct (invalidPhoneNumber (strings.TrimSpace (profile_store.PhoneNumber req))) eqn:Hvalid.
  { destruct (Hrefused (CreateProfile_refused c now (Some req) Hvalid)) as [Hno Hst].
    split; [intros document Hin; now destruct (Hno document Hin)|].
    split; [intros H; now destruct (Hst H)|].
    intros [document [Hin _]]. now destruct (Hno document Hin). }
  clear Hrefused. rewrite (CreateProfile_served c now req Hvalid).
  destruct (profile_store.findOne c (strings.TrimSpace (profile_store.PhoneNumber req)))
    as [existing|err] eqn:Hfind.
  - simpl. split; [intros document [Heq|[]]; discriminate Heq|].
    split; [discriminate|]. intros [document [[Heq|[]] _]]. discriminate Heq.
  - destruct err as [|text|text].
    + cbn [fst snd]. split.
      * intros document [Heq|[Heq|[]]]; [discriminate Heq|].
        inversion Heq; subst document. cbn [profile_store.PhoneNumber
          profile_store.CreatedAt profile_store.UpdatedAt].
        split; [eexists; split; reflexivity|]. auto.
      * split.
        -- intros Hst. eexists. split; [right; left; reflexivity|].
           destruct (profile_store.insertOne c _) as [e|]; [|split; reflexivity].
           destruct (profile_store.IsDuplicateKeyError e); [discriminate Hst|].
           destruct (strings.Contains _ "already exists"); discriminate Hst.
        -- intros [document [[Heq|[Heq|[]]] [Hins _]]]; [discriminate Heq|].
           inversion Heq; subst document. now rewrite Hins.
    + simpl snd. split; [intros document [Heq|[]]; discriminate Heq|].
      split.
      * cbn [fst]. destruct (strings.Contains _ "already exists"); discriminate.
      * intros [document [[Heq|[]] _]]. discriminate Heq.
    + simpl snd. split; [intros document [Heq|[]]; discriminate Heq|].
      split.
      * cbn [fst]. destruct (strings.Contains _ "already exists"); discriminate.
      * intros [document [[Heq|[]] _]]. discriminate Heq.
Qed.

(** X21: when the phone number already has a profile, found by the lookup
    or reported by the insert as a duplicate key, the reply is 409
    [CONFLICT], and the client turns that status into the rejection
    [Profile already exists]. *)
Theorem existing_profile_is_a_conflict
        (c : profile_store.Collection) (now : Z) (req : profile_store.Profile) :
  let phone := strings.TrimSpace (profile_store.PhoneNumber req) in
  let document := profile_store.mkProfile phone (strings.TrimSpace (profile_store.Name req))
                    (strings.TrimSpace (profile_store.Avatar req)) now now in
  let served := profile_handlers.serve c now (profile_handlers.CreateProfile (Some req)) in
  invalidPhoneNumber phone = false ->
  (exists existing, profile_store.findOne c phone = inl existing)
  \/ (profile_store.findOne c phone = inr profile_store.ErrNoDocuments
      /\ exists text,
           profile_store.insertOne c document = Some (profile_store.DuplicateKeyError text)) ->
  fst served
  = profile_handlers.mkResponse 409
      (profile_handlers.errorResponse "CONFLICT"
         ("profile already exists for phone number: " +:+ phone))
  /\ (forall message data,
        Api.createProfile
          (AxiosHttpError message (profile_handlers.statusCode (fst served)) data)
        = Rejected "Profile already exists").
Proof.
  cbv zeta. intros Hvalid Hexists. rewrite (CreateProfile_served c now req Hvalid).
  destruct Hexists as [[existing ->]|[-> [text ->]]]; simpl; split; reflexivity.
Qed.

Lemma existing_profile_is_a_conflict_witness :
  let served := profile_handlers.serve oneProfile 1704067205000000000
                  (profile_handlers.CreateProfile
                     (Some (profile_store.mkProfile " +15551234567" "Asha" "" 0 0))) in
  profile_handlers.statusCode (fst served) = 409
  /\ snd served = [profile_store.FindOneCall "+15551234567"]
  /\ Api.createProfile
       (AxiosHttpError "Request failed with status code 409"
          (profile_handlers.statusCode (fst served)) (mkErrorData None None))
     = Rejected "Profile already exists".
Proof.
  destruct (existing_profile_is_a_conflict oneProfile 1704067205000000000
              (profile_store.mkProfile " +15551234567" "Asha" "" 0 0) eq_refl
              (or_introl (ex_intro _ storedProfile eq_refl)))
    as [Hresp Hclient].
  cbv zeta. split; [now rewrite Hresp|]. split; [reflexivity|]. apply Hclient.
Defined.

(** X22: an update takes nothing from the request body but the name and
    the avatar: two bodies that agree on these are served alike, whatever
    phone number and timestamps they carry. *)
Theorem update_takes_name_and_avatar_only
        (c : profile_store.Collection) (now : Z) (path : string)
        (req1 req2 : profile_store.Profile) :
  profile_store.Name req1 = profile_store.Name req2 ->
  profile_store.Avatar req1 = profile_store.Avatar req2 ->
  profile_handlers.serve c now (profile_handlers.UpdateProfile path (Some req1))
  = profile_handlers.serve c now (profile_handlers.UpdateProfile path (Some req2)).
Proof.
  destruct req1 as [phone1 name1 avatar1 created1 updated1].
  destruct req2 as [phone2 name2 avatar2 created2 updated2].
  simpl. intros <- <-. unfold profile_handlers.UpdateProfile.
  destruct (negb (strings.HasPrefix path "/v1/profile/")); [reflexivity|].
  destruct (_ || _); reflexivity.
Qed.

Lemma update_takes_name_and_avatar_only_witness :
  profile_handlers.serve oneProfile 1704067205000000000
    (profile_handlers.UpdateProfile (profilePath "+15551234567")
       (Some (profile_store.mkProfile "+19990000000" " Asha K " "" 0 0)))
  = profile_handlers.serve oneProfile 1704067205000000000
      (profile_handlers.UpdateProfile (profilePath "+15551234567")
         (Some (profile_store.mkProfile "" " Asha K " "" 5 7)))
  /\ fst (profile_handlers.serve oneProfile 1704067205000000000
            (profile_handlers.UpdateProfile (profilePath "+15551234567")
               (Some (profile_store.mkProfile "+19990000000" " Asha K " "" 0 0))))
     = profile_handlers.mkResponse 200
         (profile_handlers.profileJSON
            (profile_store.mkProfile "+15551234567" "Asha K" "" 1704067200000000000
               1704067205000000000)).
Proof.
  split; [|reflexivity].
  apply (update_takes_name_and_avatar_only oneProfile 1704067205000000000
           (profilePath "+15551234567")
           (profile_store.mkProfile "+19990000000" " Asha K " "" 0 0)
           (profile_store.mkProfile "" " Asha K " "" 5 7) eq_refl eq_refl).
Defined.

(** ** The router *)

Lemma routed_never_invalid_path (s : store.Store) (path : string) :
  routed path = true ->
  fst (httpapi.serve s (httpapi.GetUserMessages path)) <> badRequest "invalid URL path"
  /\ fst (httpapi.serve s (httpapi.DeleteUserMessages path)) <> badRequest "invalid URL path".
Proof.
  intros Hr. rewrite GetUserMessages_cases, DeleteUserMessages_cases, Hr. simpl negb. cbv iota.
  destruct (invalidPhoneNumber (httpapi.phoneNumberOf path)).
  - split; discriminate.
  - simpl.
    destruct (store.FindByPhoneNumber s (httpapi.phoneNumberOf path)) as [msgs [e|]];
      destruct (store.DeleteByPhoneNumber s (httpapi.phoneNumberOf path)) as [n [e'|]];
      split; discriminate.
Qed.

(** X23: the function registered for [/v1/user/] answers a preflight
    request by itself, and hands a request to a handler only when the path
    ends in [/messages] and the method is GET or DELETE, to the handler of
    that method.  Since the router gives this function only paths that
    start with [/v1/user/], the handler it reaches never answers
    [invalid URL path]. *)
Theorem user_route_reaches_handlers (method path : string) :
  (method = "OPTIONS" -> main.user method path = main.plain 200 "")
  /\ forall h,
       main.user method path = main.handler h ->
       strings.HasSuffix path "/messages" = true
       /\ ((method = "GET" /\ h = httpapi.GetUserMessages path)
           \/ (method = "DELETE" /\ h = httpapi.DeleteUserMessages path))
       /\ (strings.HasPrefix path "/v1/user/" = true ->
           forall s, fst (httpapi.serve s h) <> badRequest "invalid URL path").
Proof.
  unfold main.user, main.corsMiddleware. split.
  - intros ->. reflexivity.
  - intros h. destruct (String.eqb method "OPTIONS"); [discriminate|].
    destruct (strings.HasSuffix path "/messages") eqn:Hsuf; simpl negb; cbv iota;
      [|discriminate].
    destruct (String.eqb_spec method "GET") as [->|Hget].
    + intros Heq. inversion Heq; subst h. split; [reflexivity|]. split; [now left|].
      intros Hpre s. apply routed_never_invalid_path. unfold routed. now rewrite Hpre, Hsuf.
    + destruct (String.eqb_spec method "DELETE") as [->|Hdel]; [|discriminate].
      intros Heq. inversion Heq; subst h. split; [reflexivity|]. split; [now right|].
      intros Hpre s. apply routed_never_invalid_path. unfold routed. now rewrite Hpre, Hsuf.
Qed.

Lemma UpdateProfile_calls (c : profile_store.Collection) (now : Z) (phone : string)
      (req : profile_store.Profile) :
  profile_store.run c (profile_store.UpdateProfile now phone req)
  = match profile_store.findOne c phone with
    | inl existing =>
        (match profile_store.findOneAndUpdate c phone (profile_store.Name req)
                 (profile_store.Avatar req) now with
         | inl updated => (updated, None)
         | inr err =>
             (profile_store.zeroProfile,
              Some ("failed to update profile: " +:+ profile_store.Error err))
         end,
         [profile_store.FindOneCall phone;
          profile_store.FindOneAndUpdateCall phone (profile_store.Name req)
            (profile_store.Avatar req) now])
    | inr profile_store.ErrNoDocuments =>
        ((profile_store.zeroProfile, Some ("profile not found for phone number: " +:+ phone)),
         [profile_store.FindOneCall phone])
    | inr err =>
        ((profile_store.zeroProfile,
          Some ("failed to check existing profile: " +:+ profile_store.Error err)),
         [profile_store.FindOneCall phone])
    end.
Proof.
  unfold profile_store.UpdateProfile. cbn -[String.append].
  destruct (profile_store.findOne c phone) as [existing|[|text|text]];
    cbn -[String.append]; try reflexivity.
  destruct (profile_store.findOneAndUpdate c phone (profile_store.Name req)
              (profile_store.Avatar req) now); reflexivity.
Qed.

(** X24: an update changes a document only after the lookup found the
    profile of the phone number in the path, and then sets the trimmed
    name and avatar of the request and the current time, for that phone
    number; a 200 reply carries the document that the update returned.
    When the lookup finds no profile the reply is 404 and nothing is
    changed. *)
Theorem update_changes_only_existing_profile
        (c : profile_store.Collection) (now : Z) (p : string) (req : profile_store.Profile) :
  let phone := strings.TrimSpace p in
  let name := strings.TrimSpace (profile_store.Name req) in
  let avatar := strings.TrimSpace (profile_store.Avatar req) in
  let served := profile_handlers.serve c now
                  (profile_handlers.UpdateProfile (profilePath p) (Some req)) in
  invalidPhoneNumber phone = false ->
  match profile_store.findOne c phone with
  | inl existing =>
      snd served = [profile_store.FindOneCall phone;
                    profile_store.FindOneAndUpdateCall phone name avatar now]
      /\ (profile_handlers.statusCode (fst served) = 200
          <-> exists updated,
                profile_store.findOneAndUpdate c phone name avatar now = inl updated
                /\ profile_handlers.payload (fst served) = profile_handlers.profileJSON updated)
  | inr profile_store.ErrNoDocuments =>
      snd served = [profile_store.FindOneCall phone]
      /\ fst served
         = profile_handlers.mkResponse 404
             (profile_handlers.errorResponse "NOT_FOUND"
                ("profile not found for phone number: " +:+ phone))
  | inr _ =>
      snd served = [profile_store.FindOneCall phone]
      /\ profile_handlers.statusCode (fst served) <> 200
  end.
Proof.
  cbv zeta. intros Hvalid. unfold profile_handlers.UpdateProfile, profilePath.
  rewrite HasPrefix_append, TrimPrefix_append. simpl negb. cbv iota.
  unfold invalidPhoneNumber in Hvalid. rewrite Hvalid.
  cbn [profile_handlers.serve]. rewrite UpdateProfile_calls.
  cbn [profile_store.Name profile_store.Avatar].
  destruct (profile_store.findOne c (strings.TrimSpace p)) as [existing|[|text|text]].
  - destruct (profile_store.findOneAndUpdate c (strings.TrimSpace p) _ _ now) as [updated|err].
    + simpl. split; [reflexivity|]. split; [intros _; eauto | reflexivity].
    + cbn -[strings.Contains String.append].
      destruct (strings.Contains _ "not found"); simpl; (split; [reflexivity|]);
        (split; [discriminate | intros [updated [Heq _]]; discriminate Heq]).
  - cbn -[strings.Contains String.append].
    rewrite (Contains_append "profile not found for phone number: " _ "not found" eq_refl).
    simpl. split; reflexivity.
  - cbn -[strings.Contains String.append].
    destruct (strings.Contains _ "not found"); simpl; split; (reflexivity || discriminate).
  - cbn -[strings.Contains String.append].
    destruct (strings.Contains _ "not found"); simpl; split; (reflexivity || discriminate).
Qed.

Lemma update_changes_only_existing_profile_witness :
  let served := profile_handlers.serve oneProfile 1704067205000000000
                  (profile_handlers.UpdateProfile (profilePath "+15551234567")
                     (Some (profile_store.mkProfile "" " Asha K " "" 0 0))) in
  snd served = [profile_store.FindOneCall "+15551234567";
                profile_store.FindOneAndUpdateCall "+15551234567" "Asha K" ""
                  1704067205000000000]
  /\ profile_handlers.statusCode (fst served) = 200.
Proof.
  pose proof (update_changes_only_existing_profile oneProfile 1704067205000000000
                "+15551234567" (profile_store.mkProfile "" " Asha K " "" 0 0) eq_refl)
    as [Hcalls Hstatus].
  cbv zeta. split; [exact Hcalls|]. apply Hstatus. eexists. split; reflexivity.
Defined.

(** ** The profile dialog *)

(** X25: what a save does follows from how the load went.  With a name
    that is not blank, a save after a load that found the profile sends an
    update, and a save after a load rejected as [not found] sends a
    create, each with the trimmed name and avatar; with a blank name no
    request is sent at all. *)
Theorem save_follows_load
        (phoneNumber typedName typedAvatar : string) (got : Outcome Api.Profile)
        (d : ProfileDialog.Dialog) :
  let edited := ProfileDialog.setAvatar typedAvatar
                  (ProfileDialog.setName typedName (ProfileDialog.loadProfile got d)) in
  let name := NewConversationDialog.trim typedName in
  let avatar := NewConversationDialog.trim typedAvatar in
  (name = "" -> ProfileDialog.handleSave phoneNumber edited = ProfileDialog.nameRequired)
  /\ (name <> "" ->
      (forall data, got = Resolved data ->
         ProfileDialog.handleSave phoneNumber edited
         = ProfileDialog.updateProfileCall phoneNumber name avatar)
      /\ (forall message, got = Rejected message ->
            ProfileDialog.includesNotFound message = true ->
            ProfileDialog.handleSave phoneNumber edited
            = ProfileDialog.createProfileCall phoneNumber name avatar)).
Proof.
  cbv zeta. unfold ProfileDialog.handleSave, ProfileDialog.setAvatar, ProfileDialog.setName.
  cbn [ProfileDialog.name ProfileDialog.avatar ProfileDialog.profile]. split.
  - intros ->. reflexivity.
  - intros Hname.
    assert (Ht : truthy (NewConversationDialog.trim typedName) = true).
    { unfold truthy. now apply negb_true_iff, String.eqb_neq. }
    rewrite Ht. simpl negb. cbv iota. split.
    + intros data ->. reflexivity.
    + intros message -> Hnot. unfold ProfileDialog.loadProfile. rewrite Hnot. reflexivity.
Qed.
